(** * Contact-form relay: the server route [routes/personalData.js] and the
      client flow [openContactForm] of [scripts.js], embedded and verified.

    JavaScript strings are sequences of UTF-16 code units; a code unit is a
    number ([N]).  Request bodies and the session storage are JavaScript
    objects used as maps from property names to values ([gmap string _]);
    the values of a request body are the JSON values the body parsers leave
    there, and a property that is absent reads as [undefined] ([None]). *)

From Stdlib Require Import NArith ZArith Ascii String.
From stdpp Require Import base option list gmap strings.

Local Open Scope N_scope.
Set Warnings "-register-all".

(** ** JavaScript strings *)

Module JsString.

Abbreviation jsstring := (list N).

(** A literal of the source, written with ASCII characters only. *)
Fixpoint js (s : string) : jsstring :=
  match s with
  | EmptyString => []
  | String a r => N_of_ascii a :: js r
  end.

(** [/\d/]: the ten ASCII digits. *)
Definition is_digit (c : N) : bool := (48 <=? c) && (c <=? 57).

(** [/\D/]: everything else. *)
Definition is_non_digit (c : N) : bool := negb (is_digit c).

(** [/\s/], which is also the set [String.prototype.trim] removes:
    WhiteSpace and LineTerminator of ECMAScript. *)
Definition is_space (c : N) : bool :=
  (c =? 9) || (c =? 10) || (c =? 11) || (c =? 12) || (c =? 13) || (c =? 32)
  || (c =? 160) || (c =? 5760) || ((8192 <=? c) && (c <=? 8202))
  || (c =? 8232) || (c =? 8233) || (c =? 8239) || (c =? 8287)
  || (c =? 12288) || (c =? 65279).

(** [str.replace(/\D/g, "")]: every match of the class is deleted. *)
Definition strip_non_digits (s : jsstring) : jsstring :=
  List.filter (fun c => negb (is_non_digit c)) s.

(** [str.slice(a, b)] and [str.slice(a)] for literal indices [0 <= a]. *)
Definition slice (a b : nat) (s : jsstring) : jsstring :=
  take (b - a)%nat (drop a s).
Definition slice_from (a : nat) (s : jsstring) : jsstring := drop a s.

(** [str.trim()], and validator's [trim(str)] without a character list:
    leading and trailing whitespace removed. *)
Fixpoint trim_start (s : jsstring) : jsstring :=
  match s with
  | c :: r => if is_space c then trim_start r else s
  | [] => []
  end.
Definition trim_end (s : jsstring) : jsstring :=
  List.rev (trim_start (List.rev s)).
Definition trim (s : jsstring) : jsstring := trim_end (trim_start s).

(** ASCII case folding of one code unit, for case-insensitive search. *)
Definition lower (c : N) : N :=
  if (65 <=? c) && (c <=? 90) then c + 32 else c.

Fixpoint is_prefix_ci (p s : jsstring) : bool :=
  match p, s with
  | [], _ => true
  | _ :: _, [] => false
  | a :: p', b :: s' => (lower a =? lower b) && is_prefix_ci p' s'
  end.

(** [p] occurs somewhere in [s], letter case ignored. *)
Fixpoint occurs_ci (p s : jsstring) : bool :=
  is_prefix_ci p s ||
  match s with
  | [] => false
  | _ :: s' => occurs_ci p s'
  end.

(** [p] is no prefix of [s] whatever follows [s]: the two differ at a
    position both have. *)
Fixpoint mismatch_ci (p s : jsstring) : bool :=
  match p, s with
  | a :: p', b :: s' => negb (lower a =? lower b) || mismatch_ci p' s'
  | _, _ => false
  end.

(** No occurrence of [p] starts inside [s], whatever follows [s]. *)
Fixpoint never_starts_ci (p s : jsstring) : bool :=
  match s with
  | [] => true
  | _ :: s' => mismatch_ci p s && never_starts_ci p s'
  end.

End JsString.
Import JsString.

(** ** [formatPhone] (routes/personalData.js) *)

Definition dash : jsstring := js "-".

Definition formatPhone (phone : jsstring) : jsstring :=
  let digits := strip_non_digits phone in
  if (length digits =? 10)%nat then
    slice 0 3 digits ++ dash ++ slice 3 6 digits ++ dash ++ slice_from 6 digits
  else js "None Provided".

(** ** JSON values exchanged between the client and the server

    A number is given by the text [String] makes of it. *)

Inductive json :=
| JNull
| JBool (b : bool)
| JNum (shown : jsstring)
| JStr (s : jsstring)
| JArr (items : list json)
| JObj (fields : list (string * json)).

(** [obj.key]: [None] is [undefined]; a property of a value that is no
    object is [undefined] too, but for [null], of which reading a property
    throws: the callers see to that. *)
Fixpoint assoc (k : string) (fields : list (string * json)) : option json :=
  match fields with
  | [] => None
  | (k', v) :: r => if String.eqb k k' then Some v else assoc k r
  end.

Definition prop (k : string) (v : json) : option json :=
  match v with
  | JObj fields => assoc k fields
  | _ => None
  end.

(** ToBoolean of a value that may be [undefined]. *)
Definition truthy (v : option json) : bool :=
  match v with
  | None | Some JNull => false
  | Some (JBool b) => b
  | Some (JNum s) => negb (bool_decide (s = js "0"))
  | Some (JStr s) => negb (bool_decide (s = []))
  | Some (JArr _) | Some (JObj _) => true
  end.

Fixpoint join_comma (l : list jsstring) : jsstring :=
  match l with
  | [] => []
  | [s] => s
  | s :: r => s ++ js "," ++ join_comma r
  end.

(** ToString, as [new Error(v)] and [v.toString()] apply it: [None] when
    it throws a TypeError, as it does for an object with a property
    [toString] of its own, which in a JSON value is no function.  An array
    is joined with commas, [null] counting as the empty string there. *)
Fixpoint to_js_string (v : json) : option jsstring :=
  match v with
  | JNull => Some (js "null")
  | JBool true => Some (js "true")
  | JBool false => Some (js "false")
  | JNum s => Some s
  | JStr s => Some s
  | JArr items =>
      join_comma <$>
      (fix each (l : list json) : option (list jsstring) :=
         match l with
         | [] => Some []
         | x :: r =>
             match match x with JNull => Some [] | _ => to_js_string x end,
                   each r with
             | Some t, Some ts => Some (t :: ts)
             | _, _ => None
             end
         end) items
  | JObj fields =>
      match assoc "toString" fields with
      | Some _ => None
      | None => Some (js "[object Object]")
      end
  end.

Record Response := { status : nat; payload : json }.

(** ** express-validator: a chain is a field and a stack of items

    The package is a dependency of the route.  Its chains are embedded as
    it documents them: [body(field)] starts a chain, every method adds an
    item, sanitizers rewrite the field on the request, standard validators
    test the field turned into a string and record an error when the test
    fails, and [validationResult] collects the errors in order.  A field
    that holds an array is sanitized and tested element by element. *)

(** The string the package makes of an object, and of an array that is an
    element of an array: it has changed from version to version. *)
Class ExpressValidator := { stringify : json -> jsstring }.

Module Chain.

Inductive Item :=
| Sanitizer (f : jsstring -> jsstring)
| Validation (test : jsstring -> bool) (message : option jsstring).

Record t := { field : string; stack : list Item }.

Record ValidationError :=
  { path : string; msg : jsstring; value : option json }.

(** The library's [toString]: [undefined] and [null] become the empty
    string, a boolean and a number the text [String] makes of them. *)
Definition toString `{ExpressValidator} (v : option json) : jsstring :=
  match v with
  | None | Some JNull => []
  | Some (JBool true) => js "true"
  | Some (JBool false) => js "false"
  | Some (JNum s) => s
  | Some (JStr s) => s
  | Some (JArr items) => stringify (JArr items)
  | Some (JObj fields) => stringify (JObj fields)
  end.

(** What a standard sanitizer leaves in the field: an array is rewritten
    element by element, any other value as a whole; what it leaves are
    strings. *)
Definition rewritten `{ExpressValidator} (f : jsstring -> jsstring)
    (v : option json) : json :=
  match v with
  | Some (JArr items) => JArr ((fun x => JStr (f (toString (Some x)))) <$> items)
  | _ => JStr (f (toString v))
  end.

(** What a standard validator tests: every element of an array, any other
    value as a whole; an empty array leaves it nothing to test. *)
Definition tested (v : option json) : list (option json) :=
  match v with
  | Some (JArr items) => Some <$> items
  | _ => [v]
  end.

Definition body (f : string) : t := {| field := f; stack := [] |}.

Definition add (i : Item) (c : t) : t :=
  {| field := field c; stack := stack c ++ [i] |}.

(** [.withMessage(m)] sets the message of the validator added last. *)
Fixpoint set_last_message (m : jsstring) (rev_stack : list Item) : list Item :=
  match rev_stack with
  | [] => []
  | Validation test _ :: r => Validation test (Some m) :: r
  | i :: r => i :: set_last_message m r
  end.

Definition withMessage (m : jsstring) (c : t) : t :=
  {| field := field c;
     stack := List.rev (set_last_message m (List.rev (stack c))) |}.

Section Run.
Context `{ExpressValidator}.

(** One item on the current body: a sanitizer replaces the field by what
    it leaves, a validator records an error for every value it tests that
    fails, and the chain goes on (no [.bail()] in the rules). *)
Definition sanitized (p : string) (i : Item) (b : gmap string json)
  : gmap string json :=
  match i with
  | Sanitizer f => <[p := rewritten f (b !! p)]> b
  | Validation _ _ => b
  end.

Definition failures (p : string) (i : Item) (b : gmap string json)
  : list ValidationError :=
  match i with
  | Sanitizer _ => []
  | Validation test m =>
      tested (b !! p) ≫= fun x =>
        if test (toString x) then []
        else [{| path := p;
                 msg := default (js "Invalid value") m;
                 value := x |}]
  end.

Definition run_item (p : string) (i : Item)
    (st : gmap string json * list ValidationError)
  : gmap string json * list ValidationError :=
  let '(b, errs) := st in (sanitized p i b, errs ++ failures p i b).

Definition run (c : t) (st : gmap string json * list ValidationError)
  : gmap string json * list ValidationError :=
  foldl (fun st i => run_item (field c) i st) st (stack c).

(** The chains of a rule array run in order, as express runs an array of
    middleware. *)
Definition run_all (rules : list t) (b : gmap string json)
  : gmap string json * list ValidationError :=
  foldl (fun st c => run c st) (b, []) rules.

End Run.

Definition error_json (e : ValidationError) : json :=
  JObj ([("type"%string, JStr (js "field"))]
        ++ match value e with
           | Some v => [("value"%string, v)]
           | None => []
           end
        ++ [("msg"%string, JStr (msg e));
            ("path"%string, JStr (js (path e)));
            ("location"%string, JStr (js "body"))]).

End Chain.

Notation "c |> f" := (f c) (at level 45, left associativity, only parsing).

(** ** External collaborators of the route

    The route calls three packages and reads the process environment.
    Each is an interface here; what the proofs need of them is a law
    stated next to it. *)

(** validator.js, behind express-validator's standard validators. *)
Class ValidatorJs := {
  (** [isEmail(str)] with the default options *)
  isEmail : jsstring -> bool;
  (** [normalizeEmail(str)] with the default options *)
  normalizeEmail : jsstring -> jsstring;
  (** the number of characters [isLength] counts in a string *)
  charCount : jsstring -> nat
}.

(** The [xss] package: [xss(html)] with the default white list. *)
Class Xss := { xss : jsstring -> jsstring }.

Record Mail := {
  from : option jsstring;
  to : option jsstring;
  subject : jsstring;
  html : jsstring
}.

(** [process.env] and the nodemailer transport created from it:
    [sendMail m] is [None] when the promise resolves and [Some e] when it
    rejects with an error whose [message] is [e]. *)
Class Deployment := {
  GMAIL_USER : option jsstring;
  EMAIL_TO : option jsstring;
  sendMail : Mail -> option jsstring
}.

(** The shape local@domain.tld, read as loosely as it can be: something,
    an at sign, something, a dot, something. *)
Fixpoint dot_then_some (s : jsstring) : bool :=
  match s with
  | [] => false
  | c :: r => ((c =? 46) && negb (bool_decide (r = []))) || dot_then_some r
  end.

Definition domain_tld (s : jsstring) : bool :=
  match s with
  | [] => false
  | _ :: r => dot_then_some r
  end.

Fixpoint at_then_domain (s : jsstring) : bool :=
  match s with
  | [] => false
  | c :: r => ((c =? 64) && domain_tld r) || at_then_domain r
  end.

Definition local_at_domain_tld (s : jsstring) : bool :=
  match s with
  | [] => false
  | _ :: r => at_then_domain r
  end.

(** What is assumed of validator.js: an accepted address has that shape. *)
Class ValidatorJsLaws `{ValidatorJs} : Prop := {
  isEmail_shape : forall s, isEmail s = true -> local_at_domain_tld s = true
}.

(** An executable script element starts with [<script], in any case. *)
Definition has_script_tag (s : jsstring) : bool := occurs_ci (js "<script") s.

(** What is assumed of xss: nothing comes of nothing, and no output opens
    a script element ([script] is not on the default white list, and the
    brackets of a tag that is not are escaped). *)
Class XssLaws `{Xss} : Prop := {
  xss_empty : xss [] = [];
  xss_no_script : forall s, has_script_tag (xss s) = false
}.

(** ** express-rate-limit *)

Module RateLimit.

Record Options := { windowMs : Z; max : nat; message : json }.

(** The arrival times (milliseconds) of the requests accepted so far, per
    client address, the latest first. *)
Abbreviation Store := (gmap jsstring (list Z)).

Inductive Verdict := Next | Limited (r : Response).

Definition recent (o : Options) (now : Z) (times : list Z) : list Z :=
  List.filter (fun t => (now - windowMs o <? t)%Z) times.

(** Modelled from the spec: the middleware [rateLimit(options)] of the
    express-rate-limit package, of which the source holds only the options.
    Per client address and over a sliding window of [windowMs]: a request
    is accepted when fewer than [max] requests of its address were accepted
    in the [windowMs] before it, and is otherwise answered with status 429
    and the fixed [message]. *)
Definition rateLimit (o : Options) (store : Store) (ip : jsstring) (now : Z)
  : Verdict * Store :=
  let accepted := default [] (store !! ip) in
  if (length (recent o now accepted) <? max o)%nat
  then (Next, <[ip := now :: accepted]> store)
  else (Limited {| status := 429; payload := message o |}, store).

End RateLimit.

(** ** The standard validators and sanitizers the rules use *)

Module V.

Definition trim : Chain.t -> Chain.t :=
  Chain.add (Chain.Sanitizer JsString.trim).

(** [.notEmpty()] is [.not().isEmpty()]: the string has a code unit. *)
Definition notEmpty : Chain.t -> Chain.t :=
  Chain.add (Chain.Validation (fun s => negb (length s =? 0)%nat) None).

Definition isEmail `{ValidatorJs} : Chain.t -> Chain.t :=
  Chain.add (Chain.Validation isEmail None).

Definition normalizeEmail `{ValidatorJs} : Chain.t -> Chain.t :=
  Chain.add (Chain.Sanitizer normalizeEmail).

(** [.isLength({ max })] *)
Definition isLength `{ValidatorJs} (max : nat) : Chain.t -> Chain.t :=
  Chain.add (Chain.Validation (fun s => (charCount s <=? max)%nat) None).

End V.

(** ** The route [POST /] of routes/personalData.js *)

Record Request := {
  req_ip : jsstring;        (** the client address the limiter keys on *)
  req_time : Z;             (** arrival time in milliseconds *)
  req_now : jsstring;       (** [new Date().toISOString()] in the handler *)
  req_body : gmap string json
}.

Record Server := {
  hits : RateLimit.Store;           (** the counters of [contactLimiter] *)
  outbox : list Mail;               (** every call of [transporter.sendMail] *)
  console : list (list jsstring)    (** every call of [console.error] *)
}.

Definition contactOptions : RateLimit.Options :=
  {| RateLimit.windowMs := 15 * 60 * 1000;
     RateLimit.max := 5;
     RateLimit.message :=
       JObj [("error"%string,
              JStr (js "Too many submissions. Please try again later."))] |}.

Definition contactLimiter : RateLimit.Store -> jsstring -> Z
                            -> RateLimit.Verdict * RateLimit.Store :=
  RateLimit.rateLimit contactOptions.

Definition nl : jsstring := [10].

Definition emailHtml (name email formattedPhone sendDate message : jsstring)
  : jsstring :=
  nl ++ js "        <p><strong>From:</strong> " ++ name ++ js "</p>" ++
  nl ++ js "        <p><strong>Email:</strong> " ++ email ++ js "</p>" ++
  nl ++ js "        <p><strong>Phone:</strong> " ++ formattedPhone ++ js "</p>" ++
  nl ++ js "        <p><strong>Date:</strong> " ++ sendDate ++ js "</p>" ++
  nl ++ js "        <hr>" ++
  nl ++ js "        <p>" ++ message ++ js "</p>" ++
  nl ++ js "      ".

Definition sent_ok : Response :=
  {| status := 200;
     payload := JObj [("success"%string, JBool true);
                      ("message"%string, JStr (js "Message sent successfully."))] |}.

Definition send_failed : Response :=
  {| status := 500;
     payload := JObj [("success"%string, JBool false);
                      ("message"%string, JStr (js "Failed to send message."))] |}.

Definition invalid (errors : list Chain.ValidationError) : Response :=
  {| status := 400;
     payload := JObj [("success"%string, JBool false);
                      ("errors"%string, JArr (List.map Chain.error_json errors))] |}.

Section Route.
Context `{ExpressValidator} `{ValidatorJs} `{Xss} `{Deployment}.

Definition validationRules : list Chain.t := [
  Chain.body "name" |> V.trim |> V.notEmpty
    |> Chain.withMessage (js "Name is required.") |> V.isLength 100;
  Chain.body "email" |> V.trim |> V.isEmail
    |> Chain.withMessage (js "A valid email is required.") |> V.normalizeEmail;
  Chain.body "phone" |> V.trim |> V.isLength 30;
  Chain.body "message" |> V.trim |> V.notEmpty
    |> Chain.withMessage (js "Message is required.") |> V.isLength 5000;
  Chain.body "subject" |> V.trim |> V.notEmpty
    |> Chain.withMessage (js "Subject is required.") |> V.isLength 200
].

(** [req.body.k] handed to [xss], whose first steps are [html || ''] and
    [html.toString()]; for [phone] the source writes the [|| ''] itself.
    Every field read here has a chain that starts with a sanitizer, so what
    is read is a string or an array of strings, of which [toString] does
    not throw. *)
Definition or_empty (v : option json) : jsstring :=
  if truthy v then default [] (v ≫= to_js_string) else [].

(** The phone line of the message, derived from the validated body. *)
Definition formattedPhone (b : gmap string json) : jsstring :=
  formatPhone (xss (or_empty (b !! "phone"%string))).

Definition compose (b : gmap string json) (now : jsstring) : Mail :=
  let name := xss (or_empty (b !! "name"%string)) in
  let email := xss (or_empty (b !! "email"%string)) in
  let message := xss (or_empty (b !! "message"%string)) in
  let subject := xss (or_empty (b !! "subject"%string)) in
  let sendDate := slice 0 10 now in
  {| from := GMAIL_USER;
     to := EMAIL_TO;
     subject := subject;
     html := emailHtml name email (formattedPhone b) sendDate message |}.

(** The handler proper: it runs once the limiter and the rules have. *)
Definition handler (b : gmap string json)
    (errors : list Chain.ValidationError) (now : jsstring) (srv : Server)
  : Response * Server :=
  match errors with
  | _ :: _ => (invalid errors, srv)
  | [] =>
      let mail := compose b now in
      match sendMail mail with
      | None =>
          (sent_ok,
           {| hits := hits srv; outbox := outbox srv ++ [mail];
              console := console srv |})
      | Some err =>
          (send_failed,
           {| hits := hits srv; outbox := outbox srv ++ [mail];
              console := console srv ++ [[js "Email error:"; err]] |})
      end
  end.

(** [router.post("/", contactLimiter, validationRules, handler)] *)
Definition handleSubmit (req : Request) (srv : Server) : Response * Server :=
  match contactLimiter (hits srv) (req_ip req) (req_time req) with
  | (RateLimit.Limited r, store) =>
      (r, {| hits := store; outbox := outbox srv; console := console srv |})
  | (RateLimit.Next, store) =>
      let '(b, errors) := Chain.run_all validationRules (req_body req) in
      handler b errors (req_now req)
        {| hits := store; outbox := outbox srv; console := console srv |}
  end.

(** Requests handled one after the other. *)
Fixpoint serve (reqs : list Request) (srv : Server) : list Response * Server :=
  match reqs with
  | [] => ([], srv)
  | r :: rest =>
      let '(resp, srv1) := handleSubmit r srv in
      let '(resps, srv2) := serve rest srv1 in
      (resp :: resps, srv2)
  end.

End Route.

(** ** The client flow [openContactForm] of scripts.js *)

(** The JavaScript engine of the browser words the errors it throws. *)
Class Engine := {
  (** the message of the TypeError for reading the property [k] of [null] *)
  nullProperty : string -> jsstring;
  (** the message of the TypeError for an object that [ToString] cannot
      turn into a primitive *)
  noPrimitive : jsstring
}.

Module Client.

Record Alert := { icon : jsstring; title : jsstring; text : jsstring }.

(** What the four inputs of the dialog hold when Submit is pressed. *)
Record Fields := {
  in_name : jsstring;
  in_email : jsstring;
  in_subject : jsstring;
  in_message : jsstring
}.

(** How [response.json()] settles. *)
Inductive Parsed :=
| JsonRejects (message : jsstring)
| JsonResolves (data : json).

(** How [fetch] settles: it rejects with an error carrying [message] (the
    text is the browser's), or resolves with a response. *)
Inductive Fetched :=
| FetchRejects (message : jsstring)
| FetchResolves (status : nat) (parsed : Parsed).

(** What the page does that can be observed. *)
Inductive Event :=
| Fire (a : Alert)                        (** [Swal.fire] of a notice *)
| OpenForm                                (** [Swal.fire] of the form *)
| ShowValidationMessage (m : jsstring)    (** [Swal.showValidationMessage] *)
| Post (body : gmap string json).         (** [fetch(CONTACT_API_URL, ...)] *)

Definition alreadySent : Alert :=
  {| icon := js "info";
     title := js "Already Sent";
     text := js "You have already submitted a message this session." |}.

Definition messageSent : Alert :=
  {| icon := js "success";
     title := js "Message Sent!";
     text := js "Thank you for reaching out. I will get back to you soon." |}.

Definition allRequired : jsstring := js "All fields are required.".
Definition invalidEmail : jsstring := js "Please enter a valid email address.".
Definition genericFailure : jsstring := js "Failed to send message.".
Definition failedToFetch : jsstring := js "Failed to fetch".
Definition checkConnection : jsstring :=
  js "Network error. Please check your connection.".

(** [[^\s@]] *)
Definition plain (c : N) : bool := negb (is_space c || (c =? 64)).

Fixpoint skip_plain (s : jsstring) : jsstring :=
  match s with
  | c :: r => if plain c then skip_plain r else s
  | [] => []
  end.

(** [/^[^\s@]+@[^\s@]+\.[^\s@]+$/.test(s)]: plain characters, one at sign,
    plain characters with a dot that is neither their first nor their
    last. *)
Definition emailRegex_test (s : jsstring) : bool :=
  match s with
  | [] => false
  | c :: r =>
      plain c &&
      match skip_plain r with
      | 64 :: d => forallb plain d && domain_tld d
      | _ => false
      end
  end.

(** [response.ok] *)
Definition ok (status : nat) : bool :=
  ((200 <=? status) && (status <=? 299))%nat.

Section Flow.
Context `{Engine}.

(** [new Error(data.message || "Failed to send message.")]: the message of
    the error that is thrown, which is the engine's when the conversion of
    [data.message] to a string throws. *)
Definition thrown (message : option json) : jsstring :=
  match message with
  | Some m =>
      if truthy (Some m) then default noPrimitive (to_js_string m)
      else genericFailure
  | None => genericFailure
  end.

(** The [try] block after the request is sent: the data it returns, or the
    [message] of the error it throws.  When the body is [null] the first
    property read of it throws: [success] if the status is 2xx, [message]
    if it is not. *)
Definition settle (net : Fetched) : json + jsstring :=
  match net with
  | FetchRejects m => inr m
  | FetchResolves _ (JsonRejects m) => inr m
  | FetchResolves status (JsonResolves JNull) =>
      inr (nullProperty (if ok status then "success" else "message"))
  | FetchResolves status (JsonResolves data) =>
      if negb (ok status) || negb (truthy (prop "success" data)) then
        inr (thrown (prop "message" data))
      else inl data
  end.

(** The [catch] block: the text shown for an error message. *)
Definition shown (error_message : jsstring) : jsstring :=
  if bool_decide (error_message = failedToFetch) then checkConnection
  else if bool_decide (error_message = []) then genericFailure
  else error_message.

(** The object given to [JSON.stringify], which the server's parser reads
    back as it is. *)
Definition postBody (name email subject message : jsstring)
  : gmap string json :=
  {[ "name"%string := JStr name; "email"%string := JStr email;
     "subject"%string := JStr subject; "message"%string := JStr message ]}.

(** [preConfirm]: [Some data] closes the dialog as confirmed, [None]
    (the source returns [false]) keeps it open. *)
Definition preConfirm (f : Fields) (net : Fetched)
  : list Event * option json :=
  let name := trim (in_name f) in
  let email := trim (in_email f) in
  let subject := trim (in_subject f) in
  let message := trim (in_message f) in
  if bool_decide (name = []) || bool_decide (email = [])
     || bool_decide (subject = []) || bool_decide (message = [])
  then ([ShowValidationMessage allRequired], None)
  else if negb (emailRegex_test email)
  then ([ShowValidationMessage invalidEmail], None)
  else
    match settle net with
    | inl data => ([Post (postBody name email subject message)], Some data)
    | inr e => ([Post (postBody name email subject message);
                 ShowValidationMessage (shown e)], None)
    end.

(** The open dialog: each press of Submit comes with what the inputs hold
    and how the network would answer; when the presses run out the user
    cancels. *)
Fixpoint dialog (presses : list (Fields * Fetched))
  : list Event * option json :=
  match presses with
  | [] => ([], None)
  | (f, net) :: rest =>
      match preConfirm f net with
      | (events, Some data) => (events, Some data)
      | (events, None) =>
          let '(later, result) := dialog rest in (events ++ later, result)
      end
  end.

(** [sessionStorage.getItem(k)] in a condition: a stored non-empty string. *)
Definition flag_set (storage : gmap string jsstring) (k : string) : bool :=
  match storage !! k with
  | Some (_ :: _) => true
  | _ => false
  end.

Definition openContactForm (storage : gmap string jsstring)
    (presses : list (Fields * Fetched))
  : gmap string jsstring * list Event :=
  if flag_set storage "contactSent" then (storage, [Fire alreadySent])
  else
    match dialog presses with
    | (events, Some _) =>
        (<["contactSent"%string := js "true"]> storage,
         OpenForm :: events ++ [Fire messageSent])
    | (events, None) => (storage, OpenForm :: events)
    end.

End Flow.

End Client.

(** ** Reference collaborators, to run the route on concrete requests *)

Module Reference.

(** Brackets escaped, as xss does to a tag that is not on its white list. *)
Definition escapeHtml (s : jsstring) : jsstring :=
  List.flat_map
    (fun c => if c =? 60 then js "&lt;" else if c =? 62 then js "&gt;" else [c])
    s.

Definition validator : ValidatorJs :=
  {| isEmail := Client.emailRegex_test;
     normalizeEmail := List.map lower;
     charCount := @length N |}.

Definition sanitizer : Xss := {| xss := escapeHtml |}.

(** The package turning an object or a nested array into a string as
    JavaScript does. *)
Definition library : ExpressValidator :=
  {| stringify := fun v => default [] (to_js_string v) |}.

(** The wording of V8. *)
Definition v8 : Engine :=
  {| nullProperty := fun k =>
       js "Cannot read properties of null (reading '" ++ js k ++ js "')";
     noPrimitive := js "Cannot convert object to primitive value" |}.

(** A transport that delivers, and one that is refused by the relay. *)
Definition delivering : Deployment :=
  {| GMAIL_USER := Some (js "owner@gmail.com");
     EMAIL_TO := Some (js "owner@example.com");
     sendMail := fun _ => None |}.

Definition refusing : Deployment :=
  {| GMAIL_USER := Some (js "owner@gmail.com");
     EMAIL_TO := Some (js "owner@example.com");
     sendMail := fun _ => Some (js "Invalid login: 535-5.7.8 BadCredentials") |}.

Definition idle : Server := {| hits := ∅; outbox := []; console := [] |}.

Definition jane : gmap string json :=
  {[ "name"%string := JStr (js "Jane Doe");
     "email"%string := JStr (js "jane@example.com");
     "phone"%string := JStr (js "4045551234");
     "subject"%string := JStr (js "Hello");
     "message"%string := JStr (js "Hi there") ]}.

(** What Jane types into the dialog, spaces and all. *)
Definition typed : Client.Fields :=
  {| Client.in_name := js " Jane Doe";
     Client.in_email := js "jane@example.com ";
     Client.in_subject := js "Hello";
     Client.in_message := js "Hi there" |}.

Definition address : jsstring := js "203.0.113.7".

Definition at_minute (m : Z) (b : gmap string json) : Request :=
  {| req_ip := address;
     req_time := m * 60000;
     req_now := js "2026-03-01T10:00:00.000Z";
     req_body := b |}.


(** The dialog and the flow in a browser that words its errors as V8
    does. *)
Definition press : Client.Fields -> Client.Fetched
                   -> list Client.Event * option json :=
  @Client.preConfirm v8.

Definition contact : gmap string jsstring
                     -> list (Client.Fields * Client.Fetched)
                     -> gmap string jsstring * list Client.Event :=
  @Client.openContactForm v8.

(** The route with the reference validator and sanitizer. *)
Definition submit (d : Deployment) : Request -> Server -> Response * Server :=
  @handleSubmit library validator sanitizer d.

Definition submit_all (d : Deployment) : list Request -> Server
                                         -> list Response * Server :=
  @serve library validator sanitizer d.

(** The server once five submissions of [jane], a minute apart, have been
    answered. *)
Definition busy (d : Deployment) : Server :=
  (submit_all d (List.map (fun m => at_minute m jane) [0; 1; 2; 3; 4]%Z)
     idle).2.

End Reference.

(** ** Vocabulary of the properties *)

(** The ten-digit layout XXX-XXX-XXXX. *)
Definition dashed (d0 d1 d2 d3 d4 d5 d6 d7 d8 d9 : N) : jsstring :=
  [d0; d1; d2; 45; d3; d4; d5; 45; d6; d7; d8; d9].

(** The fields a submission must carry. *)
Definition required : list string :=
  ["name"; "email"; "subject"; "message"]%string.

(** The strings the rules of field [k] test: the field turned into a
    string and trimmed, a field that is missing counting as empty; for an
    array one string for every element, and none when it is empty. *)
Definition texts `{ExpressValidator} (b : gmap string json) (k : string)
  : list jsstring :=
  (fun x => trim (Chain.toString x)) <$> Chain.tested (b !! k).

(** Field [k] of a body once trimmed, as the handler reads it: the one
    string, or the strings of an array joined with commas. *)
Definition trimmed `{ExpressValidator} (b : gmap string json) (k : string)
  : jsstring :=
  join_comma (texts b k).

Definition check (p : string) (test : jsstring -> bool) (m : jsstring)
    (v : jsstring) : list Chain.ValidationError :=
  if test v then []
  else [{| Chain.path := p; Chain.msg := m; Chain.value := Some (JStr v) |}].

(** One rule on all the strings of a field. *)
Definition checks (p : string) (test : jsstring -> bool) (m : jsstring)
    (vs : list jsstring) : list Chain.ValidationError :=
  vs ≫= check p test m.

(** Field [k] is missing from the body, or is empty once trimmed, or is an
    array with an element that is; an array without elements is none of
    these. *)
Definition missing_or_blank `{ExpressValidator} (b : gmap string json)
    (k : string) : Prop :=
  [] ∈ texts b k.

(** The characters of [Date.prototype.toISOString()]: digits, the signs of
    the date and time layout, and the letters T and Z. *)
Definition iso_char (c : N) : bool :=
  is_digit c || (c =? 45) || (c =? 43) || (c =? 58) || (c =? 46)
  || (c =? 84) || (c =? 90).

Definition iso_timestamp (s : jsstring) : Prop :=
  forallb iso_char s = true.

(** The inputs pass the checks the dialog makes before it sends anything:
    the four fields are non-empty once trimmed and the address matches the
    pattern. *)
Definition submits (f : Client.Fields) : Prop :=
  trim (Client.in_name f) <> [] /\ trim (Client.in_email f) <> []
  /\ trim (Client.in_subject f) <> [] /\ trim (Client.in_message f) <> []
  /\ Client.emailRegex_test (trim (Client.in_email f)) = true.

(** The body the dialog posts for these inputs. *)
Definition posted (f : Client.Fields) : gmap string json :=
  Client.postBody (trim (Client.in_name f)) (trim (Client.in_email f))
    (trim (Client.in_subject f)) (trim (Client.in_message f)).


(** The limiter lets the request through to the rules. *)
Definition admitted (req : Request) (srv : Server) : Prop :=
  (contactLimiter (hits srv) (req_ip req) (req_time req)).1 = RateLimit.Next.

(** [a] is [b] with [m] handed to the transport, and nothing else. *)
Definition one_more (m : Mail) (before after : Server) : Prop :=
  outbox after = outbox before ++ [m].

Section Vocabulary.
Context `{ExpressValidator} `{ValidatorJs} `{Xss} `{Deployment}.

(** The email field as the handler reads it: every string of the field
    trimmed and normalized, those of an array joined with commas. *)
Definition normalized (b : gmap string json) (k : string) : jsstring :=
  join_comma (normalizeEmail <$> texts b k).

(** The body the handler reads once all five chains have run. *)
Definition validated (b : gmap string json) : gmap string json :=
  <["subject"%string := Chain.rewritten trim (b !! "subject"%string)]>
    (<["message"%string := Chain.rewritten trim (b !! "message"%string)]>
       (<["phone"%string := Chain.rewritten trim (b !! "phone"%string)]>
          (<["email"%string :=
               Chain.rewritten normalizeEmail
                 (Some (Chain.rewritten trim (b !! "email"%string)))]>
             (<["name"%string := Chain.rewritten trim (b !! "name"%string)]>
                b)))).

(** The errors the five chains record, in their order. *)
Definition rule_errors (b : gmap string json)
  : list Chain.ValidationError :=
  checks "name" (fun s => negb (length s =? 0)%nat) (js "Name is required.")
    (texts b "name") ++
  checks "name" (fun s => (charCount s <=? 100)%nat) (js "Invalid value")
    (texts b "name") ++
  checks "email" isEmail (js "A valid email is required.") (texts b "email") ++
  checks "phone" (fun s => (charCount s <=? 30)%nat) (js "Invalid value")
    (texts b "phone") ++
  checks "message" (fun s => negb (length s =? 0)%nat)
    (js "Message is required.") (texts b "message") ++
  checks "message" (fun s => (charCount s <=? 5000)%nat) (js "Invalid value")
    (texts b "message") ++
  checks "subject" (fun s => negb (length s =? 0)%nat)
    (js "Subject is required.") (texts b "subject") ++
  checks "subject" (fun s => (charCount s <=? 200)%nat) (js "Invalid value")
    (texts b "subject").

(** No rule objects to the body. *)
Definition passes_validation (req : Request) : Prop :=
  (Chain.run_all validationRules (req_body req)).2 = [].

End Vocabulary.

(** ** Further vocabulary *)

(** The five fields the rules and the handler read. *)
Definition fields : list string :=
  ["name"; "email"; "phone"; "message"; "subject"]%string.

(** The tests the rules make on a body: two on every string of name,
    message and subject, one on every string of email and phone. *)
Definition tests `{ExpressValidator} (b : gmap string json) : nat :=
  2 * length (texts b "name") + length (texts b "email")
  + length (texts b "phone") + 2 * length (texts b "message")
  + 2 * length (texts b "subject").

Module Padded.

(** Jane's submission as another client might send it: spaces around the
    values and a key the route does not know. *)
Definition jane : gmap string json :=
  {[ "name"%string := JStr (js "  Jane Doe ");
     "email"%string := JStr (js "jane@example.com ");
     "phone"%string := JStr (js " 4045551234");
     "subject"%string := JStr (js "Hello  ");
     "message"%string := JStr (js "  Hi there");
     "website"%string := JStr (js "https://example.com") ]}.

End Padded.

(** One of the four inputs of the dialog is empty once trimmed. *)
Definition blank (f : Client.Fields) : Prop :=
  trim (Client.in_name f) = [] \/ trim (Client.in_email f) = []
  \/ trim (Client.in_subject f) = [] \/ trim (Client.in_message f) = [].

(** A response of the route as the dialog receives it: [response.ok] is
    computed from the status and [response.json()] yields the body. *)
Definition received (r : Response) : Client.Fetched :=
  Client.FetchResolves (status r) (Client.JsonResolves (payload r)).

(** The pattern [^[^\s@]+@[^\s@]+\.[^\s@]+$] read as a sentence: a local
    part, an at sign, a middle part, a dot and a last part, the three parts
    non-empty and free of whitespace and at signs. *)
Definition matches_email_pattern (s : jsstring) : Prop :=
  exists l m t,
    s = l ++ 64 :: m ++ 46 :: t
    /\ l <> [] /\ m <> [] /\ t <> []
    /\ Forall (fun c => Client.plain c = true) (l ++ m ++ t).

Module Typed.

(** Jane forgets her name, or mistypes her address. *)
Definition nameless : Client.Fields :=
  {| Client.in_name := js "   ";
     Client.in_email := js "jane@example.com";
     Client.in_subject := js "Hello";
     Client.in_message := js "Hi there" |}.

Definition mistyped : Client.Fields :=
  {| Client.in_name := js "Jane Doe";
     Client.in_email := js "jane@example";
     Client.in_subject := js "Hello";
     Client.in_message := js "Hi there" |}.

End Typed.

(** ** The application [index.js]

    The middleware in the order of the source: the body parsers, the global
    limiter, the router mounted at [/personaldata], the health route, and
    the error handler last.  [cors], [helmet] and [morgan] add headers and
    log lines and let every request of this model through; a preflight,
    which [cors] answers itself, is not a request of this model. *)

Module App.

(** What express's routing makes of the method and the path. *)
Inductive Target :=
| Contact      (** a POST the router mounted at [/personaldata] matches *)
| Health       (** a GET of [/health] *)
| Unmatched.   (** anything else *)

Record Incoming := {
  target : Target;
  (** what [express.json] and [express.urlencoded] leave in [req.body], or
      the message of the error they pass to [next]; a body that is an array
      has none of the properties the route reads and counts as the empty
      object *)
  parsed : jsstring + gmap string json;
  ip : jsstring;
  time : Z;
  now : jsstring
}.

(** A JSON answer of the application, or express's own 404 when nothing
    matched. *)
Inductive Reply :=
| Json (r : Response)
| NotFound.

Record State := {
  global : RateLimit.Store;   (** the counters of [globalLimiter] *)
  server : Server
}.

Definition globalOptions : RateLimit.Options :=
  {| RateLimit.windowMs := 15 * 60 * 1000;
     RateLimit.max := 50;
     RateLimit.message :=
       JObj [("error"%string,
              JStr (js "Too many requests. Please try again later."))] |}.

Definition globalLimiter : RateLimit.Store -> jsstring -> Z
                           -> RateLimit.Verdict * RateLimit.Store :=
  RateLimit.rateLimit globalOptions.

Definition healthy : Response :=
  {| status := 200;
     payload := JObj [("status"%string, JStr (js "ok"))] |}.

Definition internal_error : Response :=
  {| status := 500;
     payload := JObj [("error"%string,
                       JStr (js "Internal server error."))] |}.

(** The error handler: the message goes to the console, the answer is
    fixed. *)
Definition errorHandler (message : jsstring) (st : State) : Reply * State :=
  (Json internal_error,
   {| global := global st;
      server := {| hits := hits (server st);
                   outbox := outbox (server st);
                   console := console (server st)
                              ++ [[js "Unhandled error:"; message]] |} |}).

Section App.
Context `{ExpressValidator} `{ValidatorJs} `{Xss} `{Deployment}.

Definition app (rq : Incoming) (st : State) : Reply * State :=
  match parsed rq with
  | inl message => errorHandler message st
  | inr body =>
      match globalLimiter (global st) (ip rq) (time rq) with
      | (RateLimit.Limited r, store) =>
          (Json r, {| global := store; server := server st |})
      | (RateLimit.Next, store) =>
          match target rq with
          | Contact =>
              let '(r, srv) :=
                handleSubmit {| req_ip := ip rq; req_time := time rq;
                                req_now := now rq; req_body := body |}
                  (server st) in
              (Json r, {| global := store; server := srv |})
          | Health => (Json healthy, {| global := store; server := server st |})
          | Unmatched => (NotFound, {| global := store; server := server st |})
          end
      end
  end.

(** Requests handled one after the other. *)
Fixpoint run (rqs : list Incoming) (st : State) : list Reply * State :=
  match rqs with
  | [] => ([], st)
  | rq :: rest =>
      let '(reply, st1) := app rq st in
      let '(replies, st2) := run rest st1 in
      (reply :: replies, st2)
  end.

End App.

(** The global limiter lets the request through. *)
Definition passes_global (rq : Incoming) (st : State) : Prop :=
  (globalLimiter (global st) (ip rq) (time rq)).1 = RateLimit.Next.

(** The request as the router of [/personaldata] sees it. *)
Definition submission (rq : Incoming) (body : gmap string json)
  : Request :=
  {| req_ip := ip rq; req_time := time rq; req_now := now rq;
     req_body := body |}.

Definition started : State :=
  {| global := ∅; server := {| hits := ∅; outbox := []; console := [] |} |}.

End App.

Module Monitor.

(** A monitor that fetches [/health] once a second, and Jane's submission
    from the same address. *)
Definition ping (second : nat) : App.Incoming :=
  {| App.target := App.Health; App.parsed := inr ∅;
     App.ip := Reference.address; App.time := Z.of_nat second * 1000;
     App.now := js "2026-03-01T10:00:00.000Z" |}.

Definition pings (n : nat) : list App.Incoming := List.map ping (seq 0 n).

Definition jane (second : nat) : App.Incoming :=
  {| App.target := App.Contact; App.parsed := inr Reference.jane;
     App.ip := Reference.address; App.time := Z.of_nat second * 1000;
     App.now := js "2026-03-01T10:00:00.000Z" |}.

End Monitor.

(** The answer of the global limiter. *)
Definition too_many_requests : App.Reply :=
  App.Json {| status := 429;
              payload :=
                JObj [("error"%string,
                       JStr (js "Too many requests. Please try again later."))]
           |}.

(** A request of address [a] whose body was parsed and that arrives in the
    fifteen minutes that start at [t1]. *)
Definition in_window_of (a : jsstring) (t1 : Z) (rq : App.Incoming) : Prop :=
  App.ip rq = a
  /\ (exists body, App.parsed rq = inr body)
  /\ (t1 <= App.time rq < t1 + 900000)%Z.

(** ** The page: [scripts.js] outside the contact form

    The document is the list of the elements of the static page, in
    document order; a reference to an element is its position.  The only
    elements the scripts create are the close button and the image that
    [initPopup] writes into the element with the id [popUp]; the only one
    they remove is that element, with what was written into it. *)

From Stdlib Require DecimalString.

Module Page.

Record Element := {
  tag : string;
  el_id : jsstring;
  classList : gset string;
  (** [oncontextmenu] and [ondragstart] are the handlers of [secureImage] *)
  guarded : bool;
  (** the markup a script has assigned to [innerHTML], if any *)
  html : option jsstring;
  (** the element is in the document *)
  attached : bool
}.

(** What [initPopup] writes into the element at position [holder]. *)
Record Frame := {
  holder : nat;
  closeButton : Element;
  image : Element
}.

Inductive Ref :=
| Static (k : nat)
| FrameButton
| FrameImage.

(** The callbacks handed to [setTimeout]. *)
Inductive Task :=
| RemoveHidden (target : nat)
| FillPopup
| RemovePopup.

Record State := {
  elements : list Element;
  frame : option Frame;
  (** the elements [handleScrollToTop] will observe, while it listens *)
  scrollListener : option (list nat);
  (** the targets of every [IntersectionObserver] created *)
  observers : list (gset nat);
  (** the pending timers, with their delays *)
  timers : list (Z * Task)
}.

Definition set_elements (l : list Element) (st : State) : State :=
  {| elements := l; frame := frame st; scrollListener := scrollListener st;
     observers := observers st; timers := timers st |}.

Definition set_frame (f : option Frame) (st : State) : State :=
  {| elements := elements st; frame := f; scrollListener := scrollListener st;
     observers := observers st; timers := timers st |}.

Definition set_scrollListener (l : option (list nat)) (st : State) : State :=
  {| elements := elements st; frame := frame st; scrollListener := l;
     observers := observers st; timers := timers st |}.

Definition set_observers (o : list (gset nat)) (st : State) : State :=
  {| elements := elements st; frame := frame st;
     scrollListener := scrollListener st; observers := o;
     timers := timers st |}.

Definition set_timers (t : list (Z * Task)) (st : State) : State :=
  {| elements := elements st; frame := frame st;
     scrollListener := scrollListener st; observers := observers st;
     timers := t |}.

(** [setTimeout(task, delay)] *)
Definition setTimeout (task : Task) (delay : Z) (st : State) : State :=
  set_timers (timers st ++ [(delay, task)]) st.

(** *** The DOM calls the scripts make *)

Definition add_class (c : string) (e : Element) : Element :=
  {| tag := tag e; el_id := el_id e; classList := classList e ∪ {[c]};
     guarded := guarded e; html := html e; attached := attached e |}.

Definition remove_class (c : string) (e : Element) : Element :=
  {| tag := tag e; el_id := el_id e; classList := classList e ∖ {[c]};
     guarded := guarded e; html := html e; attached := attached e |}.

Definition guard (e : Element) : Element :=
  {| tag := tag e; el_id := el_id e; classList := classList e;
     guarded := true; html := html e; attached := attached e |}.

Definition set_html (h : jsstring) (e : Element) : Element :=
  {| tag := tag e; el_id := el_id e; classList := classList e;
     guarded := guarded e; html := Some h; attached := attached e |}.

(** [element.remove()] *)
Definition detach (e : Element) : Element :=
  {| tag := tag e; el_id := el_id e; classList := classList e;
     guarded := guarded e; html := html e; attached := false |}.

Fixpoint position (p : Element -> bool) (l : list Element) : option nat :=
  match l with
  | [] => None
  | e :: r => if p e then Some 0%nat else S <$> position p r
  end.

Definition has_id (i : jsstring) (e : Element) : bool :=
  attached e && bool_decide (el_id e = i).

(** What was written into the popup is in the document as long as the
    element it was written into is. *)
Definition frame_attached (st : State) (f : Frame) : bool :=
  match elements st !! holder f with
  | Some e => attached e
  | None => false
  end.

(** [document.getElementById(i)]: [None] is [null]. *)
Definition getElementById (st : State) (i : jsstring) : option Ref :=
  match position (has_id i) (elements st) with
  | Some k => Some (Static k)
  | None =>
      match frame st with
      | Some f =>
          if frame_attached st f then
            if bool_decide (el_id (closeButton f) = i) then Some FrameButton
            else if bool_decide (el_id (image f) = i) then Some FrameImage
            else None
          else None
      | None => None
      end
  end.

(** A change made to the element a reference stands for. *)
Definition on_frame (g : Frame -> Frame) (st : State) : State :=
  set_frame (g <$> frame st) st.

Definition update (r : Ref) (g : Element -> Element) (st : State) : State :=
  match r with
  | Static k => set_elements (alter g k (elements st)) st
  | FrameButton =>
      on_frame (fun f => {| holder := holder f;
                            closeButton := g (closeButton f);
                            image := image f |}) st
  | FrameImage =>
      on_frame (fun f => {| holder := holder f;
                            closeButton := closeButton f;
                            image := g (image f) |}) st
  end.

(** [experience.toString()] *)
Definition decimal (z : Z) : jsstring :=
  js (DecimalString.NilZero.string_of_int (Z.to_int z)).

(** *** The functions of the script *)

Definition BACKGROUND_IMAGE_IDS : list jsstring :=
  [js "sd-background-image"; js "skills-background-image"].

Definition showDelay : Z := 1000.
Definition autoCloseDelay : Z := 11000.

(** [secureImage(img)]: assigning to a property of [null] throws. *)
Definition secureImage (img : option Ref) (st : State) : option State :=
  match img with
  | None => None
  | Some r => Some (update r guard st)
  end.

(** [calculateExperience()], [currentYear] being [new Date().getFullYear()]. *)
Definition calculateExperience (currentYear : Z) (st : State) : option State :=
  let startYear := 2019%Z in
  let experience := (currentYear - startYear)%Z in
  match getElementById st (js "sn_years_experience") with
  | None => None
  | Some r => Some (update r (set_html (decimal experience)) st)
  end.

(** The callback of [initPopup]. *)
Definition fresh_button : Element :=
  {| tag := "div"; el_id := js "popUpCloseButton";
     classList := {["popUpCloseButton"%string]};
     guarded := false; html := None; attached := true |}.

Definition fresh_image : Element :=
  {| tag := "img"; el_id := js "popUpImage";
     classList := {["popUpImage"%string]};
     guarded := false; html := None; attached := true |}.

(** [POPUP_CONFIG.linkUrl] and [POPUP_CONFIG.imageUrl] *)
Definition linkUrl : jsstring :=
  js "https://marathon-paris.dossards-solidaires.org/fundraisers/"
  ++ js "greg-roques?utm_campaign=dossards-solidaires"
  ++ js "&utm_content=new_action&utm_medium=email-auto&utm_source=kentaa".

Definition imageUrl : jsstring := js "images/popup/popupImage-1.jpg".

Definition quote : jsstring := [34].

(** The template literal assigned to [popUpContainer.innerHTML]. *)
Definition popupMarkup : jsstring :=
  nl ++ js "            <div class=" ++ quote ++ js "popUpFrame" ++ quote ++
  js ">" ++ nl ++ js "                <div id=" ++ quote ++
  js "popUpCloseButton" ++ quote ++ js " class=" ++ quote ++
  js "popUpCloseButton" ++ quote ++ js " onclick=" ++ quote ++
  js "closePopUp()" ++ quote ++ js ">X</div>" ++ nl ++
  js "                <a href=" ++ quote ++ linkUrl ++ quote ++
  js " target=" ++ quote ++ js "_blank" ++ quote ++ js " rel=" ++ quote ++
  js "noopener noreferrer" ++ quote ++ js ">" ++ nl ++
  js "                    <img id=" ++ quote ++ js "popUpImage" ++ quote ++
  js " onload=" ++ quote ++ js "onPopupImageLoad()" ++ quote ++
  js " class=" ++ quote ++ js "popUpImage" ++ quote ++ js " alt=" ++ quote ++
  js "Pop Up Message" ++ quote ++ js " src=" ++ quote ++ imageUrl ++ quote ++
  js ">" ++ nl ++ js "                </a>" ++ nl ++
  js "            </div>" ++ nl ++ js "        ".

(** The assignment to [innerHTML] leaves the markup in the element and
    makes the two elements of the markup that the scripts look up its
    children.  What [initPopup] has written has the ids popUpCloseButton and
    popUpImage, so the element found here is one of the page. *)
Definition fillPopup (st : State) : State :=
  match getElementById st (js "popUp") with
  | Some (Static k) =>
      set_frame (Some {| holder := k; closeButton := fresh_button;
                         image := fresh_image |})
        (update (Static k) (set_html popupMarkup) st)
  | _ => st
  end.

(** The callback of [onPopupImageLoad], and [closePopUp()]. *)
Definition removePopup (st : State) : State :=
  match getElementById st (js "popUp") with
  | Some r => update r detach st
  | None => st
  end.

Definition closePopUp : State -> State := removePopup.

(** [initPopup()], [now] being the time of [new Date()] and [endDate] that
    of [POPUP_CONFIG.endDate], midnight of 11 April 2026 where the browser
    is. *)
Definition initPopup (endDate now : Z) (st : State) : State :=
  if (endDate <=? now)%Z then st
  else setTimeout FillPopup showDelay st.

Definition onPopupImageLoad (st : State) : option State :=
  let popupImage := getElementById st (js "popUpImage") in
  let closeButton := getElementById st (js "popUpCloseButton") in
  match secureImage popupImage st with
  | None => None
  | Some st1 =>
      let st2 := match popupImage with
                 | Some r => update r (add_class "imgFadeIn") st1
                 | None => st1
                 end in
      let st3 := match closeButton with
                 | Some r => update r (add_class "popUpCloseButtonFadeIn") st2
                 | None => st2
                 end in
      Some (setTimeout RemovePopup autoCloseDelay st3)
  end.

Definition imgFadeIn : State -> option State := onPopupImageLoad.

(** [observer.unobserve(target)] *)
Definition unobserve (observer target : nat) (st : State) : State :=
  set_observers (alter (fun s => s ∖ {[target]}) observer (observers st)) st.

Definition id_of (st : State) (target : nat) : jsstring :=
  default [] (el_id <$> elements st !! target).

(** The body of the observer's callback for one entry, a target and
    whether it intersects. *)
Definition reveal (endDate : Z) (observer : nat) (now : Z) (st : State)
    (entry : nat * bool) : State :=
  let '(target, isIntersecting) := entry in
  if negb isIntersecting then st
  else
    let isBackgroundImage :=
      bool_decide (id_of st target ∈ BACKGROUND_IMAGE_IDS) in
    let st1 :=
      if isBackgroundImage
      then update (Static target) (add_class "background-show") st
      else
        let st2 := update (Static target) (add_class "show") st in
        let st3 := setTimeout (RemoveHidden target) 3000 st2 in
        if bool_decide (id_of st target = js "popUp")
        then initPopup endDate now st3
        else st3 in
    unobserve observer target st1.

(** The callback: [entries.forEach(...)]. *)
Definition callback (endDate : Z) (observer : nat)
    (entries : list (nat * bool)) (now : Z) (st : State) : State :=
  foldl (reveal endDate observer now) st entries.

(** [setupObserver()]: a new observer that observes every element. *)
Definition setupObserver (els : list nat) (st : State) : State :=
  set_observers (observers st ++ [list_to_set els]) st.

(** [handleScrollToTop()], [y] being [window.scrollY], of which
    [window.pageYOffset] is another name. *)
Definition handleScrollToTop (els : list nat) (y : Z) (st : State) : State :=
  if (y =? 0)%Z then set_scrollListener None (setupObserver els st) else st.

(** [initIntersectionObserver(elements)]; [window.scrollTo(0, 0)] is a
    request to the browser, which answers with scroll events. *)
Definition initIntersectionObserver (els : list nat) (y : Z) (st : State)
  : State :=
  if (y =? 0)%Z then setupObserver els st
  else set_scrollListener (Some els) st.

(** The positions of the elements in the document that satisfy [p]:
    [document.querySelectorAll]. *)
Definition select (p : Element -> bool) (st : State) : list nat :=
  List.filter
    (fun k => match elements st !! k with
              | Some e => attached e && p e
              | None => false
              end)
    (seq 0 (length (elements st))).

Definition is_img (e : Element) : bool := bool_decide (tag e = "img"%string).

Definition is_hidden (e : Element) : bool :=
  bool_decide ("hidden"%string ∈ classList e)
  || bool_decide ("background-hidden"%string ∈ classList e).

(** [initApp()] at the load of the page, before [initPopup] has written
    anything. The handler it assigns to [window.onpageshow] touches the
    history only. *)
Definition initApp (currentYear y : Z) (st : State) : option State :=
  match calculateExperience currentYear st with
  | None => None
  | Some st1 =>
      let st2 := foldl (fun s k => update (Static k) guard s) st1
                   (select is_img st1) in
      let hiddenElements := select is_hidden st2 in
      Some (initIntersectionObserver hiddenElements y st2)
  end.

(** *** What happens to the page *)

Inductive Event :=
| Scroll (y : Z)
| Intersect (observer : nat) (entries : list (nat * bool)) (now : Z)
| Timeout (i : nat)
| ImageLoaded
| CloseClicked.

Definition runTask (task : Task) (st : State) : State :=
  match task with
  | RemoveHidden target => update (Static target) (remove_class "hidden") st
  | FillPopup => fillPopup st
  | RemovePopup => removePopup st
  end.

(** One event; [None] when the handler throws. *)
Definition step (endDate : Z) (ev : Event) (st : State) : option State :=
  match ev with
  | Scroll y =>
      match scrollListener st with
      | Some els => Some (handleScrollToTop els y st)
      | None => Some st
      end
  | Intersect observer entries now =>
      Some (callback endDate observer entries now st)
  | Timeout i =>
      match timers st !! i with
      | Some (_, task) => Some (runTask task (set_timers (delete i (timers st)) st))
      | None => Some st
      end
  | ImageLoaded => onPopupImageLoad st
  | CloseClicked => Some (closePopUp st)
  end.

(** A handler that throws leaves the page as it found it: the only throw
    is the first statement to touch the page. *)
Definition after (endDate : Z) (evs : list Event) (st : State) : State :=
  foldl (fun s ev => default s (step endDate ev s)) st evs.

(** A page on which no script has run yet. *)
Definition untouched (st : State) : Prop :=
  frame st = None /\ scrollListener st = None /\ observers st = []
  /\ timers st = [].

End Page.

Module Sample.

(** A small page: the years of experience, a background image, a section
    to reveal and the popup, all still hidden. *)
Definition el (t : string) (i : string) (classes : list string)
  : Page.Element :=
  {| Page.tag := t; Page.el_id := js i;
     Page.classList := list_to_set classes;
     Page.guarded := false; Page.html := None; Page.attached := true |}.

Definition page : Page.State :=
  {| Page.elements :=
       [el "span" "sn_years_experience" [];
        el "img" "sd-background-image" ["background-hidden"%string];
        el "section" "skills" ["hidden"%string];
        el "div" "popUp" ["hidden"%string]];
     Page.frame := None; Page.scrollListener := None;
     Page.observers := []; Page.timers := [] |}.

(** Midnight of 11 April 2026, universal time, and a moment before. *)
Definition endDate : Z := 1775865600000.
Definition march : Z := 1772359200000.

End Sample.

(** An element as it may have become: the same tag and id, still guarded
    if it was, and in the document only if it was. *)
Definition became (e e' : Page.Element) : Prop :=
  Page.tag e' = Page.tag e /\ Page.el_id e' = Page.el_id e
  /\ (Page.guarded e = true -> Page.guarded e' = true)
  /\ (Page.attached e' = true -> Page.attached e = true).

(** At most one element in the document has the id [i]. *)
Definition unique_id (i : jsstring) (st : Page.State) : Prop :=
  forall j k ej ek,
    Page.elements st !! j = Some ej -> Page.elements st !! k = Some ek ->
    Page.has_id i ej = true -> Page.has_id i ek = true -> j = k.

(** The ids of what [initPopup] writes. *)
Definition frame_ids (st : Page.State) : Prop :=
  forall f, Page.frame st = Some f ->
            Page.el_id (Page.closeButton f) = js "popUpCloseButton"
            /\ Page.el_id (Page.image f) = js "popUpImage".

(** The changes the scripts make to an element. *)
Definition gentle (g : Page.Element -> Page.Element) : Prop :=
  forall e, became e (g e).

(** What was written into the popup is as [initPopup] wrote it, but for
    classes and handlers: the ids are the two of the template, and the image
    is guarded if it has been faded in. *)
Definition frame_kept (st : Page.State) : Prop :=
  forall f, Page.frame st = Some f ->
            Page.el_id (Page.closeButton f) = js "popUpCloseButton"
            /\ Page.el_id (Page.image f) = js "popUpImage"
            /\ ("imgFadeIn"%string ∈ Page.classList (Page.image f) ->
                Page.guarded (Page.image f) = true).

(** Three things an element may keep while the page changes: what was
    written into it, unless it is the element popUp and the popup was
    written into it; the absence of the class [show] on a background image;
    and a class it has. *)
Definition same_html (e e' : Page.Element) : Prop :=
  Page.el_id e' = Page.el_id e
  /\ (Page.html e' = Page.html e
      \/ (Page.el_id e = js "popUp"
          /\ Page.html e' = Some Page.popupMarkup)).

Definition not_shown (e e' : Page.Element) : Prop :=
  Page.el_id e' = Page.el_id e
  /\ (Page.el_id e ∈ Page.BACKGROUND_IMAGE_IDS ->
      "show"%string ∈ Page.classList e' -> "show"%string ∈ Page.classList e).

Definition keeps_class (c : string) (e e' : Page.Element) : Prop :=
  c ∈ Page.classList e -> c ∈ Page.classList e'.

(** The class an element is revealed with. *)
Definition revealed_class (e : Page.Element) : string :=
  if bool_decide (Page.el_id e ∈ Page.BACKGROUND_IMAGE_IDS)
  then "background-show"%string else "show"%string.

(** No popup has been written and none is about to be. *)
Definition quiet (st : Page.State) : Prop :=
  Page.frame st = None
  /\ Forall (fun t : Z * Page.Task => t.2 <> Page.FillPopup) (Page.timers st).

(** Every entry seen by an observer is seen at [endDate] or later. *)
Definition ended (endDate : Z) (evs : list Page.Event) : Prop :=
  forall observer entries now,
    Page.Intersect observer entries now ∈ evs -> (endDate <= now)%Z.

(** No element with the id [i] is in the document. *)
Definition gone (i : jsstring) (st : Page.State) : Prop :=
  forall k e, Page.elements st !! k = Some e -> Page.has_id i e = false.

(** What was written into the popup was written into an element
    [popUp]. *)
Definition held (st : Page.State) : Prop :=
  forall f, Page.frame st = Some f ->
            exists e, Page.elements st !! Page.holder f = Some e
                      /\ Page.el_id e = js "popUp".

(** * Properties *)

(** ** Strings *)

Lemma strip_non_digits_digits (s : jsstring) :
  Forall (fun c => is_digit c = true) (strip_non_digits s).
Proof.
  unfold strip_non_digits, is_non_digit.
  induction s as [|c s IH]; simpl; [constructor|].
  destruct (is_digit c) eqn:E; simpl; [constructor|]; assumption.
Qed.

(** ** [formatPhone] *)

Example formatPhone_plain :
  formatPhone (js "4045551234") = js "404-555-1234".
Proof. reflexivity. Qed.

Example formatPhone_punctuated :
  formatPhone (js "(404) 555-1234") = js "404-555-1234".
Proof. reflexivity. Qed.

Example formatPhone_empty : formatPhone [] = js "None Provided".
Proof. reflexivity. Qed.

Example formatPhone_nine : formatPhone (js "404555123") = js "None Provided".
Proof. reflexivity. Qed.

Example formatPhone_eleven :
  formatPhone (js "14045551234") = js "None Provided".
Proof. reflexivity. Qed.

Example formatPhone_letters :
  formatPhone (js "call me maybe") = js "None Provided".
Proof. reflexivity. Qed.

Example jane_is_answered :
  (Reference.submit Reference.delivering
     (Reference.at_minute 0 Reference.jane) Reference.idle).1 = sent_ok.
Proof. vm_compute. reflexivity. Qed.

Example jane_phone_in_mail :
  html <$> outbox (Reference.submit Reference.delivering
                     (Reference.at_minute 0 Reference.jane) Reference.idle).2
  = [emailHtml (js "Jane Doe") (js "jane@example.com") (js "404-555-1234")
       (js "2026-03-01") (js "Hi there")].
Proof. vm_compute. reflexivity. Qed.

(** C4. When stripping the non-digits of the input leaves exactly ten
    digits, [formatPhone] returns them laid out as XXX-XXX-XXXX; for every
    other input it returns the text None Provided. *)
Theorem formatPhone_ten_or_none (phone : jsstring) :
  (forall d0 d1 d2 d3 d4 d5 d6 d7 d8 d9,
      strip_non_digits phone = [d0; d1; d2; d3; d4; d5; d6; d7; d8; d9] ->
      formatPhone phone = dashed d0 d1 d2 d3 d4 d5 d6 d7 d8 d9)
  /\ (length (strip_non_digits phone) <> 10%nat ->
      formatPhone phone = js "None Provided").
Proof.
  split.
  - intros d0 d1 d2 d3 d4 d5 d6 d7 d8 d9 E.
    unfold formatPhone. rewrite E. reflexivity.
  - intros Hn. unfold formatPhone.
    destruct (Nat.eqb_spec (length (strip_non_digits phone)) 10) as [E|_];
      [contradiction | reflexivity].
Qed.

Lemma formatPhone_ten_or_none_witness :
  formatPhone (js "(404) 555-1234") = js "404-555-1234"
  /\ formatPhone (js "+1 (404) 555-1234") = js "None Provided".
Proof.
  split.
  - apply (proj1 (formatPhone_ten_or_none (js "(404) 555-1234"))
             52 48 52 53 53 53 49 50 51 52).
    reflexivity.
  - apply (proj2 (formatPhone_ten_or_none (js "+1 (404) 555-1234"))).
    vm_compute. lia.
Defined.

(** ** The rules *)

Section Rules.
Context `{ExpressValidator} `{ValidatorJs} `{Xss} `{Deployment}.

Lemma run_item_pair p i (b : gmap string json) errs :
  Chain.run_item p i (b, errs)
  = (Chain.sanitized p i b, errs ++ Chain.failures p i b).
Proof. reflexivity. Qed.

(** What a validator tests once a sanitizer has run: the strings the
    sanitizer left, one for each value there was to test. *)
Lemma tested_rewritten (f : jsstring -> jsstring) (v : option json) :
  Chain.tested (Some (Chain.rewritten f v))
  = (fun x => Some (JStr (f (Chain.toString x)))) <$> Chain.tested v.
Proof.
  destruct v as [[| | | |items|]|]; try reflexivity.
  cbn [Chain.rewritten Chain.tested]. rewrite <- !list_fmap_compose.
  reflexivity.
Qed.

Lemma bind_strings (f : jsstring -> jsstring) (test : jsstring -> bool)
    (p : string) (m : jsstring) (l : list (option json)) :
  ((fun x => Some (JStr (f (Chain.toString x)))) <$> l) ≫=
    (fun x => if test (Chain.toString x) then []
              else [{| Chain.path := p; Chain.msg := m; Chain.value := x |}])
  = checks p test m ((fun x => f (Chain.toString x)) <$> l).
Proof.
  unfold checks. induction l as [|x l IH]; [reflexivity|].
  rewrite !fmap_cons, !bind_cons, IH. reflexivity.
Qed.

Lemma texts_rewritten (v : option json) :
  (fun x => Chain.toString x)
    <$> ((fun x => Some (JStr (trim (Chain.toString x)))) <$> Chain.tested v)
  = (fun x => trim (Chain.toString x)) <$> Chain.tested v.
Proof. rewrite <- list_fmap_compose. reflexivity. Qed.

(** The five chains, run on any body, in closed form. *)
Lemma rules_run (b : gmap string json) :
  Chain.run_all validationRules b = (validated b, rule_errors b).
Proof.
  unfold Chain.run_all, validationRules.
  cbn [foldl Chain.run Chain.body V.trim V.notEmpty V.isEmail
       V.normalizeEmail V.isLength Chain.withMessage Chain.add Chain.field
       Chain.stack app List.rev Chain.set_last_message].
  repeat rewrite run_item_pair.
  cbn [Chain.sanitized Chain.failures].
  rewrite ?lookup_insert_eq.
  repeat (rewrite lookup_insert_ne; [|done]).
  rewrite ?insert_insert_eq.
  rewrite !tested_rewritten.
  rewrite !(bind_strings trim (fun s => negb (length s =? 0)%nat)),
    (bind_strings trim (fun s => (charCount s <=? 100)%nat)),
    (bind_strings trim isEmail),
    (bind_strings trim (fun s => (charCount s <=? 30)%nat)),
    (bind_strings trim (fun s => (charCount s <=? 5000)%nat)),
    (bind_strings trim (fun s => (charCount s <=? 200)%nat)).
  unfold validated, rule_errors, texts.
  cbn [default app id].
  rewrite ?app_nil_r, <- ?app_assoc.
  reflexivity.
Qed.

Lemma check_fails p test m v :
  test v = false ->
  check p test m v
  = [{| Chain.path := p; Chain.msg := m; Chain.value := Some (JStr v) |}].
Proof. intros E. unfold check. rewrite E. reflexivity. Qed.

Lemma check_path p test m v e :
  e ∈ check p test m v -> Chain.path e = p.
Proof.
  unfold check. destruct (test v); intros Hin.
  - inversion Hin.
  - apply list_elem_of_singleton in Hin. subst e. reflexivity.
Qed.

Lemma checks_path p test m vs e :
  e ∈ checks p test m vs -> Chain.path e = p.
Proof.
  unfold checks. rewrite list_elem_of_bind. intros (v & He & _).
  exact (check_path _ _ _ _ _ He).
Qed.

(** A string a rule refuses gives an error among those of the rule. *)
Lemma checks_fails p test m vs v :
  v ∈ vs -> test v = false ->
  {| Chain.path := p; Chain.msg := m; Chain.value := Some (JStr v) |}
  ∈ checks p test m vs.
Proof.
  intros Hin E. unfold checks. apply list_elem_of_bind. exists v.
  split; [|exact Hin]. rewrite (check_fails _ _ _ _ E). left.
Qed.

(** Every error names one of the five fields of the rules. *)
Lemma rule_errors_paths b e :
  e ∈ rule_errors b ->
  Chain.path e ∈ ["name"; "email"; "phone"; "message"; "subject"]%string.
Proof.
  unfold rule_errors. rewrite !elem_of_app.
  intros [Hin|[Hin|[Hin|[Hin|[Hin|[Hin|[Hin|Hin]]]]]]];
    apply checks_path in Hin; rewrite Hin; set_solver.
Qed.

Lemma passes_validation_iff req :
  passes_validation req <-> rule_errors (req_body req) = [].
Proof. unfold passes_validation. rewrite rules_run. reflexivity. Qed.

(** The limiter turns a request away with its own response and nothing
    else happens. *)
Lemma handleSubmit_limited req srv :
  ~ admitted req srv ->
  status (handleSubmit req srv).1 = 429%nat
  /\ outbox (handleSubmit req srv).2 = outbox srv
  /\ console (handleSubmit req srv).2 = console srv.
Proof.
  unfold admitted, handleSubmit, contactLimiter, RateLimit.rateLimit.
  destruct (_ <? _)%nat; cbn -[contactOptions]; [intros Hn; exfalso; apply Hn; reflexivity|].
  intros _. repeat split.
Qed.

(** Past the limiter the response is the handler's, on the validated body
    and the errors of the rules. *)
Lemma handleSubmit_admitted req srv :
  admitted req srv ->
  handleSubmit req srv
  = handler (validated (req_body req)) (rule_errors (req_body req))
      (req_now req)
      {| hits := (contactLimiter (hits srv) (req_ip req) (req_time req)).2;
         outbox := outbox srv; console := console srv |}.
Proof.
  unfold admitted, handleSubmit. rewrite rules_run.
  destruct (contactLimiter _ _ _) as [[|r] store]; [|discriminate].
  reflexivity.
Qed.

(** A body the rules object to is answered 400 with those errors, and
    nothing reaches the transport. *)
Lemma handler_invalid b errors now srv :
  errors <> [] ->
  handler b errors now srv = (invalid errors, srv).
Proof. destruct errors; [congruence | reflexivity]. Qed.

(** Whatever the request, at most the one composed mail is handed over. *)
Lemma handleSubmit_outbox req srv :
  outbox (handleSubmit req srv).2 = outbox srv
  \/ (admitted req srv /\ rule_errors (req_body req) = []
      /\ outbox (handleSubmit req srv).2
         = outbox srv ++ [compose (validated (req_body req)) (req_now req)]).
Proof.
  destruct ((contactLimiter (hits srv) (req_ip req) (req_time req)).1)
    as [|r] eqn:Ha.
  - rewrite (handleSubmit_admitted _ _ Ha). unfold handler.
    destruct (rule_errors (req_body req)) as [|e l] eqn:E; [|left; reflexivity].
    right. split; [exact Ha|]. split; [reflexivity|].
    destruct (sendMail _); reflexivity.
  - left. apply handleSubmit_limited. unfold admitted. rewrite Ha. discriminate.
Qed.

End Rules.

(** ** Trimming and the shape of an address *)

Lemma trim_start_suffix (s : jsstring) :
  exists pre, s = pre ++ trim_start s.
Proof.
  induction s as [|c s [pre IH]]; simpl.
  - exists []. reflexivity.
  - destruct (is_space c).
    + exists (c :: pre). simpl. rewrite <- IH. reflexivity.
    + exists []. reflexivity.
Qed.

Lemma trim_end_prefix (s : jsstring) :
  exists post, s = trim_end s ++ post.
Proof.
  unfold trim_end. destruct (trim_start_suffix (List.rev s)) as [pre E].
  exists (List.rev pre).
  rewrite <- rev_app_distr, <- E, rev_involutive. reflexivity.
Qed.

(** A trimmed string sits inside the string it was trimmed from. *)
Lemma trim_infix (s : jsstring) :
  exists pre post, s = pre ++ trim s ++ post.
Proof.
  unfold trim. destruct (trim_start_suffix s) as [pre E].
  destruct (trim_end_prefix (trim_start s)) as [post E'].
  exists pre, post. rewrite <- E'. exact E.
Qed.

Lemma trim_nil : trim [] = [].
Proof. reflexivity. Qed.

Lemma dot_then_some_spec (s : jsstring) :
  dot_then_some s = true <-> exists a t, s = a ++ 46 :: t /\ t <> [].
Proof.
  induction s as [|c s IH]; simpl.
  - split; [discriminate|]. intros (a & t & E & _). destruct a; discriminate.
  - rewrite orb_true_iff, andb_true_iff, N.eqb_eq, negb_true_iff,
      bool_decide_eq_false, IH. split.
    + intros [[-> Hs]|(a & t & -> & Ht)].
      * exists [], s. split; [reflexivity | exact Hs].
      * exists (c :: a), t. split; [reflexivity | exact Ht].
    + intros (a & t & E & Ht). destruct a as [|c' a]; simpl in E.
      * injection E as -> ->. left. split; [reflexivity | exact Ht].
      * injection E as -> ->. right. exists a, t. split; [reflexivity | exact Ht].
Qed.

Lemma domain_tld_spec (s : jsstring) :
  domain_tld s = true <-> exists c a t, s = c :: a ++ 46 :: t /\ t <> [].
Proof.
  destruct s as [|c s]; simpl.
  - split; [discriminate|]. intros (c & a & t & E & _). discriminate.
  - rewrite dot_then_some_spec. split.
    + intros (a & t & -> & Ht). exists c, a, t. split; [reflexivity | exact Ht].
    + intros (c' & a & t & E & Ht). injection E as -> ->.
      exists a, t. split; [reflexivity | exact Ht].
Qed.

Lemma at_then_domain_spec (s : jsstring) :
  at_then_domain s = true <-> exists a d, s = a ++ 64 :: d /\ domain_tld d = true.
Proof.
  induction s as [|c s IH]; simpl.
  - split; [discriminate|]. intros (a & d & E & _). destruct a; discriminate.
  - rewrite orb_true_iff, andb_true_iff, N.eqb_eq, IH. split.
    + intros [[-> Hd]|(a & d & -> & Hd)].
      * exists [], s. split; [reflexivity | exact Hd].
      * exists (c :: a), d. split; [reflexivity | exact Hd].
    + intros (a & d & E & Hd). destruct a as [|c' a]; simpl in E.
      * injection E as -> ->. left. split; [reflexivity | exact Hd].
      * injection E as -> ->. right. exists a, d. split; [reflexivity | exact Hd].
Qed.

(** [local_at_domain_tld] says what its name says: three non-empty parts,
    set apart by an at sign and a dot. *)
Lemma local_at_domain_tld_spec (s : jsstring) :
  local_at_domain_tld s = true <->
  exists l d t, s = l ++ 64 :: d ++ 46 :: t /\ l <> [] /\ d <> [] /\ t <> [].
Proof.
  destruct s as [|c s]; simpl.
  - split; [discriminate|]. intros (l & d & t & E & _). destruct l; discriminate.
  - rewrite at_then_domain_spec. split.
    + intros (a & d & -> & Hd). apply domain_tld_spec in Hd.
      destruct Hd as (c' & a' & t & -> & Ht).
      exists (c :: a), (c' :: a'), t. repeat split; [discriminate.. | exact Ht].
    + intros (l & d & t & E & Hl & Hd & Ht).
      destruct l as [|c' l]; [congruence|]. injection E as -> ->.
      destruct d as [|c'' d]; [congruence|].
      exists l, (c'' :: d ++ 46 :: t). split; [reflexivity|].
      apply domain_tld_spec. exists c'', d, t. split; [reflexivity | exact Ht].
Qed.

(** Whitespace around an address does not give it the shape. *)
Lemma local_at_domain_tld_trim (s : jsstring) :
  local_at_domain_tld (trim s) = true -> local_at_domain_tld s = true.
Proof.
  rewrite !local_at_domain_tld_spec. intros (l & d & t & E & Hl & Hd & Ht).
  destruct (trim_infix s) as (pre & post & Es).
  exists (pre ++ l), d, (t ++ post). repeat split.
  - rewrite Es, E. rewrite <- !app_assoc. simpl. rewrite <- !app_assoc.
    reflexivity.
  - destruct pre; [exact Hl | discriminate].
  - exact Hd.
  - destruct t; [congruence | discriminate].
Qed.

(** ** The reference collaborators keep the laws *)

Lemma skip_plain_at (r d : jsstring) :
  Client.skip_plain r = 64 :: d -> domain_tld d = true ->
  at_then_domain r = true.
Proof.
  induction r as [|c r IH]; simpl; [discriminate|].
  destruct (Client.plain c) eqn:P; intros E Hd.
  - rewrite (IH E Hd). apply orb_true_r.
  - injection E as -> ->. rewrite Hd. reflexivity.
Qed.

Lemma emailRegex_shape (s : jsstring) :
  Client.emailRegex_test s = true -> local_at_domain_tld s = true.
Proof.
  destruct s as [|c r]; simpl; [discriminate|].
  rewrite andb_true_iff. intros [_ Hr].
  destruct (Client.skip_plain r) as [|c' d] eqn:E; [discriminate|].
  destruct (N.eqb_spec c' 64) as [->|Hne].
  - apply andb_true_iff in Hr. destruct Hr as [_ Hd].
    exact (skip_plain_at _ _ E Hd).
  - exfalso. revert Hr. clear -Hne.
    destruct c' as [|p]; [discriminate|].
    do 7 (destruct p as [p|p|]; try discriminate). congruence.
Qed.

Lemma reference_validator_laws : @ValidatorJsLaws Reference.validator.
Proof. constructor. exact emailRegex_shape. Qed.

Lemma lower_lt (c : N) : lower c = 60 -> c = 60.
Proof.
  unfold lower. destruct ((65 <=? c) && (c <=? 90)) eqn:E; [|auto].
  apply andb_true_iff in E. destruct E as [E1 E2].
  apply N.leb_le in E1. lia.
Qed.

Lemma occurs_lt (p s : jsstring) :
  occurs_ci (60 :: p) s = true -> 60 ∈ s.
Proof.
  induction s as [|c s IH]; cbn [occurs_ci is_prefix_ci]; [discriminate|].
  rewrite !orb_true_iff, andb_true_iff, N.eqb_eq. intros [[E _]|Hs].
  - symmetry in E. apply lower_lt in E. subst c. left.
  - right. exact (IH Hs).
Qed.

Lemma escapeHtml_no_lt (s : jsstring) : 60 ∉ Reference.escapeHtml s.
Proof.
  unfold Reference.escapeHtml. induction s as [|c s IH]; simpl.
  - apply not_elem_of_nil.
  - rewrite elem_of_app. intros [Hc|Hs]; [|exact (IH Hs)].
    destruct (N.eqb_spec c 60) as [->|H60].
    + apply list_elem_of_In in Hc. simpl in Hc. intuition discriminate.
    + destruct (N.eqb_spec c 62) as [->|H62].
      * apply list_elem_of_In in Hc. simpl in Hc. intuition discriminate.
      * apply list_elem_of_singleton in Hc. congruence.
Qed.

Lemma reference_xss_laws : @XssLaws Reference.sanitizer.
Proof.
  constructor.
  - reflexivity.
  - intros s. simpl. unfold has_script_tag.
    destruct (occurs_ci _ _) eqn:E; [|reflexivity].
    exfalso. apply (escapeHtml_no_lt s). exact (occurs_lt _ _ E).
Qed.

(** ** Validation failures *)

Section Rejections.
Context `{ExpressValidator} `{ValidatorJs} `{Xss} `{Deployment}.

(** A field that is missing, and a string that is empty once trimmed, are
    missing or blank. *)
Lemma missing_is_blank (b : gmap string json) k :
  b !! k = None -> missing_or_blank b k.
Proof.
  intros E. unfold missing_or_blank, texts. rewrite E. left.
Qed.

Lemma blank_string_is_blank (b : gmap string json) k s :
  b !! k = Some (JStr s) -> trim s = [] -> missing_or_blank b k.
Proof.
  intros E Hs. unfold missing_or_blank, texts. rewrite E.
  cbn [Chain.tested fmap list_fmap Chain.toString]. rewrite Hs. left.
Qed.

(** One error among those of the rules is enough for a 400 that lists it,
    with nothing handed to the transport. *)
Lemma rejected_with req srv e :
  admitted req srv ->
  e ∈ rule_errors (req_body req) ->
  (handleSubmit req srv).1 = invalid (rule_errors (req_body req))
  /\ outbox (handleSubmit req srv).2 = outbox srv.
Proof.
  intros Ha He. rewrite (handleSubmit_admitted _ _ Ha).
  rewrite handler_invalid; [split; reflexivity|].
  intros E. rewrite E in He. inversion He.
Qed.

Lemma isEmail_shapeless `{!ValidatorJsLaws} (s : jsstring) :
  local_at_domain_tld s = false -> isEmail s = false.
Proof.
  intros Hs. destruct (isEmail s) eqn:E; [|reflexivity].
  apply isEmail_shape in E. congruence.
Qed.

End Rejections.

(** C1 (as amended). When the limiter lets a submission through and one
    of the required fields name, email, subject, message is missing, or is
    empty once trimmed, or is an array with an element that is, the route
    answers 400 with a list of errors of which at least one names that
    field, and hands nothing to the transport. *)
Theorem missing_field_rejected `{ExpressValidator} `{ValidatorJs} `{Xss}
    `{Deployment} `{!ValidatorJsLaws} (req : Request) (srv : Server)
    (k : string) :
  admitted req srv ->
  k ∈ required ->
  missing_or_blank (req_body req) k ->
  exists errors e,
    (handleSubmit req srv).1 = invalid errors
    /\ status (handleSubmit req srv).1 = 400%nat
    /\ e ∈ errors /\ Chain.path e = k
    /\ outbox (handleSubmit req srv).2 = outbox srv.
Proof.
  intros Ha Hk Hb. unfold missing_or_blank in Hb.
  assert (exists e, e ∈ rule_errors (req_body req) /\ Chain.path e = k)
    as (e & He & Hp).
  { unfold required in Hk. unfold rule_errors.
    repeat (apply elem_of_cons in Hk as [->|Hk]); [..|inversion Hk].
    - exists {| Chain.path := "name"%string;
                Chain.msg := js "Name is required.";
                Chain.value := Some (JStr []) |}.
      split; [|reflexivity]. apply elem_of_app. left.
      apply (checks_fails "name" _ _ _ [] Hb). reflexivity.
    - exists {| Chain.path := "email"%string;
                Chain.msg := js "A valid email is required.";
                Chain.value := Some (JStr []) |}.
      split; [|reflexivity]. do 2 (apply elem_of_app; right).
      apply elem_of_app. left.
      apply (checks_fails "email" _ _ _ [] Hb).
      apply isEmail_shapeless. reflexivity.
    - exists {| Chain.path := "subject"%string;
                Chain.msg := js "Subject is required.";
                Chain.value := Some (JStr []) |}.
      split; [|reflexivity]. do 6 (apply elem_of_app; right).
      apply elem_of_app. left.
      apply (checks_fails "subject" _ _ _ [] Hb). reflexivity.
    - exists {| Chain.path := "message"%string;
                Chain.msg := js "Message is required.";
                Chain.value := Some (JStr []) |}.
      split; [|reflexivity]. do 4 (apply elem_of_app; right).
      apply elem_of_app. left.
      apply (checks_fails "message" _ _ _ [] Hb). reflexivity. }
  destruct (rejected_with req srv e Ha He) as [Hr Ho].
  exists (rule_errors (req_body req)), e.
  rewrite Hr. repeat split; assumption.
Qed.

Lemma missing_field_rejected_witness :
  let req := Reference.at_minute 0 (delete "name"%string Reference.jane) in
  exists errors e,
    (Reference.submit Reference.delivering req Reference.idle).1
    = invalid errors
    /\ status (Reference.submit Reference.delivering req Reference.idle).1
       = 400%nat
    /\ e ∈ errors /\ Chain.path e = "name"%string
    /\ outbox (Reference.submit Reference.delivering req Reference.idle).2
       = outbox Reference.idle.
Proof.
  apply (@missing_field_rejected Reference.library Reference.validator
           Reference.sanitizer Reference.delivering reference_validator_laws).
  - vm_compute. reflexivity.
  - left.
  - apply missing_is_blank. vm_compute. reflexivity.
Defined.

(** C1 as stated fails, in two ways.  The sixth submission within a
    quarter of an hour is answered by the limiter, 429 and not 400, whether
    or not it carries a name.  And a submission whose name is an array
    without elements is answered 200 and its mail, with an empty name, is
    handed to the transport: the rules test an array element by element,
    and here there is none to test. *)
Lemma nameless_submissions_not_rejected :
  (let req := Reference.at_minute 5 (delete "name"%string Reference.jane) in
   let srv := Reference.busy Reference.delivering in
   req_body req !! "name"%string = None
   /\ status (Reference.submit Reference.delivering req srv).1 = 429%nat
   /\ status (Reference.submit Reference.delivering req srv).1 <> 400%nat)
  /\ (let req := Reference.at_minute 0
                   (<["name"%string := JArr []]> Reference.jane) in
      (Reference.submit Reference.delivering req Reference.idle).1 = sent_ok
      /\ html <$> outbox (Reference.submit Reference.delivering req
                            Reference.idle).2
         = [emailHtml [] (js "jane@example.com") (js "404-555-1234")
              (js "2026-03-01") (js "Hi there")]).
Proof.
  cbv zeta. split.
  - split; [vm_compute; reflexivity|].
    split; vm_compute; [reflexivity | discriminate].
  - split; vm_compute; reflexivity.
Qed.

(** C6 (as amended). When the limiter lets a submission through and its
    email field, once trimmed, has not the form local@domain.tld (or, more
    generally, is not accepted by the validator), be it the field itself or
    an element of the array it holds, the route answers 400 with the error
    of the email rule and hands nothing to the transport. *)
Theorem malformed_email_rejected `{ExpressValidator} `{ValidatorJs} `{Xss}
    `{Deployment} `{!ValidatorJsLaws} (req : Request) (srv : Server)
    (s : jsstring) :
  admitted req srv ->
  s ∈ texts (req_body req) "email" ->
  local_at_domain_tld s = false \/ isEmail s = false ->
  exists errors,
    (handleSubmit req srv).1 = invalid errors
    /\ status (handleSubmit req srv).1 = 400%nat
    /\ {| Chain.path := "email";
          Chain.msg := js "A valid email is required.";
          Chain.value := Some (JStr s) |} ∈ errors
    /\ outbox (handleSubmit req srv).2 = outbox srv.
Proof.
  intros Ha Hs Hbad.
  assert (isEmail s = false) as Hno
    by (destruct Hbad as [Hshape|Hno];
        [apply isEmail_shapeless; exact Hshape | exact Hno]).
  set (e := {| Chain.path := "email"%string;
               Chain.msg := js "A valid email is required.";
               Chain.value := Some (JStr s) |}).
  assert (e ∈ rule_errors (req_body req)) as He.
  { unfold rule_errors. do 2 (apply elem_of_app; right).
    apply elem_of_app. left. exact (checks_fails _ _ _ _ _ Hs Hno). }
  destruct (rejected_with req srv e Ha He) as [Hr Ho].
  exists (rule_errors (req_body req)). rewrite Hr.
  repeat split; assumption.
Qed.

Lemma malformed_email_rejected_witness :
  let req := Reference.at_minute 0
               (<["email"%string := JStr (js " jane.example.com")]>
                  Reference.jane) in
  exists errors,
    (Reference.submit Reference.delivering req Reference.idle).1
    = invalid errors
    /\ status (Reference.submit Reference.delivering req Reference.idle).1
       = 400%nat
    /\ {| Chain.path := "email";
          Chain.msg := js "A valid email is required.";
          Chain.value := Some (JStr (js "jane.example.com")) |} ∈ errors
    /\ outbox (Reference.submit Reference.delivering req Reference.idle).2
       = outbox Reference.idle.
Proof.
  apply (@malformed_email_rejected Reference.library Reference.validator
           Reference.sanitizer Reference.delivering reference_validator_laws
           (Reference.at_minute 0
              (<["email"%string := JStr (js " jane.example.com")]>
                 Reference.jane))).
  - vm_compute. reflexivity.
  - apply list_elem_of_In. vm_compute. left. reflexivity.
  - left. vm_compute. reflexivity.
Defined.

(** C6 as stated fails, in two ways.  The sixth submission within a
    quarter of an hour is answered by the limiter, 429 and not a validation
    error, also when its email field is no address.  And a submission whose
    email is an array without elements is answered 200 and its mail, with
    no address in it, is handed to the transport. *)
Lemma addressless_submissions_not_rejected :
  (let req := Reference.at_minute 5
                (<["email"%string := JStr (js "jane.example.com")]>
                   Reference.jane) in
   let srv := Reference.busy Reference.delivering in
   local_at_domain_tld (js "jane.example.com") = false
   /\ status (Reference.submit Reference.delivering req srv).1 = 429%nat
   /\ status (Reference.submit Reference.delivering req srv).1 <> 400%nat)
  /\ (let req := Reference.at_minute 0
                   (<["email"%string := JArr []]> Reference.jane) in
      (Reference.submit Reference.delivering req Reference.idle).1 = sent_ok
      /\ html <$> outbox (Reference.submit Reference.delivering req
                            Reference.idle).2
         = [emailHtml (js "Jane Doe") [] (js "404-555-1234")
              (js "2026-03-01") (js "Hi there")]).
Proof.
  cbv zeta. split.
  - split; [vm_compute; reflexivity|].
    split; vm_compute; [reflexivity | discriminate].
  - split; vm_compute; reflexivity.
Qed.




(** ** Dispatch *)

Section Dispatch.
Context `{ExpressValidator} `{ValidatorJs} `{Xss} `{Deployment}.

Lemma one_more_not_none (m : Mail) (srv srv' : Server) :
  one_more m srv srv' -> outbox srv' <> outbox srv.
Proof.
  unfold one_more. intros E E'. rewrite E' in E.
  apply (f_equal (@length Mail)) in E. rewrite length_app in E.
  simpl in E. lia.
Qed.

(** A mail leaves only for a request that the limiter let through and
    the rules accepted, and it is the mail composed from the validated
    body. *)
Lemma dispatched_mail req srv mail :
  one_more mail srv (handleSubmit req srv).2 ->
  admitted req srv
  /\ rule_errors (req_body req) = []
  /\ mail = compose (validated (req_body req)) (req_now req).
Proof.
  intros Hm. destruct (handleSubmit_outbox req srv) as [E|(Ha & He & E)].
  - exfalso. exact (one_more_not_none _ _ _ Hm E).
  - split; [exact Ha|]. split; [exact He|].
    unfold one_more in Hm. rewrite E in Hm.
    apply app_inj_tail in Hm. destruct Hm as [_ Hm]. symmetry. exact Hm.
Qed.

(** And every such request does reach the transport. *)
Lemma valid_admitted_dispatches req srv :
  admitted req srv -> passes_validation req ->
  one_more (compose (validated (req_body req)) (req_now req)) srv
    (handleSubmit req srv).2.
Proof.
  intros Ha Hv. apply passes_validation_iff in Hv.
  rewrite (handleSubmit_admitted _ _ Ha), Hv. unfold handler, one_more.
  destruct (sendMail _); reflexivity.
Qed.

Lemma validated_lookup (b : gmap string json) :
  validated b !! "name"%string
  = Some (Chain.rewritten trim (b !! "name"%string))
  /\ validated b !! "email"%string
     = Some (Chain.rewritten normalizeEmail
               (Some (Chain.rewritten trim (b !! "email"%string))))
  /\ validated b !! "phone"%string
     = Some (Chain.rewritten trim (b !! "phone"%string))
  /\ validated b !! "message"%string
     = Some (Chain.rewritten trim (b !! "message"%string))
  /\ validated b !! "subject"%string
     = Some (Chain.rewritten trim (b !! "subject"%string)).
Proof.
  unfold validated.
  repeat split;
    repeat (rewrite lookup_insert_ne; [|done]); apply lookup_insert_eq.
Qed.

Lemma join_strings (g : json -> jsstring) (items : list json) :
  to_js_string (JArr ((fun x => JStr (g x)) <$> items))
  = Some (join_comma (g <$> items)).
Proof.
  cbn [to_js_string].
  assert ((fix each (l : list json) : option (list jsstring) :=
             match l with
             | [] => Some []
             | x :: r =>
                 match match x with
                       | JNull => Some []
                       | _ => to_js_string x
                       end, each r with
                 | Some t, Some ts => Some (t :: ts)
                 | _, _ => None
                 end
             end) ((fun x => JStr (g x)) <$> items)
          = Some (g <$> items)) as ->; [|reflexivity].
  induction items as [|x items IH]; [reflexivity|].
  rewrite !fmap_cons. cbn [to_js_string]. rewrite IH. reflexivity.
Qed.

(** What the handler reads in a field a sanitizer has rewritten: the
    string the sanitizer left, or the strings it left in an array joined
    with commas. *)
Lemma or_empty_rewritten (f : jsstring -> jsstring) (v : option json) :
  or_empty (Some (Chain.rewritten f v))
  = join_comma ((fun x => f (Chain.toString x)) <$> Chain.tested v).
Proof.
  assert (forall s : jsstring, or_empty (Some (JStr s)) = s) as Hstr.
  { intros [|c s]; reflexivity. }
  destruct v as [[| | | |items|]|];
    cbn [Chain.rewritten Chain.tested fmap list_fmap join_comma];
    try apply Hstr.
  unfold or_empty. cbn [truthy mbind option_bind].
  rewrite (join_strings (fun x => f (Chain.toString (Some x)))).
  cbn [default]. rewrite <- list_fmap_compose. reflexivity.
Qed.

(** The five fields as the handler reads them in the validated body. *)
Lemma validated_read (b : gmap string json) :
  or_empty (validated b !! "name"%string) = trimmed b "name"
  /\ or_empty (validated b !! "email"%string) = normalized b "email"
  /\ or_empty (validated b !! "phone"%string) = trimmed b "phone"
  /\ or_empty (validated b !! "message"%string) = trimmed b "message"
  /\ or_empty (validated b !! "subject"%string) = trimmed b "subject".
Proof.
  destruct (validated_lookup b) as (-> & -> & -> & -> & ->).
  rewrite !or_empty_rewritten, tested_rewritten.
  unfold trimmed, normalized, texts. rewrite <- !list_fmap_compose.
  repeat split.
Qed.

End Dispatch.

(** C3. For a request that passes validation, when its mail is handed to
    the transport and delivered the route answers exactly 200 with success
    true and the message Message sent successfully.; when the transport
    fails, it answers exactly 500 with success false and the message
    Failed to send message., the same body whatever the error, whose text
    goes to the console only. *)
Theorem dispatch_outcome `{ExpressValidator} `{ValidatorJs} `{Xss}
    `{Deployment}
    (req : Request) (srv : Server) (mail : Mail) :
  passes_validation req ->
  one_more mail srv (handleSubmit req srv).2 ->
  match sendMail mail with
  | None =>
      (handleSubmit req srv).1
      = {| status := 200;
           payload :=
             JObj [("success"%string, JBool true);
                   ("message"%string,
                    JStr (js "Message sent successfully."))] |}
      /\ console (handleSubmit req srv).2 = console srv
  | Some error =>
      (handleSubmit req srv).1
      = {| status := 500;
           payload :=
             JObj [("success"%string, JBool false);
                   ("message"%string, JStr (js "Failed to send message."))] |}
      /\ console (handleSubmit req srv).2
         = console srv ++ [[js "Email error:"; error]]
  end.
Proof.
  intros _ Hm. destruct (dispatched_mail req srv mail Hm) as (Ha & He & ->).
  rewrite (handleSubmit_admitted _ _ Ha), He. unfold handler.
  destruct (sendMail _); split; reflexivity.
Qed.

Lemma dispatch_outcome_witness :
  let req := Reference.at_minute 0 Reference.jane in
  ((Reference.submit Reference.delivering req Reference.idle).1 = sent_ok
   /\ console (Reference.submit Reference.delivering req Reference.idle).2 = [])
  /\ ((Reference.submit Reference.refusing req Reference.idle).1 = send_failed
      /\ console (Reference.submit Reference.refusing req Reference.idle).2
         = [[js "Email error:";
             js "Invalid login: 535-5.7.8 BadCredentials"]]).
Proof.
  split.
  - apply (@dispatch_outcome Reference.library Reference.validator Reference.sanitizer
             Reference.delivering (Reference.at_minute 0 Reference.jane)
             Reference.idle
             (@compose Reference.sanitizer Reference.delivering
                (@validated Reference.library Reference.validator Reference.jane)
                (js "2026-03-01T10:00:00.000Z"))).
    + vm_compute. reflexivity.
    + vm_compute. reflexivity.
  - apply (@dispatch_outcome Reference.library Reference.validator Reference.sanitizer
             Reference.refusing (Reference.at_minute 0 Reference.jane)
             Reference.idle
             (@compose Reference.sanitizer Reference.refusing
                (@validated Reference.library Reference.validator Reference.jane)
                (js "2026-03-01T10:00:00.000Z"))).
    + vm_compute. reflexivity.
    + vm_compute. reflexivity.
Defined.

(** ** Script elements in the outbound mail *)

Lemma mismatch_ci_app (p s r : jsstring) :
  mismatch_ci p s = true -> is_prefix_ci p (s ++ r) = false.
Proof.
  revert s. induction p as [|a p IH]; intros [|b s]; simpl; try discriminate.
  destruct (lower a =? lower b); simpl; [apply IH | reflexivity].
Qed.

(** A literal in which no occurrence can start is skipped by the search. *)
Lemma never_starts_ci_app (p l r : jsstring) :
  never_starts_ci p l = true -> occurs_ci p (l ++ r) = occurs_ci p r.
Proof.
  induction l as [|c l IH]; [reflexivity|].
  cbn [never_starts_ci]. rewrite andb_true_iff. intros [Hm Hl].
  change ((c :: l) ++ r) with (c :: (l ++ r)). cbn [occurs_ci].
  change (c :: (l ++ r)) with ((c :: l) ++ r).
  rewrite (mismatch_ci_app _ _ _ Hm), (IH Hl). reflexivity.
Qed.

Lemma has_script_tag_literal (l r : jsstring) :
  never_starts_ci (js "<script") l = true ->
  has_script_tag (l ++ r) = has_script_tag r.
Proof. apply never_starts_ci_app. Qed.

Lemma script_prefix_app_lt (y r : jsstring) :
  y <> [] ->
  is_prefix_ci (js "<script") (y ++ 60 :: r) = is_prefix_ci (js "<script") y.
Proof.
  intros Hy. destruct y as [|y0 y]; [congruence|]. clear Hy.
  cbn [js N_of_ascii is_prefix_ci app].
  do 6 (destruct y as [|? y];
        [cbn; rewrite ?andb_false_r; reflexivity|]).
  cbn [js N_of_ascii is_prefix_ci app]. reflexivity.
Qed.

(** A text without a script element, followed by an opening bracket: a
    script element can only start at that bracket or after it. *)
Lemma has_script_tag_app_lt (x r : jsstring) :
  has_script_tag x = false ->
  has_script_tag (x ++ 60 :: r) = has_script_tag (60 :: r).
Proof.
  unfold has_script_tag. induction x as [|a x IH]; [reflexivity|].
  intros Hx. cbn [occurs_ci] in Hx. apply orb_false_iff in Hx.
  destruct Hx as [Hp Hx].
  change ((a :: x) ++ 60 :: r) with (a :: (x ++ 60 :: r)).
  cbn [occurs_ci].
  change (a :: (x ++ 60 :: r)) with ((a :: x) ++ 60 :: r).
  rewrite script_prefix_app_lt by discriminate.
  rewrite Hp, (IH Hx). reflexivity.
Qed.

Lemma no_lt_no_script (x : jsstring) : 60 ∉ x -> has_script_tag x = false.
Proof.
  intros Hx. unfold has_script_tag.
  destruct (occurs_ci _ _) eqn:E; [|reflexivity].
  exfalso. apply Hx. exact (occurs_lt _ _ E).
Qed.

(** The same, the bracket being the first character of a literal. *)
Lemma has_script_tag_then (x l r : jsstring) :
  has_script_tag x = false ->
  head l = Some 60 ->
  has_script_tag (x ++ l ++ r) = has_script_tag (l ++ r).
Proof.
  intros Hx Hl. destruct l as [|c l]; [discriminate|].
  injection Hl as ->. apply (has_script_tag_app_lt x (l ++ r) Hx).
Qed.

(** The template adds no script element to the values it is filled with. *)
Lemma emailHtml_no_script (name email phone date message : jsstring) :
  has_script_tag name = false ->
  has_script_tag email = false ->
  has_script_tag phone = false ->
  has_script_tag date = false ->
  has_script_tag message = false ->
  has_script_tag (emailHtml name email phone date message) = false.
Proof.
  intros Hn He Hp Hd Hm. unfold emailHtml.
  rewrite 2 has_script_tag_literal by reflexivity.
  rewrite (has_script_tag_then name _ _ Hn) by reflexivity.
  rewrite 3 has_script_tag_literal by reflexivity.
  rewrite (has_script_tag_then email _ _ He) by reflexivity.
  rewrite 3 has_script_tag_literal by reflexivity.
  rewrite (has_script_tag_then phone _ _ Hp) by reflexivity.
  rewrite 3 has_script_tag_literal by reflexivity.
  rewrite (has_script_tag_then date _ _ Hd) by reflexivity.
  rewrite 5 has_script_tag_literal by reflexivity.
  rewrite (has_script_tag_then message _ _ Hm) by reflexivity.
  rewrite 2 has_script_tag_literal by reflexivity.
  reflexivity.
Qed.

Lemma formatPhone_chars (phone : jsstring) :
  Forall (fun c => c <> 60) (formatPhone phone).
Proof.
  unfold formatPhone. destruct (_ =? _)%nat.
  - assert (Forall (fun c => c <> 60) (strip_non_digits phone)) as Hd.
    { eapply Forall_impl; [apply strip_non_digits_digits|].
      intros c Hc ->. discriminate. }
    unfold slice, slice_from.
    repeat apply Forall_app_2;
      try apply Forall_take; try apply Forall_drop; try exact Hd;
      repeat constructor; discriminate.
  - repeat constructor; discriminate.
Qed.

Lemma formatPhone_no_script (phone : jsstring) :
  has_script_tag (formatPhone phone) = false.
Proof.
  apply no_lt_no_script. intros Hin.
  exact (proj1 (Forall_forall _ _) (formatPhone_chars phone) _ Hin eq_refl).
Qed.

Lemma iso_date_no_script (now : jsstring) :
  iso_timestamp now -> has_script_tag (slice 0 10 now) = false.
Proof.
  unfold iso_timestamp. intros Hnow. apply no_lt_no_script. intros Hin.
  unfold slice in Hin. apply elem_of_take in Hin.
  destruct Hin as (i & Hi & _). rewrite drop_0 in Hi.
  apply list_elem_of_lookup_2 in Hi. apply list_elem_of_In in Hi.
  rewrite forallb_forall in Hnow. apply Hnow in Hi. discriminate.
Qed.

(** C5. Whatever the payload, with script elements in its message or
    without: the mail handed to the transport is built from the values of
    the fields passed through the sanitizer and from nothing else of the
    request, and neither the sanitized message nor the HTML it is embedded
    in opens a script element. *)
Theorem mail_carries_no_script `{ExpressValidator} `{ValidatorJs} `{Xss}
    `{Deployment}
    `{!XssLaws} (req : Request) (srv : Server) (mail : Mail) :
  one_more mail srv (handleSubmit req srv).2 ->
  iso_timestamp (req_now req) ->
  subject mail = xss (trimmed (req_body req) "subject")
  /\ html mail
     = emailHtml (xss (trimmed (req_body req) "name"))
         (xss (normalized (req_body req) "email"))
         (formatPhone (xss (trimmed (req_body req) "phone")))
         (slice 0 10 (req_now req))
         (xss (trimmed (req_body req) "message"))
  /\ has_script_tag (xss (trimmed (req_body req) "message")) = false
  /\ has_script_tag (html mail) = false.
Proof.
  intros Hm Hnow. destruct (dispatched_mail req srv mail Hm) as (_ & _ & ->).
  destruct (validated_read (req_body req)) as (En & Ee & Ep & Em & Es).
  unfold compose, formattedPhone. cbn [subject html].
  rewrite En, Ee, Ep, Em, Es.
  repeat split.
  - apply xss_no_script.
  - apply emailHtml_no_script;
      auto using xss_no_script, formatPhone_no_script, iso_date_no_script.
Qed.

Lemma mail_carries_no_script_witness :
  let req := Reference.at_minute 0
               (<["message"%string :=
                    JStr (js "Hi <script>alert(1)</script>")]>
                  Reference.jane) in
  let mail := @compose Reference.sanitizer Reference.delivering
                (@validated Reference.library Reference.validator (req_body req)) (req_now req) in
  subject mail = js "Hello"
  /\ html mail
     = emailHtml (js "Jane Doe") (js "jane@example.com") (js "404-555-1234")
         (js "2026-03-01") (js "Hi &lt;script&gt;alert(1)&lt;/script&gt;")
  /\ has_script_tag (js "Hi &lt;script&gt;alert(1)&lt;/script&gt;") = false
  /\ has_script_tag (html mail) = false.
Proof.
  intros req mail.
  assert (one_more mail Reference.idle
            (Reference.submit Reference.delivering req Reference.idle).2)
    as Hsent by (vm_compute; reflexivity).
  assert (iso_timestamp (req_now req)) as Hnow by (vm_compute; reflexivity).
  pose proof (@mail_carries_no_script Reference.library Reference.validator Reference.sanitizer
                Reference.delivering reference_xss_laws req Reference.idle
                mail Hsent Hnow) as W.
  vm_compute in W. vm_compute. exact W.
Defined.

(** ** The limiter *)

(** The recorded times of an address. *)
Lemma recent_all (now : Z) (times : list Z) :
  Forall (fun t => (now - 900000 < t)%Z) times ->
  RateLimit.recent contactOptions now times = times.
Proof.
  unfold RateLimit.recent. cbn [RateLimit.windowMs contactOptions].
  change (15 * 60 * 1000)%Z with 900000%Z.
  induction 1 as [|t times Ht _ IH]; [reflexivity|].
  cbn [List.filter]. rewrite IH.
  destruct (Z.ltb_spec (now - 900000) t); [reflexivity | lia].
Qed.

(** What has left the window stays out of it. *)
Lemma recent_later (t1 t : Z) (old : list Z) :
  (t1 <= t)%Z ->
  RateLimit.recent contactOptions t1 old = [] ->
  RateLimit.recent contactOptions t old = [].
Proof.
  unfold RateLimit.recent. cbn [RateLimit.windowMs contactOptions].
  change (15 * 60 * 1000)%Z with 900000%Z. intros Hle.
  induction old as [|x old IH]; [reflexivity|]. cbn [List.filter].
  destruct (Z.ltb_spec (t1 - 900000) x); [discriminate|]. intros Hold.
  destruct (Z.ltb_spec (t - 900000) x); [lia | exact (IH Hold)].
Qed.

Lemma recent_window (t1 t : Z) (new old : list Z) :
  Forall (fun x => (t - 900000 < x)%Z) new ->
  (t1 <= t)%Z ->
  RateLimit.recent contactOptions t1 old = [] ->
  RateLimit.recent contactOptions t (new ++ old) = new.
Proof.
  intros Hnew Hle Hold. unfold RateLimit.recent. rewrite List.filter_app.
  fold (RateLimit.recent contactOptions t new).
  fold (RateLimit.recent contactOptions t old).
  rewrite (recent_all _ _ Hnew), (recent_later _ _ _ Hle Hold).
  apply app_nil_r.
Qed.



Section Window.
Context `{ExpressValidator} `{ValidatorJs} `{Xss} `{Deployment}.





End Window.

(** *** The cap

    Whatever arrives, and in whatever order: no window of fifteen minutes
    ever holds more than five accepted requests of one address. *)



Section Cap.
Context `{ExpressValidator} `{ValidatorJs} `{Xss} `{Deployment}.




End Cap.


Section Six.
Context `{ExpressValidator} `{ValidatorJs} `{Xss} `{Deployment}.


End Six.




(** The window slides: a quarter of an hour after the first of five
    accepted submissions one more is accepted, a minute earlier it is not. *)
Example window_slides :
  status (Reference.submit Reference.delivering
            (Reference.at_minute 14 Reference.jane)
            (Reference.busy Reference.delivering)).1 = 429%nat
  /\ status (Reference.submit Reference.delivering
               (Reference.at_minute 15 Reference.jane)
               (Reference.busy Reference.delivering)).1 = 200%nat.
Proof. split; vm_compute; reflexivity. Qed.

(** ** The client flow *)

Section ClientFlow.
Context `{Engine}.

Lemma preConfirm_submits (f : Client.Fields) (net : Client.Fetched) :
  submits f ->
  Client.preConfirm f net
  = match Client.settle net with
    | inl data => ([Client.Post (posted f)], Some data)
    | inr e => ([Client.Post (posted f);
                 Client.ShowValidationMessage (Client.shown e)], None)
    end.
Proof.
  intros (Hn & He & Hs & Hm & Hre). unfold Client.preConfirm.
  rewrite !bool_decide_eq_false_2 by assumption. rewrite Hre. reflexivity.
Qed.

(** Whatever is posted is the body built from the four inputs. *)
Lemma preConfirm_posts (f : Client.Fields) (net : Client.Fetched) b :
  Client.Post b ∈ (Client.preConfirm f net).1 -> b = posted f.
Proof.
  unfold Client.preConfirm.
  destruct (_ || _).
  { cbn. intros Hin. apply list_elem_of_singleton in Hin. discriminate. }
  destruct (negb _).
  { cbn. intros Hin. apply list_elem_of_singleton in Hin. discriminate. }
  unfold posted.
  destruct (Client.settle net); cbn [fst]; rewrite ?elem_of_cons, elem_of_nil;
    intros Hin; decompose [or] Hin; try discriminate; try contradiction;
    congruence.
Qed.

Lemma dialog_posts presses b :
  Client.Post b ∈ (Client.dialog presses).1 -> exists f, b = posted f.
Proof.
  induction presses as [|[f net] rest IH]; cbn [Client.dialog].
  - cbn. intros Hin. inversion Hin.
  - destruct (Client.preConfirm f net) as [events [data|]] eqn:E.
    + cbn. intros Hin. exists f. apply (preConfirm_posts f net).
      rewrite E. exact Hin.
    + destruct (Client.dialog rest) as [later result]. cbn in IH |- *.
      rewrite elem_of_app. intros [Hin|Hin]; [|exact (IH Hin)].
      exists f. apply (preConfirm_posts f net). rewrite E. exact Hin.
Qed.

Lemma openContactForm_posts storage presses b :
  Client.Post b ∈ (Client.openContactForm storage presses).2 ->
  exists f, b = posted f.
Proof.
  unfold Client.openContactForm. destruct (Client.flag_set _ _).
  { cbn. intros Hin. apply list_elem_of_singleton in Hin. discriminate. }
  pose proof (dialog_posts presses b) as Hd.
  destruct (Client.dialog presses) as [events [data|]]; cbn in Hd |- *.
  - rewrite elem_of_cons, elem_of_app, list_elem_of_singleton.
    intros [?|[Hin|?]]; try discriminate. exact (Hd Hin).
  - rewrite elem_of_cons. intros [?|Hin]; [discriminate | exact (Hd Hin)].
Qed.

(** A confirmed submission leaves the flag set. *)
Lemma success_sets_flag storage presses :
  Client.Fire Client.messageSent ∈ (Client.openContactForm storage presses).2 ->
  Client.flag_set (Client.openContactForm storage presses).1 "contactSent"
  = true.
Proof.
  unfold Client.openContactForm.
  destruct (Client.flag_set storage "contactSent") eqn:E; [intros _; exact E|].
  destruct (Client.dialog presses) as [events [data|]] eqn:Ed; cbn.
  - intros _. unfold Client.flag_set. rewrite lookup_insert_eq. reflexivity.
  - rewrite elem_of_cons. intros [?|Hin]; [discriminate|]. exfalso.
    clear E. revert events Ed Hin.
    induction presses as [|[f net] rest IH]; cbn [Client.dialog]; intros events.
    + intros [= <-] Hin. inversion Hin.
    + destruct (Client.preConfirm f net) as [ev [d|]] eqn:Ep; [discriminate|].
      destruct (Client.dialog rest) as [later result].
      intros [= <- ->]. rewrite elem_of_app. intros [Hin|Hin].
      * revert Ep Hin. unfold Client.preConfirm.
        destruct (_ || _).
        { intros [= <-] Hin. apply list_elem_of_singleton in Hin. discriminate. }
        destruct (negb _).
        { intros [= <-] Hin. apply list_elem_of_singleton in Hin. discriminate. }
        destruct (Client.settle net); intros [= <-] Hin.
        apply elem_of_cons in Hin as [?|Hin]; [discriminate|].
        apply list_elem_of_singleton in Hin. discriminate.
      * exact (IH later eq_refl Hin).
Qed.

End ClientFlow.

(** C7. Once the flag contactSent is set in the session, as it is after
    one confirmed success, the flow shows the Already Sent notice and does
    nothing else: the form is not opened and nothing is posted. *)
Theorem already_sent_short_circuits `{Engine}
    (storage : gmap string jsstring)
    (presses : list (Client.Fields * Client.Fetched)) :
  Client.flag_set storage "contactSent" = true ->
  Client.openContactForm storage presses
  = (storage, [Client.Fire Client.alreadySent])
  /\ (Client.OpenForm ∉ (Client.openContactForm storage presses).2)
  /\ (forall b, Client.Post b ∉ (Client.openContactForm storage presses).2).
Proof.
  intros Hset. unfold Client.openContactForm. rewrite Hset. cbn.
  split; [reflexivity|].
  split; [|intros b]; intros Hin; apply list_elem_of_singleton in Hin;
    discriminate.
Qed.

Lemma already_sent_short_circuits_witness :
  let first :=
    Reference.contact ∅
      [(Reference.typed,
        Client.FetchResolves 200 (Client.JsonResolves (payload sent_ok)))] in
  let again :=
    Reference.contact first.1
      [(Reference.typed,
        Client.FetchResolves 200 (Client.JsonResolves (payload sent_ok)))] in
  again = (first.1, [Client.Fire Client.alreadySent])
  /\ (Client.OpenForm ∉ again.2)
  /\ (forall b, Client.Post b ∉ again.2).
Proof.
  apply (@already_sent_short_circuits Reference.v8
           (Reference.contact ∅
              [(Reference.typed,
                Client.FetchResolves 200
                  (Client.JsonResolves (payload sent_ok)))]).1).
  vm_compute. reflexivity.
Defined.

(** The text shown for an error message that is neither empty nor the
    browser's Failed to fetch is that message. *)
Lemma shown_verbatim (m : jsstring) :
  m <> [] -> m <> Client.failedToFetch -> Client.shown m = m.
Proof.
  intros Hne Hnf. unfold Client.shown.
  rewrite !bool_decide_eq_false_2 by assumption. reflexivity.
Qed.

Lemma shown_connection (m : jsstring) :
  Client.shown m = Client.checkConnection ->
  m = Client.failedToFetch \/ m = Client.checkConnection.
Proof.
  unfold Client.shown.
  destruct (bool_decide_reflect (m = Client.failedToFetch)); [auto|].
  destruct (bool_decide_reflect (m = [])); [discriminate | auto].
Qed.

Lemma typed_submits : submits Reference.typed.
Proof. repeat split; (vm_compute; congruence). Qed.

(** C8 (where the code departs from it). The catch block tells a fetch
    that could not complete from a failure the server reports by the text
    of the error alone, and knows one text, Failed to fetch.  So a fetch
    that fails with another text, Load failed, is shown with that text and
    not as the network error; a failure the server reports with the message
    Failed to fetch is shown as the network error and not with its message;
    a status that is not 2xx whose body is no JSON is shown with the text
    of the parser and not with Failed to send message.; and so is a body
    that is null, with the text of the engine. *)
Theorem failures_told_apart_by_text :
  let sent := Client.Post (posted Reference.typed) in
  Reference.press Reference.typed (Client.FetchRejects (js "Load failed"))
  = ([sent; Client.ShowValidationMessage (js "Load failed")], None)
  /\ Reference.press Reference.typed
       (Client.FetchResolves 500
          (Client.JsonResolves
             (JObj [("success"%string, JBool false);
                    ("message"%string, JStr (js "Failed to fetch"))])))
     = ([sent;
         Client.ShowValidationMessage
           (js "Network error. Please check your connection.")], None)
  /\ Reference.press Reference.typed
       (Client.FetchResolves 500
          (Client.JsonResolves
             (JObj [("success"%string, JBool false);
                    ("message"%string, JStr (js "Failed to fetch"))])))
     = Reference.press Reference.typed
         (Client.FetchRejects (js "Failed to fetch"))
  /\ Reference.press Reference.typed
       (Client.FetchResolves 502
          (Client.JsonRejects (js "Unexpected end of JSON input")))
     = ([sent;
         Client.ShowValidationMessage (js "Unexpected end of JSON input")],
        None)
  /\ Reference.press Reference.typed
       (Client.FetchResolves 500 (Client.JsonResolves JNull))
     = ([sent;
         Client.ShowValidationMessage
           (js "Cannot read properties of null (reading 'message')")], None).
Proof.
  cbv zeta. unfold Reference.press.
  rewrite !(preConfirm_submits _ _ typed_submits).
  repeat split.
Qed.

(** ** What the client sends and what the server makes of it *)

Lemma posted_keys (f : Client.Fields) :
  dom (posted f) = ({["name"; "email"; "subject"; "message"]}%string
                    : gset string)
  /\ posted f !! "phone"%string = None.
Proof.
  unfold posted, Client.postBody. split.
  - rewrite !dom_insert_L, dom_singleton_L. set_solver.
  - repeat (rewrite lookup_insert_ne; [|done]).
    apply lookup_singleton_ne. done.
Qed.

Lemma posted_lookup (f : Client.Fields) :
  posted f !! "name"%string = Some (JStr (trim (Client.in_name f)))
  /\ posted f !! "email"%string = Some (JStr (trim (Client.in_email f)))
  /\ posted f !! "subject"%string = Some (JStr (trim (Client.in_subject f)))
  /\ posted f !! "message"%string = Some (JStr (trim (Client.in_message f))).
Proof.
  unfold posted, Client.postBody. split; [|split; [|split]].
  - apply lookup_insert_eq.
  - rewrite lookup_insert_ne by done. apply lookup_insert_eq.
  - do 2 rewrite lookup_insert_ne by done. apply lookup_insert_eq.
  - do 3 rewrite lookup_insert_ne by done. apply lookup_singleton_eq.
Qed.

(** The one string of a field that holds a string, or is missing. *)
Lemma string_text `{ExpressValidator} (b : gmap string json) k s :
  b !! k = Some (JStr s) -> texts b k = [trim s].
Proof. intros E. unfold texts. rewrite E. reflexivity. Qed.

Lemma missing_text `{ExpressValidator} (b : gmap string json) k :
  b !! k = None -> texts b k = [[]].
Proof. intros E. unfold texts. rewrite E. reflexivity. Qed.

(** C9. Every body the client posts has exactly the keys name, email,
    subject and message, and no phone; on such a body the server's derived
    phone line is None Provided, and so it stands in any mail sent for
    it. *)
Theorem client_sends_no_phone `{Engine} `{ExpressValidator} `{ValidatorJs}
    `{Xss} `{Deployment} `{!XssLaws} (storage : gmap string jsstring)
    (presses : list (Client.Fields * Client.Fetched))
    (b : gmap string json) :
  Client.Post b ∈ (Client.openContactForm storage presses).2 ->
  dom b = ({["name"; "email"; "subject"; "message"]}%string : gset string)
  /\ b !! "phone"%string = None
  /\ formattedPhone (validated b) = js "None Provided"
  /\ forall req srv mail,
       req_body req = b ->
       one_more mail srv (handleSubmit req srv).2 ->
       html mail
       = emailHtml (xss (trimmed b "name"))
           (xss (normalizeEmail (trimmed b "email")))
           (js "None Provided")
           (slice 0 10 (req_now req))
           (xss (trimmed b "message")).
Proof.
  intros Hin. destruct (openContactForm_posts _ _ _ Hin) as [f ->].
  destruct (posted_keys f) as [Hdom Hphone].
  destruct (validated_read (posted f)) as (Rn & Re & Rp & Rm & _).
  assert (formattedPhone (validated (posted f)) = js "None Provided") as Hfmt.
  { unfold formattedPhone. rewrite Rp. unfold trimmed.
    rewrite (missing_text _ _ Hphone). cbn [join_comma].
    rewrite xss_empty. reflexivity. }
  split; [exact Hdom|]. split; [exact Hphone|]. split; [exact Hfmt|].
  intros req srv mail Hb Hm.
  destruct (dispatched_mail req srv mail Hm) as (_ & _ & ->).
  rewrite Hb. unfold compose. cbn [html]. rewrite Hfmt, Rn, Re, Rm.
  destruct (posted_lookup f) as (_ & Le & _).
  unfold normalized, trimmed at 2. rewrite (string_text _ _ _ Le).
  reflexivity.
Qed.

Lemma client_sends_no_phone_witness :
  let b := posted Reference.typed in
  dom b = ({["name"; "email"; "subject"; "message"]}%string : gset string)
  /\ b !! "phone"%string = None
  /\ @formattedPhone Reference.sanitizer
       (@validated Reference.library Reference.validator b)
     = js "None Provided"
  /\ forall req srv mail,
       req_body req = b ->
       one_more mail srv
         (@handleSubmit Reference.library Reference.validator
            Reference.sanitizer Reference.delivering req srv).2 ->
       html mail
       = emailHtml (@xss Reference.sanitizer
                      (@trimmed Reference.library b "name"))
           (@xss Reference.sanitizer
              (@normalizeEmail Reference.validator
                 (@trimmed Reference.library b "email")))
           (js "None Provided")
           (slice 0 10 (req_now req))
           (@xss Reference.sanitizer
              (@trimmed Reference.library b "message")).
Proof.
  apply (@client_sends_no_phone Reference.v8 Reference.library
           Reference.validator Reference.sanitizer
           Reference.delivering reference_xss_laws ∅
           [(Reference.typed,
             Client.FetchResolves 200 (Client.JsonResolves (payload sent_ok)))]).
  unfold Client.openContactForm, Client.flag_set.
  rewrite lookup_empty. cbn [Client.dialog].
  rewrite (preConfirm_submits _ _ typed_submits).
  cbn [Client.settle Client.ok]. cbn [snd app].
  apply list_elem_of_further, list_elem_of_here.
Defined.

(** * Further properties of the route *)

(** ** [formatPhone] and the digits *)

Lemma strip_non_digits_fixed (s : jsstring) :
  Forall (fun c => is_digit c = true) s -> strip_non_digits s = s.
Proof.
  unfold strip_non_digits, is_non_digit.
  induction 1 as [|c s Hc _ IH]; [reflexivity|].
  cbn [List.filter]. rewrite Hc. cbn [negb]. rewrite IH. reflexivity.
Qed.

Lemma strip_non_digits_app (a b : jsstring) :
  strip_non_digits (a ++ b) = strip_non_digits a ++ strip_non_digits b.
Proof. apply List.filter_app. Qed.

(** The digits of a formatted number are the ten digits it was made of; the
    placeholder has none. *)
Theorem formatPhone_digits (phone : jsstring) :
  strip_non_digits (formatPhone phone)
  = if (length (strip_non_digits phone) =? 10)%nat
    then strip_non_digits phone else [].
Proof.
  unfold formatPhone.
  destruct (length (strip_non_digits phone) =? 10)%nat; [|reflexivity].
  pose proof (strip_non_digits_digits phone) as Hd.
  set (d := strip_non_digits phone) in *.
  unfold slice, slice_from. rewrite !strip_non_digits_app.
  rewrite (strip_non_digits_fixed (take (3 - 0) (drop 0 d))),
    (strip_non_digits_fixed (take (6 - 3) (drop 3 d))),
    (strip_non_digits_fixed (drop 6 d))
    by (try apply Forall_take; try apply Forall_drop; exact Hd).
  change (strip_non_digits dash) with (@nil N). cbn [app].
  change (3 - 0)%nat with 3%nat. change (6 - 3)%nat with 3%nat.
  rewrite drop_0.
  rewrite <- (take_drop 3 d) at 4.
  rewrite <- (take_drop 3 (drop 3 d)) at 2.
  rewrite drop_drop. reflexivity.
Qed.

(** Formatting twice is formatting once. *)
Theorem formatPhone_idempotent (phone : jsstring) :
  formatPhone (formatPhone phone) = formatPhone phone.
Proof.
  unfold formatPhone at 1. rewrite formatPhone_digits.
  destruct (length (strip_non_digits phone) =? 10)%nat eqn:E.
  - rewrite E. unfold formatPhone. rewrite E. reflexivity.
  - cbn. unfold formatPhone. rewrite E. reflexivity.
Qed.


(** ** The rules, field by field *)

Section RuleFacts.
Context `{ExpressValidator} `{ValidatorJs} `{Xss} `{Deployment}.

Lemma check_nil p test m v : check p test m v = [] <-> test v = true.
Proof.
  unfold check. destruct (test v); split; intros E;
    try reflexivity; discriminate.
Qed.

Lemma checks_nil p test m vs :
  checks p test m vs = [] <-> Forall (fun v => test v = true) vs.
Proof.
  unfold checks. induction vs as [|v vs IH].
  - split; [constructor | reflexivity].
  - rewrite bind_cons. split.
    + intros E. apply app_eq_nil in E as [E1 E2]. constructor.
      * apply (check_nil p test m). exact E1.
      * apply IH. exact E2.
    + intros Hall. apply Forall_cons_1 in Hall as [Hv Hvs].
      rewrite (proj2 (check_nil p test m v) Hv), (proj2 IH Hvs). reflexivity.
Qed.

Lemma checks_length p test m vs :
  (length (checks p test m vs) <= length vs)%nat.
Proof.
  unfold checks. induction vs as [|v vs IH]; [reflexivity|].
  rewrite bind_cons, length_app. unfold check at 1.
  destruct (test v); simpl; lia.
Qed.

(** No more errors than tests. *)
Lemma rule_errors_length (b : gmap string json) :
  (length (rule_errors b) <= tests b)%nat.
Proof.
  unfold rule_errors, tests. rewrite !length_app.
  repeat match goal with
         | |- context [length (checks ?p ?t ?m ?v)] =>
             pose proof (checks_length p t m v);
             generalize dependent (length (checks p t m v)); intros
         end.
  lia.
Qed.

(** A field that holds no array is tested as one string. *)
Lemma texts_one (b : gmap string json) k :
  (forall items, b !! k <> Some (JArr items)) -> length (texts b k) = 1%nat.
Proof.
  intros Hk. unfold texts. destruct (b !! k) as [[| | | |items|]|];
    try reflexivity. destruct (Hk items eq_refl).
Qed.

(** The four ways a request can end, with what each leaves behind. *)
Lemma handleSubmit_cases req srv :
  (~ admitted req srv
   /\ handleSubmit req srv
      = ({| status := 429; payload := RateLimit.message contactOptions |}, srv))
  \/ (admitted req srv /\ rule_errors (req_body req) <> []
      /\ (handleSubmit req srv).1 = invalid (rule_errors (req_body req))
      /\ outbox (handleSubmit req srv).2 = outbox srv
      /\ console (handleSubmit req srv).2 = console srv)
  \/ (admitted req srv /\ rule_errors (req_body req) = []
      /\ sendMail (compose (validated (req_body req)) (req_now req)) = None
      /\ (handleSubmit req srv).1 = sent_ok
      /\ outbox (handleSubmit req srv).2
         = outbox srv ++ [compose (validated (req_body req)) (req_now req)]
      /\ console (handleSubmit req srv).2 = console srv)
  \/ (admitted req srv /\ rule_errors (req_body req) = []
      /\ exists e,
          sendMail (compose (validated (req_body req)) (req_now req)) = Some e
          /\ (handleSubmit req srv).1 = send_failed
          /\ outbox (handleSubmit req srv).2
             = outbox srv ++ [compose (validated (req_body req)) (req_now req)]
          /\ console (handleSubmit req srv).2
             = console srv ++ [[js "Email error:"; e]]).
Proof.
  destruct ((contactLimiter (hits srv) (req_ip req) (req_time req)).1)
    as [|r] eqn:Ha.
  - right. rewrite (handleSubmit_admitted _ _ Ha). unfold handler.
    destruct (rule_errors (req_body req)) as [|e l] eqn:E.
    + right. destruct (sendMail _) as [err|] eqn:Es.
      * right. split; [exact Ha|]. split; [reflexivity|]. exists err.
        repeat split.
      * left. repeat split. exact Ha.
    + left. repeat split; [exact Ha | discriminate].
  - left. assert (~ admitted req srv) as Hn
      by (unfold admitted; rewrite Ha; discriminate).
    split; [exact Hn|]. revert Ha. unfold handleSubmit, admitted.
    unfold contactLimiter, RateLimit.rateLimit.
    destruct (_ <? _)%nat; cbn [fst]; [discriminate|]. intros _.
    destruct srv; reflexivity.
Qed.

End RuleFacts.

(** A body passes the rules exactly when every string of name, message
    and subject is non-empty once trimmed and within 100, 5000 and 200
    characters, every string of email is accepted by [isEmail] once
    trimmed, and every string of phone is within 30 characters once
    trimmed.  A field has one string, which is empty when the field is
    absent, or, when it holds an array, one for every element: an array
    without elements passes whatever the rule. *)
Theorem passes_validation_fields `{ExpressValidator} `{ValidatorJs} `{Xss}
    `{Deployment} (req : Request) :
  passes_validation req <->
  Forall (fun s => s <> [] /\ (charCount s <= 100)%nat)
    (texts (req_body req) "name")
  /\ Forall (fun s => isEmail s = true) (texts (req_body req) "email")
  /\ Forall (fun s => (charCount s <= 30)%nat) (texts (req_body req) "phone")
  /\ Forall (fun s => s <> [] /\ (charCount s <= 5000)%nat)
       (texts (req_body req) "message")
  /\ Forall (fun s => s <> [] /\ (charCount s <= 200)%nat)
       (texts (req_body req) "subject").
Proof.
  assert (forall s : jsstring, negb (length s =? 0)%nat = true <-> s <> [])
    as Hlen by (intros [|c s]; simpl; split; congruence).
  assert (forall (n : nat) (vs : list jsstring),
             Forall (fun s => s <> [] /\ (charCount s <= n)%nat) vs <->
             Forall (fun v => negb (length v =? 0)%nat = true) vs
             /\ Forall (fun v => (charCount v <=? n)%nat = true) vs) as Hboth.
  { intros n vs. rewrite <- Forall_and. apply Forall_iff. intros s.
    rewrite Hlen, Nat.leb_le. reflexivity. }
  assert (forall (n : nat) (vs : list jsstring),
             Forall (fun s => (charCount s <= n)%nat) vs <->
             Forall (fun v => (charCount v <=? n)%nat = true) vs) as Hone.
  { intros n vs. apply Forall_iff. intros s. rewrite Nat.leb_le.
    reflexivity. }
  rewrite passes_validation_iff. unfold rule_errors.
  rewrite !Hboth, Hone, <- !checks_nil. split.
  - intros E. do 7 (apply app_eq_nil in E as [? E]).
    repeat split; eassumption.
  - intros ((N1 & N2) & E1 & P1 & (M1 & M2) & S1 & S2).
    rewrite N1, N2, E1, P1, M1, M2, S1, S2. reflexivity.
Qed.

Lemma passes_validation_fields_witness :
  @passes_validation Reference.library Reference.validator
    (Reference.at_minute 0
       (<["phone"%string := JArr []]>
          (<["name"%string := JArr [JStr (js "Jane"); JStr (js " Doe ")]]>
             Reference.jane))).
Proof.
  apply (@passes_validation_fields Reference.library Reference.validator
           Reference.sanitizer Reference.delivering).
  repeat split; vm_compute;
    repeat (apply Forall_cons_2; [try split; try discriminate; try lia;
                                  reflexivity|]);
    apply Forall_nil_2.
Defined.

(** Every request is answered 200, 400, 429 or 500; at most one mail is
    handed to the transport, and one is exactly when the answer is 200 or
    500; the console is written exactly when the answer is 500. *)
Theorem route_outcomes `{ExpressValidator} `{ValidatorJs} `{Xss}
    `{Deployment}
    (req : Request) (srv : Server) :
  let resp := (handleSubmit req srv).1 in
  let srv' := (handleSubmit req srv).2 in
  status resp ∈ [200; 400; 429; 500]%nat
  /\ (status resp = 200%nat \/ status resp = 500%nat <->
      exists mail, outbox srv' = outbox srv ++ [mail])
  /\ (status resp <> 200%nat /\ status resp <> 500%nat <->
      outbox srv' = outbox srv)
  /\ (status resp = 500%nat <-> console srv' <> console srv)
  /\ (status resp <> 500%nat <-> console srv' = console srv).
Proof.
  cbv zeta.
  assert (forall (l : list Mail) m, l ++ [m] <> l) as Hgrow.
  { intros l m E. apply (f_equal (@length Mail)) in E.
    rewrite length_app in E. simpl in E. lia. }
  assert (forall (l : list (list jsstring)) m, l ++ [m] <> l) as Hgrow'.
  { intros l m E. apply (f_equal (@length _)) in E.
    rewrite length_app in E. simpl in E. lia. }
  destruct (handleSubmit_cases req srv)
    as [(_ & E) | [(_ & _ & E & O & C) | [(_ & _ & _ & E & O & C)
                                        | (_ & _ & e & _ & E & O & C)]]].
  - rewrite E. cbn [fst snd status].
    split; [set_solver|]. split; [|split; [|split]].
    + split; [intros [?|?]; discriminate|]. intros [m Hm].
      symmetry in Hm. destruct (Hgrow _ _ Hm).
    + split; [reflexivity|]. intros _. split; discriminate.
    + split; [discriminate | congruence].
    + split; [reflexivity | discriminate].
  - rewrite E, O, C. cbn [status invalid].
    split; [set_solver|]. split; [|split; [|split]].
    + split; [intros [?|?]; discriminate|]. intros [m Hm].
      symmetry in Hm. destruct (Hgrow _ _ Hm).
    + split; [reflexivity|]. intros _. split; discriminate.
    + split; [discriminate | congruence].
    + split; [reflexivity | discriminate].
  - rewrite E, O, C. cbn [status sent_ok].
    split; [set_solver|]. split; [|split; [|split]].
    + split; [eauto | auto].
    + split; [intros [? _]; congruence | intros Hm; destruct (Hgrow _ _ Hm)].
    + split; [discriminate | congruence].
    + split; [reflexivity | discriminate].
  - rewrite E, O, C. cbn [status send_failed].
    split; [set_solver|]. split; [|split; [|split]].
    + split; [eauto | auto].
    + split; [intros [_ ?]; congruence | intros Hm; destruct (Hgrow _ _ Hm)].
    + split; [intros _; apply Hgrow' | reflexivity].
    + split; [congruence | intros Hm; destruct (Hgrow' _ _ Hm)].
Qed.

(** A 400 lists at least one error and no more errors than the rules
    make tests, which is eight when none of the five fields holds an array;
    each error names one of the five fields of the rules; and a 400 comes
    only for a request the limiter let through. *)
Theorem invalid_response_errors `{ExpressValidator} `{ValidatorJs} `{Xss}
    `{Deployment} (req : Request) (srv : Server) :
  status (handleSubmit req srv).1 = 400%nat ->
  admitted req srv
  /\ exists errors,
      (handleSubmit req srv).1 = invalid errors
      /\ (1 <= length errors <= tests (req_body req))%nat
      /\ ((forall k items, k ∈ fields ->
                           req_body req !! k <> Some (JArr items)) ->
          (length errors <= 8)%nat)
      /\ Forall (fun e => Chain.path e ∈ fields) errors.
Proof.
  intros Hs.
  destruct (handleSubmit_cases req srv)
    as [(_ & E) | [(Ha & Hne & E & _) | [(_ & _ & _ & E & _)
                                       | (_ & _ & e & _ & E & _)]]];
    rewrite E in Hs; try discriminate.
  split; [exact Ha|]. exists (rule_errors (req_body req)).
  pose proof (rule_errors_length (req_body req)) as Hlen.
  split; [exact E|]. split; [|split].
  - destruct (rule_errors (req_body req)); [congruence | simpl in *; lia].
  - intros Hflat. unfold tests in Hlen.
    rewrite !texts_one in Hlen
      by (intros items; apply Hflat; unfold fields; set_solver).
    simpl in Hlen. exact Hlen.
  - apply Forall_forall. intros e He. exact (rule_errors_paths _ _ He).
Qed.

Lemma invalid_response_errors_witness :
  let req := Reference.at_minute 0
               (<["name"%string := JArr [JStr []; JStr []; JStr []]]>
                  Reference.jane) in
  admitted req Reference.idle
  /\ exists errors,
      (Reference.submit Reference.delivering req Reference.idle).1
      = invalid errors
      /\ (1 <= length errors <= @tests Reference.library (req_body req))%nat
      /\ ((forall k items, k ∈ fields ->
                           req_body req !! k <> Some (JArr items)) ->
          (length errors <= 8)%nat)
      /\ Forall (fun e => Chain.path e ∈ fields) errors.
Proof.
  apply (@invalid_response_errors Reference.library Reference.validator
           Reference.sanitizer Reference.delivering
           (Reference.at_minute 0
              (<["name"%string := JArr [JStr []; JStr []; JStr []]]>
                 Reference.jane))
           Reference.idle).
  vm_compute. reflexivity.
Defined.

Section Irrelevance.
Context `{ExpressValidator} `{ValidatorJs} `{Xss} `{Deployment}.

(** The mail, written with the trimmed fields of the request. *)
Lemma compose_validated (b : gmap string json) (now : jsstring) :
  compose (validated b) now
  = {| from := GMAIL_USER;
       to := EMAIL_TO;
       subject := xss (trimmed b "subject");
       html := emailHtml (xss (trimmed b "name"))
                 (xss (normalized b "email"))
                 (formatPhone (xss (trimmed b "phone")))
                 (slice 0 10 now)
                 (xss (trimmed b "message")) |}.
Proof.
  unfold compose, formattedPhone.
  destruct (validated_read b) as (-> & -> & -> & -> & ->). reflexivity.
Qed.

End Irrelevance.

(** The route reads five fields and reads them trimmed: two requests of
    one address and one time whose bodies agree on the strings of the five
    fields once trimmed, a missing field counting as one empty string, get
    the same answer and leave the same state, whatever else the bodies
    hold. *)
Theorem only_trimmed_fields_matter `{ExpressValidator} `{ValidatorJs} `{Xss}
    `{Deployment} (req req' : Request) (srv : Server) :
  req_ip req = req_ip req' ->
  req_time req = req_time req' ->
  req_now req = req_now req' ->
  (forall k, k ∈ fields ->
             texts (req_body req) k = texts (req_body req') k) ->
  handleSubmit req srv = handleSubmit req' srv.
Proof.
  intros Hip Htime Hnow Hf.
  assert (texts (req_body req) "name" = texts (req_body req') "name"
          /\ texts (req_body req) "email" = texts (req_body req') "email"
          /\ texts (req_body req) "phone" = texts (req_body req') "phone"
          /\ texts (req_body req) "message"
             = texts (req_body req') "message"
          /\ texts (req_body req) "subject"
             = texts (req_body req') "subject") as (En & Ee & Ep & Em & Es).
  { repeat split; apply Hf; unfold fields; set_solver. }
  unfold handleSubmit. rewrite Hip, Htime, Hnow, !rules_run.
  assert (rule_errors (req_body req) = rule_errors (req_body req')) as ->
    by (unfold rule_errors; rewrite En, Ee, Ep, Em, Es; reflexivity).
  destruct (contactLimiter _ _ _) as [[|r] store]; [|reflexivity].
  unfold handler. rewrite !compose_validated.
  unfold trimmed, normalized. rewrite En, Ee, Ep, Em, Es.
  reflexivity.
Qed.

Lemma only_trimmed_fields_matter_witness :
  Reference.submit Reference.delivering
    (Reference.at_minute 0 Reference.jane) Reference.idle
  = Reference.submit Reference.delivering
      (Reference.at_minute 0 Padded.jane) Reference.idle.
Proof.
  apply (@only_trimmed_fields_matter Reference.library Reference.validator
           Reference.sanitizer Reference.delivering
           (Reference.at_minute 0 Reference.jane)
           (Reference.at_minute 0 Padded.jane) Reference.idle);
    try reflexivity.
  intros k Hk. unfold fields in Hk.
  repeat (apply elem_of_cons in Hk as [->|Hk]; [vm_compute; reflexivity|]).
  inversion Hk.
Defined.

(** * Further properties of the client flow *)

(** ** Trimming *)

Lemma trim_start_idempotent (s : jsstring) :
  trim_start (trim_start s) = trim_start s.
Proof.
  induction s as [|c s IH]; [reflexivity|]. cbn [trim_start].
  destruct (is_space c) eqn:E; [exact IH|]. cbn [trim_start]. rewrite E.
  reflexivity.
Qed.

Lemma trim_start_snoc (l : jsstring) (c : N) :
  is_space c = false -> exists l', trim_start (l ++ [c]) = l' ++ [c].
Proof.
  intros Hc. induction l as [|x l [l' IH]]; cbn [app trim_start].
  - rewrite Hc. exists []. reflexivity.
  - destruct (is_space x); [exists l'; exact IH|]. exists (x :: l). reflexivity.
Qed.

Lemma trim_end_idempotent (s : jsstring) : trim_end (trim_end s) = trim_end s.
Proof.
  unfold trim_end. rewrite rev_involutive, trim_start_idempotent.
  reflexivity.
Qed.

Lemma trim_start_trim_end (s : jsstring) :
  trim_start s = s -> trim_start (trim_end s) = trim_end s.
Proof.
  destruct s as [|c r]; [reflexivity|]. cbn [trim_start].
  destruct (is_space c) eqn:E.
  - intros Hr. exfalso.
    destruct (trim_start_suffix r) as [pre Hpre]. rewrite Hr in Hpre.
    apply (f_equal (@length N)) in Hpre. rewrite length_app in Hpre.
    simpl in Hpre. lia.
  - intros _. unfold trim_end. cbn [List.rev].
    destruct (trim_start_snoc (List.rev r) c E) as [l' ->].
    rewrite rev_app_distr. cbn [List.rev app trim_start]. rewrite E.
    reflexivity.
Qed.

(** Trimming what is trimmed changes nothing. *)
Lemma trim_idempotent (s : jsstring) : trim (trim s) = trim s.
Proof.
  unfold trim.
  rewrite (trim_start_trim_end (trim_start s) (trim_start_idempotent s)).
  apply trim_end_idempotent.
Qed.

(** ** The checks of the dialog *)

(** The dialog posts exactly when the four inputs are non-empty once
    trimmed and the address matches the pattern; an empty input is answered
    with All fields are required., an address that does not match with
    Please enter a valid email address., and either keeps the dialog
    open. *)
Theorem dialog_checks `{Engine} (f : Client.Fields) (net : Client.Fetched) :
  ((exists b, Client.Post b ∈ (Client.preConfirm f net).1) <-> submits f)
  /\ (blank f ->
      Client.preConfirm f net
      = ([Client.ShowValidationMessage (js "All fields are required.")], None))
  /\ (~ blank f ->
      Client.emailRegex_test (trim (Client.in_email f)) = false ->
      Client.preConfirm f net
      = ([Client.ShowValidationMessage
            (js "Please enter a valid email address.")], None)).
Proof.
  assert (blank f ->
          bool_decide (trim (Client.in_name f) = [])
          || bool_decide (trim (Client.in_email f) = [])
          || bool_decide (trim (Client.in_subject f) = [])
          || bool_decide (trim (Client.in_message f) = []) = true) as Hb.
  { intros [E|[E|[E|E]]]; rewrite (bool_decide_eq_true_2 _ E);
      rewrite ?orb_true_r; reflexivity. }
  assert (~ blank f ->
          bool_decide (trim (Client.in_name f) = [])
          || bool_decide (trim (Client.in_email f) = [])
          || bool_decide (trim (Client.in_subject f) = [])
          || bool_decide (trim (Client.in_message f) = []) = false) as Hnb.
  { intros Hn. unfold blank in Hn.
    rewrite !bool_decide_eq_false_2 by tauto. reflexivity. }
  split; [|split].
  - split.
    + intros [b Hin]. revert Hin. unfold Client.preConfirm, submits.
      destruct (bool_decide_reflect (trim (Client.in_name f) = []));
        [cbn; intros Hin; apply list_elem_of_singleton in Hin; discriminate|].
      destruct (bool_decide_reflect (trim (Client.in_email f) = []));
        [cbn; intros Hin; apply list_elem_of_singleton in Hin; discriminate|].
      destruct (bool_decide_reflect (trim (Client.in_subject f) = []));
        [cbn; intros Hin; apply list_elem_of_singleton in Hin; discriminate|].
      destruct (bool_decide_reflect (trim (Client.in_message f) = []));
        [cbn; intros Hin; apply list_elem_of_singleton in Hin; discriminate|].
      cbn [orb].
      destruct (Client.emailRegex_test (trim (Client.in_email f)));
        [intros _; tauto|].
      cbn. intros Hin. apply list_elem_of_singleton in Hin. discriminate.
    + intros Hs. exists (posted f). rewrite (preConfirm_submits _ _ Hs).
      destruct (Client.settle net); left.
  - intros Hblank. unfold Client.preConfirm. rewrite (Hb Hblank). reflexivity.
  - intros Hn Hre. unfold Client.preConfirm. rewrite (Hnb Hn), Hre.
    reflexivity.
Qed.

Lemma dialog_checks_witness :
  Reference.press Typed.nameless (Client.FetchRejects [])
  = ([Client.ShowValidationMessage (js "All fields are required.")], None)
  /\ Reference.press Typed.mistyped (Client.FetchRejects [])
     = ([Client.ShowValidationMessage
           (js "Please enter a valid email address.")], None).
Proof.
  split.
  - apply (proj1 (proj2 (@dialog_checks Reference.v8 Typed.nameless
                           (Client.FetchRejects [])))).
    left. reflexivity.
  - apply (proj2 (proj2 (@dialog_checks Reference.v8 Typed.mistyped
                           (Client.FetchRejects [])))).
    + intros [E|[E|[E|E]]]; vm_compute in E; discriminate.
    + reflexivity.
Defined.

(** ** The session flag *)

Lemma dialog_unconfirmed `{Engine} presses events :
  Client.dialog presses = (events, None) ->
  Client.Fire Client.messageSent ∉ events.
Proof.
  revert events. induction presses as [|[f net] rest IH];
    cbn [Client.dialog]; intros events.
  - intros [= <-] Hin. inversion Hin.
  - destruct (Client.preConfirm f net) as [ev [d|]] eqn:Ep; [discriminate|].
    destruct (Client.dialog rest) as [later result].
    intros [= <- ->]. rewrite elem_of_app. intros [Hin|Hin].
    + revert Ep Hin. unfold Client.preConfirm.
      destruct (_ || _).
      { intros [= <-] Hin. apply list_elem_of_singleton in Hin. discriminate. }
      destruct (negb _).
      { intros [= <-] Hin. apply list_elem_of_singleton in Hin. discriminate. }
      destruct (Client.settle net); intros [= <-] Hin.
      apply elem_of_cons in Hin as [?|Hin]; [discriminate|].
      apply list_elem_of_singleton in Hin. discriminate.
    + exact (IH later eq_refl Hin).
Qed.

(** The flow touches the session storage at the key contactSent only, and
    the flag is set afterwards exactly when it was set before or the
    Message Sent notice was shown; without that notice the storage is as it
    was. *)
Theorem session_flag `{Engine} (storage : gmap string jsstring)
    (presses : list (Client.Fields * Client.Fetched)) :
  let after := (Client.openContactForm storage presses).1 in
  let events := (Client.openContactForm storage presses).2 in
  (forall k, k <> "contactSent"%string -> after !! k = storage !! k)
  /\ (Client.flag_set after "contactSent" = true <->
      Client.flag_set storage "contactSent" = true
      \/ Client.Fire Client.messageSent ∈ events)
  /\ (Client.Fire Client.messageSent ∉ events -> after = storage).
Proof.
  cbv zeta. unfold Client.openContactForm.
  destruct (Client.flag_set storage "contactSent") eqn:Hset.
  { cbn [fst snd]. split; [reflexivity|]. split; [tauto | reflexivity]. }
  destruct (Client.dialog presses) as [events [data|]] eqn:Ed; cbn [fst snd].
  - split; [intros k Hk; apply lookup_insert_ne; congruence|]. split.
    + split; [intros _; right | intros _].
      * apply list_elem_of_further, elem_of_app. right. left.
      * unfold Client.flag_set. rewrite lookup_insert_eq. reflexivity.
    + intros Hn. exfalso. apply Hn.
      apply list_elem_of_further, elem_of_app. right. left.
  - split; [reflexivity|]. split; [|reflexivity].
    rewrite Hset. split; [discriminate|]. intros [?|Hin]; [discriminate|].
    apply elem_of_cons in Hin as [?|Hin]; [discriminate|].
    destruct (dialog_unconfirmed _ _ Ed Hin).
Qed.

Lemma session_flag_witness :
  (Reference.contact ∅
     [(Typed.nameless, Client.FetchRejects []);
      (Typed.mistyped, Client.FetchRejects [])]).1 = ∅.
Proof.
  apply (proj2 (proj2 (@session_flag Reference.v8 ∅
                         [(Typed.nameless, Client.FetchRejects []);
                          (Typed.mistyped, Client.FetchRejects [])]))).
  intros Hin. apply list_elem_of_In in Hin. vm_compute in Hin.
  intuition discriminate.
Defined.

(** ** The pattern of the dialog *)

Lemma skip_plain_split (r : jsstring) :
  exists p, r = p ++ Client.skip_plain r
            /\ Forall (fun c => Client.plain c = true) p.
Proof.
  induction r as [|c r (p & E & Hp)]; cbn [Client.skip_plain].
  - exists []. split; [reflexivity | constructor].
  - destruct (Client.plain c) eqn:Hc.
    + exists (c :: p). split; [cbn; rewrite <- E; reflexivity|].
      constructor; assumption.
    + exists []. split; [reflexivity | constructor].
Qed.

Lemma skip_plain_app (p d : jsstring) (x : N) :
  Forall (fun c => Client.plain c = true) p ->
  Client.plain x = false ->
  Client.skip_plain (p ++ x :: d) = x :: d.
Proof.
  intros Hp Hx. induction Hp as [|c p Hc _ IH]; cbn [app Client.skip_plain].
  - rewrite Hx. reflexivity.
  - rewrite Hc. exact IH.
Qed.

Lemma plain_no_space (c : N) : Client.plain c = true -> is_space c = false.
Proof.
  unfold Client.plain. rewrite negb_true_iff, orb_false_iff. tauto.
Qed.

Lemma plain_no_at (c : N) : Client.plain c = true -> c <> 64.
Proof.
  unfold Client.plain. rewrite negb_true_iff, orb_false_iff.
  intros [_ E] ->. discriminate.
Qed.

(** The test of the dialog accepts exactly the strings of the pattern; an
    accepted address therefore holds no whitespace and a single at sign. *)
Theorem emailRegex_test_pattern (s : jsstring) :
  (Client.emailRegex_test s = true <-> matches_email_pattern s)
  /\ (Client.emailRegex_test s = true ->
      Forall (fun c => is_space c = false) s
      /\ length (List.filter (fun c => c =? 64) s) = 1%nat).
Proof.
  assert (Client.emailRegex_test s = true -> matches_email_pattern s) as Hto.
  { destruct s as [|c r]; cbn [Client.emailRegex_test]; [discriminate|].
    rewrite andb_true_iff. intros [Hc Hr].
    destruct (skip_plain_split r) as (p & Er & Hp).
    destruct (Client.skip_plain r) as [|x d]; [discriminate|].
    destruct (N.eqb_spec x 64) as [->|Hx].
    - apply andb_true_iff in Hr. destruct Hr as [Hd Hdom].
      apply domain_tld_spec in Hdom. destruct Hdom as (c' & a & t & -> & Ht).
      exists (c :: p), (c' :: a), t. repeat split; try discriminate.
      + rewrite Er. reflexivity.
      + exact Ht.
      + rewrite forallb_forall in Hd.
        change (Forall (fun c0 => Client.plain c0 = true)
                  ((c :: p) ++ (c' :: a) ++ t)).
        apply Forall_app_2; [constructor; assumption|].
        apply Forall_forall. intros y Hy. apply Hd.
        apply list_elem_of_In.
        change (c' :: a ++ 46 :: t) with ((c' :: a) ++ 46 :: t).
        apply elem_of_app in Hy as [Hy|Hy]; apply elem_of_app;
          [left; exact Hy | right; right; exact Hy].
    - exfalso. revert Hr. clear -Hx. destruct x as [|q]; [discriminate|].
      do 7 (destruct q as [q|q|]; try discriminate). congruence. }
  split; [split; [exact Hto|]|].
  - intros (l & m & t & -> & Hl & Hm & Ht & Hp).
    destruct l as [|c p]; [congruence|].
    apply Forall_app in Hp as [Hcp Hmt]. apply Forall_cons_1 in Hcp as [Hc Hp].
    cbn [app Client.emailRegex_test]. rewrite Hc.
    rewrite (skip_plain_app p _ 64 Hp eq_refl). cbn [andb].
    apply andb_true_iff. split.
    + rewrite forallb_forall. intros y Hy. apply list_elem_of_In in Hy.
      apply elem_of_app in Hy as [Hy|Hy].
      * apply Forall_app in Hmt as [Hm' _].
        exact (proj1 (Forall_forall _ _) Hm' y Hy).
      * apply elem_of_cons in Hy as [->|Hy]; [reflexivity|].
        apply Forall_app in Hmt as [_ Ht'].
        exact (proj1 (Forall_forall _ _) Ht' y Hy).
    + apply domain_tld_spec. destruct m as [|c' a]; [congruence|].
      exists c', a, t. split; [reflexivity | exact Ht].
  - intros Hs. destruct (Hto Hs) as (l & m & t & -> & _ & _ & _ & Hp).
    apply Forall_app in Hp as [Hl Hmt]. apply Forall_app in Hmt as [Hm Ht].
    split.
    + apply Forall_app_2; [eapply Forall_impl; [exact Hl | apply plain_no_space]|].
      apply Forall_cons_2; [reflexivity|].
      apply Forall_app_2; [eapply Forall_impl; [exact Hm | apply plain_no_space]|].
      apply Forall_cons_2; [reflexivity|].
      eapply Forall_impl; [exact Ht | apply plain_no_space].
    + assert (forall x : jsstring,
                 Forall (fun c => Client.plain c = true) x ->
                 List.filter (fun c => c =? 64) x = []) as Hnone.
      { intros x Hx. induction Hx as [|y x Hy _ IH]; [reflexivity|].
        cbn [List.filter]. apply plain_no_at in Hy.
        destruct (N.eqb_spec y 64); [contradiction | exact IH]. }
      rewrite List.filter_app. cbn [List.filter]. change (64 =? 64) with true.
      rewrite List.filter_app. cbn [List.filter]. change (46 =? 64) with false.
      rewrite (Hnone l Hl), (Hnone m Hm), (Hnone t Ht). reflexivity.
Qed.

Lemma emailRegex_test_pattern_witness :
  matches_email_pattern (js "jane.doe@mail.example.com")
  /\ Forall (fun c => is_space c = false) (js "jane.doe@mail.example.com")
  /\ length (List.filter (fun c => c =? 64) (js "jane.doe@mail.example.com"))
     = 1%nat.
Proof.
  destruct (emailRegex_test_pattern (js "jane.doe@mail.example.com"))
    as [[Hto _] Hchars].
  split; [apply Hto; reflexivity | apply Hchars; reflexivity].
Defined.

(** * The dialog and the route together *)

Lemma check_msg p test m v e : e ∈ check p test m v -> Chain.msg e = m.
Proof.
  unfold check. destruct (test v); intros Hin.
  - inversion Hin.
  - apply list_elem_of_singleton in Hin. subst e. reflexivity.
Qed.

Lemma checks_one p test m v : checks p test m [v] = check p test m v.
Proof. unfold checks. apply bind_singleton. Qed.

(** What the dialog posts the rules read as it is: trimming changes none
    of the four fields, the phone is empty, and no rule finds a required
    field missing, so that the only errors the route can raise against the
    dialog are a length over the limit and an address it does not accept. *)
Theorem posted_body_on_server `{ExpressValidator} `{ValidatorJs} `{Xss}
    `{Deployment} (f : Client.Fields) :
  submits f ->
  trimmed (posted f) "name" = trim (Client.in_name f)
  /\ trimmed (posted f) "email" = trim (Client.in_email f)
  /\ trimmed (posted f) "subject" = trim (Client.in_subject f)
  /\ trimmed (posted f) "message" = trim (Client.in_message f)
  /\ trimmed (posted f) "phone" = []
  /\ forall e, e ∈ rule_errors (posted f) ->
               Chain.msg e = js "Invalid value"
               \/ Chain.msg e = js "A valid email is required.".
Proof.
  intros (Hn & He & Hs & Hm & _).
  destruct (posted_lookup f) as (Ln & Le & Ls & Lm).
  destruct (posted_keys f) as [_ Lp].
  pose proof (string_text _ _ _ Ln) as Xn. pose proof (string_text _ _ _ Le) as Xe.
  pose proof (string_text _ _ _ Ls) as Xs. pose proof (string_text _ _ _ Lm) as Xm.
  pose proof (missing_text _ _ Lp) as Xp.
  rewrite trim_idempotent in Xn, Xe, Xs, Xm.
  unfold trimmed. rewrite Xn, Xe, Xs, Xm, Xp. cbn [join_comma].
  repeat (split; [reflexivity|]).
  intros e. unfold rule_errors. rewrite Xn, Xe, Xs, Xm, Xp, !checks_one.
  rewrite !elem_of_app.
  assert (forall (s : jsstring) p m,
             s <> [] ->
             check p (fun s => negb (length s =? 0)%nat) m s = []) as Hreq.
  { intros [|c s] p m Hne; [congruence | reflexivity]. }
  rewrite !Hreq by assumption.
  intros [Hin|[Hin|[Hin|[Hin|[Hin|[Hin|[Hin|Hin]]]]]]];
    try (inversion Hin; fail);
    apply check_msg in Hin; rewrite Hin; auto.
Qed.

Lemma posted_body_on_server_witness :
  let b := posted Reference.typed in
  @trimmed Reference.library b "name" = js "Jane Doe"
  /\ @trimmed Reference.library b "email" = js "jane@example.com"
  /\ @trimmed Reference.library b "subject" = js "Hello"
  /\ @trimmed Reference.library b "message" = js "Hi there"
  /\ @trimmed Reference.library b "phone" = []
  /\ forall e, e ∈ @rule_errors Reference.library Reference.validator b ->
               Chain.msg e = js "Invalid value"
               \/ Chain.msg e = js "A valid email is required.".
Proof.
  exact (@posted_body_on_server Reference.library Reference.validator
           Reference.sanitizer Reference.delivering Reference.typed
           typed_submits).
Defined.

(** Whatever the request and the state of the server, the dialog that
    receives the answer of the route confirms when the answer is the 200,
    and otherwise stays open with the text Failed to send message.: the
    errors of a 400 and the text of the limiter are not shown. *)
Theorem route_answer_in_dialog `{Engine} `{ExpressValidator}
    `{ValidatorJs} `{Xss} `{Deployment}
    (f : Client.Fields) (req : Request) (srv : Server) :
  submits f ->
  (status (handleSubmit req srv).1 = 200%nat ->
   Client.preConfirm f (received (handleSubmit req srv).1)
   = ([Client.Post (posted f)], Some (payload sent_ok)))
  /\ (status (handleSubmit req srv).1 <> 200%nat ->
      Client.preConfirm f (received (handleSubmit req srv).1)
      = ([Client.Post (posted f);
          Client.ShowValidationMessage (js "Failed to send message.")],
         None)).
Proof.
  intros Hf. rewrite (preConfirm_submits _ _ Hf).
  destruct (handleSubmit_cases req srv)
    as [(_ & E) | [(_ & _ & E & _) | [(_ & _ & _ & E & _)
                                    | (_ & _ & e & _ & E & _)]]];
    rewrite E; cbn [fst]; (split; [intros Hs | intros Hs]);
    try discriminate; try reflexivity.
  exfalso. apply Hs. reflexivity.
Qed.

Lemma route_answer_in_dialog_witness :
  Reference.press Reference.typed
    (received (Reference.submit Reference.delivering
                 (Reference.at_minute 0 (posted Reference.typed))
                 Reference.idle).1)
  = ([Client.Post (posted Reference.typed)], Some (payload sent_ok))
  /\ Reference.press Reference.typed
       (received (Reference.submit Reference.delivering
                    (Reference.at_minute 5 (posted Reference.typed))
                    (Reference.busy Reference.delivering)).1)
     = ([Client.Post (posted Reference.typed);
         Client.ShowValidationMessage (js "Failed to send message.")], None).
Proof.
  split.
  - apply (proj1 (@route_answer_in_dialog Reference.v8 Reference.library
                    Reference.validator
                    Reference.sanitizer Reference.delivering Reference.typed
                    (Reference.at_minute 0 (posted Reference.typed))
                    Reference.idle typed_submits)).
    vm_compute. reflexivity.
  - apply (proj2 (@route_answer_in_dialog Reference.v8 Reference.library
                    Reference.validator
                    Reference.sanitizer Reference.delivering Reference.typed
                    (Reference.at_minute 5 (posted Reference.typed))
                    (Reference.busy Reference.delivering) typed_submits)).
    vm_compute. discriminate.
Defined.

(** * The application *)

Section AppFacts.
Context `{ExpressValidator} `{ValidatorJs} `{Xss} `{Deployment}.

(** The application on a request whose body was parsed and which the
    global limiter lets through. *)
Lemma app_passed rq st body :
  App.parsed rq = inr body ->
  App.passes_global rq st ->
  App.app rq st
  = match App.target rq with
    | App.Contact =>
        (App.Json (handleSubmit (App.submission rq body) (App.server st)).1,
         {| App.global :=
              (App.globalLimiter (App.global st) (App.ip rq) (App.time rq)).2;
            App.server :=
              (handleSubmit (App.submission rq body) (App.server st)).2 |})
    | App.Health =>
        (App.Json App.healthy,
         {| App.global :=
              (App.globalLimiter (App.global st) (App.ip rq) (App.time rq)).2;
            App.server := App.server st |})
    | App.Unmatched =>
        (App.NotFound,
         {| App.global :=
              (App.globalLimiter (App.global st) (App.ip rq) (App.time rq)).2;
            App.server := App.server st |})
    end.
Proof.
  intros Hp Hg. unfold App.app, App.passes_global in *. rewrite Hp.
  destruct (App.globalLimiter _ _ _) as [[|r] store]; [|discriminate].
  destruct (App.target rq); try reflexivity.
  unfold App.submission.
  destruct (handleSubmit _ _) as [r srv]. reflexivity.
Qed.

(** The application on a request it does not hand to the router. *)
Lemma app_bystander rq st body :
  App.parsed rq = inr body ->
  App.target rq <> App.Contact \/ ~ App.passes_global rq st ->
  App.server (App.app rq st).2 = App.server st.
Proof.
  intros Hp Hside. unfold App.app, App.passes_global in *. rewrite Hp.
  destruct (App.globalLimiter _ _ _) as [[|r] store]; [|reflexivity].
  destruct (App.target rq); try reflexivity.
  destruct Hside as [Hn|Hn]; exfalso; apply Hn; reflexivity.
Qed.

End AppFacts.

(** A mail leaves the application only for a submission to the contact
    route whose body was parsed, that both limiters let through and that
    the rules accept; it is then the one mail composed from that body. *)
Theorem mail_needs_every_gate `{ExpressValidator} `{ValidatorJs} `{Xss}
    `{Deployment}
    (rq : App.Incoming) (st : App.State) :
  outbox (App.server (App.app rq st).2) <> outbox (App.server st) ->
  App.target rq = App.Contact
  /\ exists body,
      App.parsed rq = inr body
      /\ App.passes_global rq st
      /\ admitted (App.submission rq body) (App.server st)
      /\ passes_validation (App.submission rq body)
      /\ outbox (App.server (App.app rq st).2)
         = outbox (App.server st) ++ [compose (validated body) (App.now rq)].
Proof.
  intros Hout. destruct (App.parsed rq) as [m|body] eqn:Hp.
  { exfalso. apply Hout. unfold App.app. rewrite Hp. reflexivity. }
  destruct ((App.globalLimiter (App.global st) (App.ip rq) (App.time rq)).1)
    as [|r] eqn:Hg.
  - rewrite (app_passed rq st body Hp Hg) in Hout |- *.
    destruct (App.target rq); cbn [snd App.server] in Hout |- *;
      try (exfalso; apply Hout; reflexivity).
    split; [reflexivity|]. exists body. split; [reflexivity|].
    split; [exact Hg|].
    destruct (handleSubmit_outbox (App.submission rq body) (App.server st))
      as [E|(Ha & He & E)]; [contradiction|].
    split; [exact Ha|]. split; [apply passes_validation_iff; exact He|].
    exact E.
  - exfalso. apply Hout. apply (f_equal outbox).
    apply (app_bystander rq st body Hp). right.
    unfold App.passes_global. rewrite Hg. discriminate.
Qed.

Lemma mail_needs_every_gate_witness :
  let rq := {| App.target := App.Contact; App.parsed := inr Reference.jane;
               App.ip := Reference.address; App.time := 0;
               App.now := js "2026-03-01T10:00:00.000Z" |} in
  App.target rq = App.Contact
  /\ exists body,
      App.parsed rq = inr body
      /\ App.passes_global rq App.started
      /\ admitted (App.submission rq body) (App.server App.started)
      /\ @passes_validation Reference.library Reference.validator (App.submission rq body)
      /\ outbox (App.server
                   (@App.app Reference.library Reference.validator Reference.sanitizer
                      Reference.delivering rq App.started).2)
         = outbox (App.server App.started)
           ++ [@compose Reference.sanitizer Reference.delivering
                 (@validated Reference.library Reference.validator body) (App.now rq)].
Proof.
  apply (@mail_needs_every_gate Reference.library Reference.validator Reference.sanitizer
           Reference.delivering
           {| App.target := App.Contact; App.parsed := inr Reference.jane;
              App.ip := Reference.address; App.time := 0;
              App.now := js "2026-03-01T10:00:00.000Z" |} App.started).
  vm_compute. discriminate.
Defined.

(** Health checks, unmatched requests, requests the global limiter turns
    away and requests whose body could not be parsed leave the outbox and
    the counters of the contact limiter as they were; the last are answered
    500 with a fixed body whatever the error, which is written to the
    console, and are counted by neither limiter. *)
Theorem bystanders_change_nothing `{ExpressValidator} `{ValidatorJs} `{Xss}
    `{Deployment}
    (rq : App.Incoming) (st : App.State) :
  (forall body,
      App.parsed rq = inr body ->
      App.target rq <> App.Contact \/ ~ App.passes_global rq st ->
      App.server (App.app rq st).2 = App.server st)
  /\ (forall message,
         App.parsed rq = inl message ->
         (App.app rq st).1
         = App.Json {| status := 500;
                       payload :=
                         JObj [("error"%string,
                                JStr (js "Internal server error."))] |}
         /\ App.global (App.app rq st).2 = App.global st
         /\ hits (App.server (App.app rq st).2) = hits (App.server st)
         /\ outbox (App.server (App.app rq st).2) = outbox (App.server st)
         /\ console (App.server (App.app rq st).2)
            = console (App.server st) ++ [[js "Unhandled error:"; message]]).
Proof.
  split.
  - intros body Hp Hside. exact (app_bystander rq st body Hp Hside).
  - intros message Hp. unfold App.app. rewrite Hp. repeat split.
Qed.

Lemma bystanders_change_nothing_witness :
  let ping := {| App.target := App.Health; App.parsed := inr ∅;
                 App.ip := Reference.address; App.time := 0;
                 App.now := js "2026-03-01T10:00:00.000Z" |} in
  App.server (@App.app Reference.library Reference.validator Reference.sanitizer
                Reference.delivering ping App.started).2
  = App.server App.started.
Proof.
  apply (proj1 (@bystanders_change_nothing Reference.library Reference.validator
                  Reference.sanitizer Reference.delivering
                  {| App.target := App.Health; App.parsed := inr ∅;
                     App.ip := Reference.address; App.time := 0;
                     App.now := js "2026-03-01T10:00:00.000Z" |}
                  App.started) ∅ eq_refl).
  left. discriminate.
Defined.

(** ** The global limiter *)

Section GlobalLimit.
Context `{ExpressValidator} `{ValidatorJs} `{Xss} `{Deployment}.

Lemma global_recent (t1 t : Z) (new old : list Z) :
  Forall (fun x => (t1 <= x)%Z) new ->
  (t1 <= t < t1 + 900000)%Z ->
  RateLimit.recent App.globalOptions t1 old = [] ->
  RateLimit.recent App.globalOptions t (new ++ old) = new.
Proof.
  intros Hnew Ht Hold.
  change (RateLimit.recent App.globalOptions)
    with (RateLimit.recent contactOptions) in *.
  apply (recent_window t1); [|lia | exact Hold].
  eapply Forall_impl; [exact Hnew|]. cbn. intros x Hx. lia.
Qed.

(** The route never answers what the global limiter answers. *)
Lemma route_not_global req srv :
  App.Json (handleSubmit req srv).1 <> too_many_requests.
Proof.
  destruct (handleSubmit_cases req srv)
    as [(_ & E) | [(_ & _ & E & _) | [(_ & _ & _ & E & _)
                                    | (_ & _ & e & _ & E & _)]]];
    rewrite E; discriminate.
Qed.

(** Below the cap every request of the address is counted and none is
    answered by the global limiter. *)
Lemma run_under_cap (a : jsstring) (t1 : Z) (old : list Z)
    (rqs : list App.Incoming) :
  RateLimit.recent App.globalOptions t1 old = [] ->
  Forall (in_window_of a t1) rqs ->
  forall (st : App.State) (new : list Z),
    default [] (App.global st !! a) = new ++ old ->
    Forall (fun x => (t1 <= x)%Z) new ->
    (length new + length rqs <= 50)%nat ->
    Forall (fun reply => reply <> too_many_requests) (App.run rqs st).1
    /\ default [] (App.global (App.run rqs st).2 !! a)
       = List.rev (List.map App.time rqs) ++ new ++ old
    /\ Forall (fun x => (t1 <= x)%Z) (List.rev (List.map App.time rqs) ++ new).
Proof.
  intros Hold. induction 1 as [|rq rqs (Hip & [body Hp] & Ht) _ IH];
    intros st new Hrec Hnew Hlen.
  - cbn. split; [constructor|]. split; [exact Hrec | exact Hnew].
  - cbn [App.run length] in *.
    assert (App.globalLimiter (App.global st) (App.ip rq) (App.time rq)
            = (RateLimit.Next,
               <[a := App.time rq :: new ++ old]> (App.global st))) as Hg.
    { unfold App.globalLimiter, RateLimit.rateLimit.
      rewrite Hip, Hrec, (global_recent t1 _ _ _ Hnew Ht Hold).
      cbn [RateLimit.max App.globalOptions].
      destruct (Nat.ltb_spec (length new) 50); [reflexivity | lia]. }
    assert (App.passes_global rq st) as Hpass
      by (unfold App.passes_global; rewrite Hg; reflexivity).
    pose proof (app_passed rq st body Hp Hpass) as Happ. rewrite Hg in Happ.
    cbn [snd] in Happ.
    destruct (App.app rq st) as [reply st1].
    assert (reply <> too_many_requests
            /\ App.global st1
               = <[a := App.time rq :: new ++ old]> (App.global st))
      as [Hreply Hst1].
    { destruct (App.target rq); injection Happ as -> ->;
        (split; [|reflexivity]);
        [apply route_not_global | discriminate | discriminate]. }
    destruct (IH st1 (App.time rq :: new)) as (Hr & Hs & Hn);
      [rewrite Hst1, lookup_insert_eq; reflexivity
      | constructor; [lia | exact Hnew]
      | simpl; lia |].
    destruct (App.run rqs st1) as [replies st2]. cbn [fst snd] in *.
    split; [constructor; assumption|].
    cbn [List.map List.rev]. rewrite <- !app_assoc. cbn [app].
    split; [exact Hs | exact Hn].
Qed.

End GlobalLimit.

(** Fifty requests of one address whose bodies the parsers accept, to
    whatever route, all within fifteen minutes, the limiter having counted
    no request of that address in the fifteen minutes before: none is
    answered by the global limiter, and one more such request in the same
    fifteen minutes is, with 429 and the fixed message, and changes nothing
    on the server, be it a valid submission.  (A request whose body the
    parsers refuse does not reach the limiter and is not counted.) *)
Theorem global_limit_fifty `{ExpressValidator} `{ValidatorJs} `{Xss}
    `{Deployment}
    (a : jsstring) (t1 : Z) (rqs : list App.Incoming) (rq : App.Incoming)
    (st : App.State) :
  length rqs = 50%nat ->
  Forall (in_window_of a t1) (rqs ++ [rq]) ->
  RateLimit.recent App.globalOptions t1 (default [] (App.global st !! a)) = [] ->
  Forall (fun reply => reply <> too_many_requests) (App.run rqs st).1
  /\ App.app rq (App.run rqs st).2
     = (too_many_requests, (App.run rqs st).2).
Proof.
  intros Hlen Hall Hfresh. apply Forall_app in Hall as [Hrqs Hrq].
  apply Forall_cons_1 in Hrq as [(Hip & [body Hp] & Ht) _].
  destruct (run_under_cap a t1 _ rqs Hfresh Hrqs st [] eq_refl)
    as (Hreplies & Hrec & Hnew); [constructor | simpl; lia |].
  split; [exact Hreplies|].
  cbn [app] in Hrec. rewrite app_nil_r in Hnew.
  set (st' := (App.run rqs st).2) in *.
  unfold App.app. rewrite Hp.
  unfold App.globalLimiter, RateLimit.rateLimit.
  rewrite Hip, Hrec, (global_recent t1 _ _ _ Hnew Ht Hfresh).
  rewrite length_rev, length_map, Hlen. cbn. destruct st'. reflexivity.
Qed.

Lemma global_limit_fifty_witness :
  Forall (fun reply => reply <> too_many_requests)
    (@App.run Reference.library Reference.validator Reference.sanitizer Reference.delivering
       (Monitor.pings 50) App.started).1
  /\ @App.app Reference.library Reference.validator Reference.sanitizer Reference.delivering
       (Monitor.jane 50)
       (@App.run Reference.library Reference.validator Reference.sanitizer Reference.delivering
          (Monitor.pings 50) App.started).2
     = (too_many_requests,
        (@App.run Reference.library Reference.validator Reference.sanitizer Reference.delivering
           (Monitor.pings 50) App.started).2).
Proof.
  apply (@global_limit_fifty Reference.library Reference.validator Reference.sanitizer
           Reference.delivering Reference.address 0 (Monitor.pings 50)
           (Monitor.jane 50) App.started).
  - reflexivity.
  - apply Forall_forall. intros rq Hin. apply list_elem_of_In in Hin.
    vm_compute in Hin.
    repeat (destruct Hin as [<-|Hin];
            [split; [reflexivity|];
             split; [eexists; reflexivity | vm_compute; split; congruence]|]).
    contradiction.
  - reflexivity.
Defined.

(** * The page *)

(** ** What each function leaves alone *)

Lemma update_rest r g st :
  Page.scrollListener (Page.update r g st) = Page.scrollListener st
  /\ Page.observers (Page.update r g st) = Page.observers st
  /\ Page.timers (Page.update r g st) = Page.timers st.
Proof. destruct r; repeat split. Qed.

Lemma update_elements r g st :
  Page.elements (Page.update r g st)
  = match r with
    | Page.Static k => alter g k (Page.elements st)
    | _ => Page.elements st
    end.
Proof. destruct r; reflexivity. Qed.

Lemma update_frame r g st :
  Page.frame (Page.update r g st)
  = match r with
    | Page.Static _ => Page.frame st
    | Page.FrameButton =>
        (fun f => {| Page.holder := Page.holder f;
                     Page.closeButton := g (Page.closeButton f);
                     Page.image := Page.image f |}) <$> Page.frame st
    | Page.FrameImage =>
        (fun f => {| Page.holder := Page.holder f;
                     Page.closeButton := Page.closeButton f;
                     Page.image := g (Page.image f) |}) <$> Page.frame st
    end.
Proof. destruct r; reflexivity. Qed.

Lemma fillPopup_rest st :
  Page.elements (Page.fillPopup st)
  = match Page.getElementById st (js "popUp") with
    | Some (Page.Static k) =>
        alter (Page.set_html Page.popupMarkup) k (Page.elements st)
    | _ => Page.elements st
    end
  /\ Page.scrollListener (Page.fillPopup st) = Page.scrollListener st
  /\ Page.observers (Page.fillPopup st) = Page.observers st
  /\ Page.timers (Page.fillPopup st) = Page.timers st.
Proof.
  unfold Page.fillPopup. destruct (Page.getElementById st _) as [[k| |]|];
    repeat split.
Qed.

Lemma removePopup_rest st :
  Page.frame (Page.removePopup st)
  = match Page.getElementById st (js "popUp") with
    | Some r => Page.frame (Page.update r Page.detach st)
    | None => Page.frame st
    end
  /\ Page.scrollListener (Page.removePopup st) = Page.scrollListener st
  /\ Page.observers (Page.removePopup st) = Page.observers st
  /\ Page.timers (Page.removePopup st) = Page.timers st.
Proof.
  unfold Page.removePopup. destruct (Page.getElementById st _) as [r|];
    [|repeat split].
  destruct (update_rest r Page.detach st) as (-> & -> & ->). repeat split.
Qed.

Lemma initPopup_rest endDate now st :
  Page.elements (Page.initPopup endDate now st) = Page.elements st
  /\ Page.frame (Page.initPopup endDate now st) = Page.frame st
  /\ Page.scrollListener (Page.initPopup endDate now st)
     = Page.scrollListener st
  /\ Page.observers (Page.initPopup endDate now st) = Page.observers st.
Proof. unfold Page.initPopup. destruct (_ <=? _)%Z; repeat split. Qed.

Lemma onPopupImageLoad_rest st st' :
  Page.onPopupImageLoad st = Some st' ->
  Page.scrollListener st' = Page.scrollListener st
  /\ Page.observers st' = Page.observers st.
Proof.
  unfold Page.onPopupImageLoad, Page.secureImage.
  generalize (Page.getElementById st (js "popUpCloseButton")).
  destruct (Page.getElementById st (js "popUpImage")) as [r|];
    [|discriminate].
  intros [r'|] [= <-];
    cbn [Page.setTimeout Page.set_timers Page.scrollListener Page.observers];
    repeat match goal with
           | |- context [Page.scrollListener (Page.update ?a ?b ?c)] =>
               rewrite (proj1 (update_rest a b c))
           | |- context [Page.observers (Page.update ?a ?b ?c)] =>
               rewrite (proj1 (proj2 (update_rest a b c)))
           end; split; reflexivity.
Qed.

Lemma reveal_rest endDate observer now st entry :
  Page.scrollListener (Page.reveal endDate observer now st entry)
  = Page.scrollListener st
  /\ Page.observers (Page.reveal endDate observer now st entry)
     = (if entry.2
        then alter (fun s => s ∖ {[entry.1]}) observer (Page.observers st)
        else Page.observers st).
Proof.
  destruct entry as [target [|]]; cbn [Page.reveal negb fst snd];
    [|split; reflexivity].
  unfold Page.unobserve.
  cbn [Page.set_observers Page.scrollListener Page.observers].
  destruct (bool_decide (Page.id_of st target ∈ Page.BACKGROUND_IMAGE_IDS)).
  - destruct (update_rest (Page.Static target)
                (Page.add_class "background-show") st) as (-> & -> & _).
    split; reflexivity.
  - destruct (bool_decide (Page.id_of st target = js "popUp")).
    + destruct (initPopup_rest endDate now
                  (Page.setTimeout (Page.RemoveHidden target) 3000
                     (Page.update (Page.Static target)
                        (Page.add_class "show") st)))
        as (_ & _ & -> & ->).
      split; reflexivity.
    + split; reflexivity.
Qed.

Lemma callback_rest endDate observer entries now st :
  Page.scrollListener (Page.callback endDate observer entries now st)
  = Page.scrollListener st
  /\ length (Page.observers (Page.callback endDate observer entries now st))
     = length (Page.observers st).
Proof.
  unfold Page.callback. revert st.
  induction entries as [|entry entries IH]; intros st; cbn [foldl];
    [split; reflexivity|].
  destruct (IH (Page.reveal endDate observer now st entry)) as [-> ->].
  destruct (reveal_rest endDate observer now st entry) as [-> ->].
  split; [reflexivity|]. destruct entry.2; [apply length_alter | reflexivity].
Qed.

Lemma runTask_rest task st :
  Page.scrollListener (Page.runTask task st) = Page.scrollListener st
  /\ Page.observers (Page.runTask task st) = Page.observers st.
Proof.
  destruct task as [target| |]; cbn [Page.runTask].
  - split; reflexivity.
  - destruct (fillPopup_rest st) as (_ & -> & -> & _). split; reflexivity.
  - destruct (removePopup_rest st) as (_ & -> & -> & _). split; reflexivity.
Qed.

(** Every event but a scroll leaves the scroll listener and the number
    of observers as they are. *)
Lemma step_rest endDate ev st st' :
  Page.step endDate ev st = Some st' ->
  (forall y, ev <> Page.Scroll y) ->
  Page.scrollListener st' = Page.scrollListener st
  /\ length (Page.observers st') = length (Page.observers st).
Proof.
  destruct ev as [y|observer entries now|i| |]; cbn [Page.step];
    intros Hstep Hev.
  - destruct (Hev y eq_refl).
  - injection Hstep as <-. apply callback_rest.
  - destruct (Page.timers st !! i) as [[d task]|]; injection Hstep as <-;
      [|split; reflexivity].
    destruct (runTask_rest task
                (Page.set_timers (delete i (Page.timers st)) st)) as [-> ->].
    split; reflexivity.
  - destruct (onPopupImageLoad_rest _ _ Hstep) as [-> ->]. split; reflexivity.
  - injection Hstep as <-. unfold Page.closePopUp.
    destruct (removePopup_rest st) as (_ & -> & -> & _). split; reflexivity.
Qed.

Lemma after_snoc endDate evs ev st :
  Page.after endDate (evs ++ [ev]) st
  = default (Page.after endDate evs st)
      (Page.step endDate ev (Page.after endDate evs st)).
Proof. unfold Page.after. rewrite foldl_app. reflexivity. Qed.

(** ** The observer is set up once *)

Lemma foldl_guard_rest (ks : list nat) (st : Page.State) :
  let st' := foldl (fun s k => Page.update (Page.Static k) Page.guard s) st ks in
  Page.frame st' = Page.frame st
  /\ Page.scrollListener st' = Page.scrollListener st
  /\ Page.observers st' = Page.observers st
  /\ Page.timers st' = Page.timers st.
Proof.
  cbv zeta. revert st. induction ks as [|k ks IH]; intros st; cbn [foldl];
    [repeat split|].
  destruct (IH (Page.update (Page.Static k) Page.guard st))
    as (-> & -> & -> & ->).
  repeat split.
Qed.

(** What [initApp] leaves of an untouched page, besides the elements. *)
Lemma initApp_rest year y page st :
  Page.untouched page ->
  Page.initApp year y page = Some st ->
  Page.frame st = None /\ Page.timers st = []
  /\ ((y = 0%Z /\ Page.scrollListener st = None
       /\ length (Page.observers st) = 1%nat)
      \/ (y <> 0%Z /\ (exists els, Page.scrollListener st = Some els)
          /\ Page.observers st = [])).
Proof.
  intros (Hf & Hl & Ho & Ht). unfold Page.initApp, Page.calculateExperience.
  destruct (Page.getElementById page _) as [r|]; [|discriminate].
  intros [= <-]. unfold Page.initIntersectionObserver.
  set (st1 := Page.update r _ page).
  assert (Page.frame st1 = None /\ Page.scrollListener st1 = None
          /\ Page.observers st1 = [] /\ Page.timers st1 = [])
    as (Hf1 & Hl1 & Ho1 & Ht1).
  { subst st1. destruct (update_rest r (Page.set_html
                                          (Page.decimal (year - 2019))) page)
      as (-> & -> & ->).
    rewrite update_frame, Hf. repeat split; try assumption.
    destruct r; reflexivity. }
  destruct (foldl_guard_rest (Page.select Page.is_img st1) st1)
    as (Hf2 & Hl2 & Ho2 & Ht2).
  set (st2 := foldl _ st1 _) in *.
  destruct (Z.eqb_spec y 0) as [->|Hy];
    cbn [Page.setupObserver Page.set_observers Page.set_scrollListener
         Page.frame Page.timers Page.scrollListener Page.observers].
  - rewrite Hf2, Ht2, Hl2, Ho2, Hf1, Ht1, Hl1, Ho1.
    split; [reflexivity|]. split; [reflexivity|]. left. repeat split.
  - rewrite Hf2, Ht2, Ho2, Hf1, Ht1, Ho1.
    split; [reflexivity|]. split; [reflexivity|]. right.
    split; [exact Hy|]. split; [eauto | reflexivity].
Qed.

Lemma after_step_rest endDate ev st :
  (forall y, ev <> Page.Scroll y) ->
  Page.scrollListener (default st (Page.step endDate ev st))
  = Page.scrollListener st
  /\ length (Page.observers (default st (Page.step endDate ev st)))
     = length (Page.observers st).
Proof.
  intros Hev. destruct (Page.step endDate ev st) as [st'|] eqn:Hstep;
    [exact (step_rest _ _ _ _ Hstep Hev) | split; reflexivity].
Qed.

(** However the page is scrolled and whatever else happens: at most one
    observer is ever created, and one is exactly when the page was at its
    top when the script ran or a scroll has brought it there since. *)
Theorem observer_set_up_once (endDate year y : Z) (page st : Page.State)
    (evs : list Page.Event) :
  Page.untouched page ->
  Page.initApp year y page = Some st ->
  (length (Page.observers (Page.after endDate evs st)) <= 1)%nat
  /\ (Page.observers (Page.after endDate evs st) <> [] <->
      y = 0%Z \/ Page.Scroll 0 ∈ evs).
Proof.
  intros Hpage Hinit.
  destruct (initApp_rest _ _ _ _ Hpage Hinit) as (_ & _ & Hstart).
  assert ((exists els, Page.scrollListener (Page.after endDate evs st) = Some els)
          /\ Page.observers (Page.after endDate evs st) = []
          /\ y <> 0%Z /\ Page.Scroll 0 ∉ evs
          \/ Page.scrollListener (Page.after endDate evs st) = None
             /\ length (Page.observers (Page.after endDate evs st)) = 1%nat
             /\ (y = 0%Z \/ Page.Scroll 0 ∈ evs)) as Hinv.
  { induction evs as [|ev evs IH] using rev_ind.
    - cbn. destruct Hstart as [(-> & Hl & Ho)|(Hy & Hl & Ho)].
      + right. auto.
      + left. repeat split; try assumption. apply not_elem_of_nil.
    - rewrite after_snoc. set (s := Page.after endDate evs st) in *.
      assert ((exists y', ev = Page.Scroll y')
              \/ forall y', ev <> Page.Scroll y') as [[y' ->]|Hev]
        by (destruct ev; [left; eauto | right; discriminate..]).
      + cbn [Page.step].
        destruct IH as [([els Hl] & Ho & Hy & Hn)|(Hl & Ho & Hy)];
          rewrite Hl; cbn.
        * unfold Page.handleScrollToTop.
          destruct (Z.eqb_spec y' 0) as [->|Hy'].
          -- right. cbn. rewrite Ho. repeat split.
             right. apply elem_of_app. right. left.
          -- left. split; [eauto|]. split; [exact Ho|].
             split; [exact Hy|]. rewrite elem_of_app.
             intros [Hin|Hin]; [exact (Hn Hin)|].
             apply list_elem_of_singleton in Hin. congruence.
        * right. split; [exact Hl|]. split; [exact Ho|].
          destruct Hy as [Hy|Hy]; [left; exact Hy|].
          right. apply elem_of_app. left. exact Hy.
      + destruct (after_step_rest endDate ev s Hev) as [-> Eo].
        destruct IH as [(Hl & Ho & Hy & Hn)|(Hl & Ho & Hy)].
        * left. split; [exact Hl|].
          split; [apply nil_length_inv; rewrite Eo, Ho; reflexivity|].
          split; [exact Hy|]. rewrite elem_of_app.
          intros [Hin|Hin]; [exact (Hn Hin)|].
          apply list_elem_of_singleton in Hin. destruct (Hev 0%Z).
          congruence.
        * right. split; [exact Hl|]. split; [congruence|].
          destruct Hy as [Hy|Hy]; [left; exact Hy|].
          right. apply elem_of_app. left. exact Hy. }
  destruct Hinv as [(_ & Ho & Hy & Hn)|(_ & Ho & Hy)].
  - rewrite Ho. split; [simpl; lia|]. split; [congruence|].
    intros [?|?]; contradiction.
  - split; [lia|]. split; [intros _; exact Hy|].
    intros _ E. rewrite E in Ho. discriminate.
Qed.

Lemma observer_set_up_once_witness :
  let st := default Sample.page (Page.initApp 2026 480 Sample.page) in
  let evs := [Page.Scroll 200; Page.Scroll 0; Page.Scroll 0] in
  (length (Page.observers (Page.after Sample.endDate evs st)) <= 1)%nat
  /\ (Page.observers (Page.after Sample.endDate evs st) <> [] <->
      480%Z = 0%Z \/ Page.Scroll 0 ∈ evs).
Proof.
  apply (observer_set_up_once Sample.endDate 2026 480 Sample.page).
  - repeat split.
  - vm_compute. reflexivity.
Defined.

(** ** What was revealed is not observed again *)

Lemma reveal_observers endDate observer now st entry k s :
  Page.observers st !! k = Some s ->
  exists s',
    Page.observers (Page.reveal endDate observer now st entry) !! k = Some s'
    /\ s' ⊆ s
    /\ (k = observer -> entry.2 = true -> entry.1 ∉ s').
Proof.
  intros Hk. destruct (reveal_rest endDate observer now st entry) as [_ ->].
  destruct entry as [target [|]]; cbn [fst snd].
  - destruct (decide (observer = k)) as [->|Hne].
    + exists (s ∖ {[target]}). rewrite list_lookup_alter_eq, Hk.
      split; [reflexivity|].
      split; [apply subseteq_difference_l; reflexivity|].
      intros _ _. apply not_elem_of_difference. right.
      apply elem_of_singleton. reflexivity.
    + exists s. rewrite list_lookup_alter_ne by exact Hne.
      split; [exact Hk|]. split; [reflexivity | congruence].
  - exists s. split; [exact Hk|]. split; [reflexivity | discriminate].
Qed.

Lemma callback_observers endDate observer entries now st k s :
  Page.observers st !! k = Some s ->
  exists s',
    Page.observers (Page.callback endDate observer entries now st) !! k
    = Some s'
    /\ s' ⊆ s
    /\ (k = observer ->
        forall target, (target, true) ∈ entries -> target ∉ s').
Proof.
  unfold Page.callback. revert st s.
  induction entries as [|entry entries IH]; intros st s Hk; cbn [foldl].
  - exists s. split; [exact Hk|]. split; [reflexivity|].
    intros _ target Hin. inversion Hin.
  - destruct (reveal_observers endDate observer now st entry k s Hk)
      as (s1 & Hk1 & Hsub1 & Hout1).
    destruct (IH _ _ Hk1) as (s' & Hk' & Hsub' & Hout').
    exists s'. split; [exact Hk'|]. split; [set_solver|].
    intros -> target Hin. apply elem_of_cons in Hin as [<-|Hin].
    + specialize (Hout1 eq_refl eq_refl). cbn [fst] in Hout1. set_solver.
    + exact (Hout' eq_refl target Hin).
Qed.

(** An observer, once created, only loses targets. *)
Lemma step_observers endDate ev st k s :
  Page.observers st !! k = Some s ->
  exists s',
    Page.observers (default st (Page.step endDate ev st)) !! k = Some s'
    /\ s' ⊆ s.
Proof.
  intros Hk.
  assert (forall st', Page.observers st' = Page.observers st ->
                      exists s', Page.observers st' !! k = Some s' /\ s' ⊆ s)
    as Hsame by (intros st' ->; exists s; split; [exact Hk | reflexivity]).
  destruct ev as [y|observer entries now|i| |]; cbn [Page.step].
  - destruct (Page.scrollListener st) as [els|]; cbn; [|eauto].
    unfold Page.handleScrollToTop. destruct (y =? 0)%Z; [|eauto].
    cbn. exists s. split; [|reflexivity].
    apply lookup_app_l_Some. exact Hk.
  - cbn. destruct (callback_observers endDate observer entries now st k s Hk)
      as (s' & Hk' & Hsub & _). eauto.
  - destruct (Page.timers st !! i) as [[d task]|]; cbn; [|eauto].
    apply Hsame.
    exact (proj2 (runTask_rest task
                    (Page.set_timers (delete i (Page.timers st)) st))).
  - destruct (Page.onPopupImageLoad st) as [st'|] eqn:E; cbn; [|eauto].
    apply Hsame. exact (proj2 (onPopupImageLoad_rest _ _ E)).
  - cbn. apply Hsame. exact (proj1 (proj2 (proj2 (removePopup_rest st)))).
Qed.

Lemma after_observers endDate evs st k s :
  Page.observers st !! k = Some s ->
  exists s', Page.observers (Page.after endDate evs st) !! k = Some s'
             /\ s' ⊆ s.
Proof.
  unfold Page.after. revert st s.
  induction evs as [|ev evs IH]; intros st s Hk; cbn [foldl].
  - exists s. split; [exact Hk | reflexivity].
  - destruct (step_observers endDate ev st k s Hk) as (s1 & Hk1 & Hsub1).
    destruct (IH _ _ Hk1) as (s' & Hk' & Hsub'). exists s'.
    split; [exact Hk' | set_solver].
Qed.

(** An element an observer has reported as intersecting is a target of
    that observer no more, whatever happens afterwards; and no observer
    ever gains a target. *)
Theorem revealed_is_unobserved (endDate : Z) (st : Page.State)
    (observer : nat) (entries : list (nat * bool)) (now : Z)
    (evs : list Page.Event) (targets : gset nat) :
  Page.observers st !! observer = Some targets ->
  exists targets',
    Page.observers
      (Page.after endDate (Page.Intersect observer entries now :: evs) st)
    !! observer = Some targets'
    /\ targets' ⊆ targets
    /\ forall target, (target, true) ∈ entries -> target ∉ targets'.
Proof.
  intros Hk. unfold Page.after. cbn [foldl Page.step default].
  destruct (callback_observers endDate observer entries now st observer
              targets Hk) as (s1 & Hk1 & Hsub1 & Hout1).
  change (from_option id st (Some ?x)) with x.
  destruct (after_observers endDate evs _ observer s1 Hk1)
    as (s' & Hk' & Hsub').
  exists s'. split; [exact Hk'|]. split; [set_solver|].
  intros target Hin. specialize (Hout1 eq_refl target Hin). set_solver.
Qed.

Lemma revealed_is_unobserved_witness :
  let st := default Sample.page (Page.initApp 2026 0 Sample.page) in
  exists targets',
    Page.observers
      (Page.after Sample.endDate
         [Page.Intersect 0 [(2%nat, true); (3%nat, false)] Sample.march;
          Page.Timeout 0; Page.Scroll 0] st)
    !! 0%nat = Some targets'
    /\ targets' ⊆ {[1%nat; 2%nat; 3%nat]}
    /\ forall target,
        (target, true) ∈ [(2%nat, true); (3%nat, false)] -> target ∉ targets'.
Proof.
  apply (revealed_is_unobserved Sample.endDate
           (default Sample.page (Page.initApp 2026 0 Sample.page)) 0%nat
           [(2%nat, true); (3%nat, false)] Sample.march
           [Page.Timeout 0; Page.Scroll 0] {[1%nat; 2%nat; 3%nat]}).
  vm_compute. reflexivity.
Defined.

(** ** What the elements keep *)

Lemma became_refl e : became e e.
Proof. repeat split; auto. Qed.

Lemma became_trans e1 e2 e3 : became e1 e2 -> became e2 e3 -> became e1 e3.
Proof.
  intros (T1 & I1 & G1 & A1) (T2 & I2 & G2 & A2).
  repeat split; [congruence | congruence | auto | auto].
Qed.

Lemma gentle_add_class c : gentle (Page.add_class c).
Proof. intros e. repeat split; auto. Qed.

Lemma gentle_remove_class c : gentle (Page.remove_class c).
Proof. intros e. repeat split; auto. Qed.

Lemma gentle_guard : gentle Page.guard.
Proof. intros e. repeat split; auto. Qed.

Lemma gentle_set_html h : gentle (Page.set_html h).
Proof. intros e. repeat split; auto. Qed.

Lemma gentle_detach : gentle Page.detach.
Proof. intros e. repeat split; auto. discriminate. Qed.

Create HintDb page.
#[local] Hint Resolve gentle_add_class gentle_remove_class gentle_guard
  gentle_set_html gentle_detach : page.

Lemma update_became r g st l :
  gentle g ->
  Forall2 became l (Page.elements st) ->
  Forall2 became l (Page.elements (Page.update r g st)).
Proof.
  intros Hg Hl. rewrite update_elements. destruct r as [k| |]; try exact Hl.
  apply Forall2_alter_r; [exact Hl|].
  intros x y _ _ Hxy. exact (became_trans _ _ _ Hxy (Hg y)).
Qed.

Lemma foldl_guard_became ks st l :
  Forall2 became l (Page.elements st) ->
  Forall2 became l
    (Page.elements
       (foldl (fun s k => Page.update (Page.Static k) Page.guard s) st ks)).
Proof.
  revert st. induction ks as [|k ks IH]; intros st Hl; cbn [foldl];
    [exact Hl|].
  apply IH. apply update_became; auto with page.
Qed.

Lemma removePopup_became st l :
  Forall2 became l (Page.elements st) ->
  Forall2 became l (Page.elements (Page.removePopup st)).
Proof.
  intros Hl. unfold Page.removePopup.
  destruct (Page.getElementById st _) as [r|]; [|exact Hl].
  apply update_became; auto with page.
Qed.

Lemma reveal_became endDate observer now st entry l :
  Forall2 became l (Page.elements st) ->
  Forall2 became l
    (Page.elements (Page.reveal endDate observer now st entry)).
Proof.
  intros Hl. destruct entry as [target [|]]; cbn [Page.reveal negb];
    [|exact Hl].
  unfold Page.unobserve. cbn [Page.set_observers Page.elements].
  destruct (bool_decide _); [apply update_became; auto with page|].
  destruct (bool_decide _).
  - rewrite (proj1 (initPopup_rest _ _ _)). cbn [Page.setTimeout
      Page.set_timers Page.elements]. apply update_became; auto with page.
  - cbn [Page.setTimeout Page.set_timers Page.elements].
    apply update_became; auto with page.
Qed.

Lemma callback_became endDate observer entries now st l :
  Forall2 became l (Page.elements st) ->
  Forall2 became l
    (Page.elements (Page.callback endDate observer entries now st)).
Proof.
  unfold Page.callback. revert st.
  induction entries as [|entry entries IH]; intros st Hl; cbn [foldl];
    [exact Hl|].
  apply IH. apply reveal_became. exact Hl.
Qed.

Lemma onPopupImageLoad_became st st' l :
  Page.onPopupImageLoad st = Some st' ->
  Forall2 became l (Page.elements st) ->
  Forall2 became l (Page.elements st').
Proof.
  unfold Page.onPopupImageLoad, Page.secureImage.
  generalize (Page.getElementById st (js "popUpCloseButton")).
  destruct (Page.getElementById st (js "popUpImage")) as [r|];
    [|discriminate].
  intros [r'|] [= <-] Hl;
    cbn [Page.setTimeout Page.set_timers Page.elements];
    repeat apply update_became; auto with page.
Qed.

Lemma fillPopup_became st l :
  Forall2 became l (Page.elements st) ->
  Forall2 became l (Page.elements (Page.fillPopup st)).
Proof.
  intros Hl. unfold Page.fillPopup.
  destruct (Page.getElementById st _) as [[k| |]|]; try exact Hl.
  cbn [Page.set_frame Page.elements].
  apply update_became; auto with page.
Qed.

(** Whatever happens, an element keeps its tag and its id, stays guarded
    once guarded, and does not come back once removed. *)
Lemma step_became endDate ev st l :
  Forall2 became l (Page.elements st) ->
  Forall2 became l (Page.elements (default st (Page.step endDate ev st))).
Proof.
  intros Hl. destruct ev as [y|observer entries now|i| |]; cbn [Page.step].
  - destruct (Page.scrollListener st) as [els|]; cbn; [|exact Hl].
    unfold Page.handleScrollToTop. destruct (y =? 0)%Z; exact Hl.
  - cbn. apply callback_became. exact Hl.
  - destruct (Page.timers st !! i) as [[d [target| |]]|];
      cbn [from_option id Page.runTask]; try exact Hl.
    + apply update_became; auto with page.
    + apply fillPopup_became. exact Hl.
    + apply removePopup_became. exact Hl.
  - destruct (Page.onPopupImageLoad st) as [st'|] eqn:E; cbn; [|exact Hl].
    exact (onPopupImageLoad_became _ _ _ E Hl).
  - cbn. apply removePopup_became. exact Hl.
Qed.

Lemma after_became endDate evs st l :
  Forall2 became l (Page.elements st) ->
  Forall2 became l (Page.elements (Page.after endDate evs st)).
Proof.
  unfold Page.after. revert st.
  induction evs as [|ev evs IH]; intros st Hl; cbn [foldl]; [exact Hl|].
  apply IH. apply step_became. exact Hl.
Qed.

Lemma became_all_refl (l : list Page.Element) : Forall2 became l l.
Proof. induction l; constructor; [apply became_refl | assumption]. Qed.

Lemma initApp_became year y page st :
  Page.initApp year y page = Some st ->
  Forall2 became (Page.elements page) (Page.elements st).
Proof.
  unfold Page.initApp, Page.calculateExperience.
  destruct (Page.getElementById page _) as [r|]; [|discriminate].
  intros [= <-]. unfold Page.initIntersectionObserver.
  assert (forall s, Page.elements
                      (if (y =? 0)%Z
                       then Page.setupObserver
                              (Page.select Page.is_hidden s) s
                       else Page.set_scrollListener
                              (Some (Page.select Page.is_hidden s)) s)
                    = Page.elements s) as ->
    by (intros s; destruct (y =? 0)%Z; reflexivity).
  apply foldl_guard_became. apply update_became; auto with page.
  apply became_all_refl.
Qed.

(** ** Images are guarded *)

Lemma update_static_frame k g st :
  frame_kept st -> frame_kept (Page.update (Page.Static k) g st).
Proof. intros Hf. exact Hf. Qed.

(** A change to an element of the frame that keeps its id, keeps it
    guarded and does not fade it in. *)
Lemma update_frame_kept r g st :
  gentle g ->
  (r = Page.FrameImage ->
   forall e, "imgFadeIn"%string ∈ Page.classList (g e) ->
             "imgFadeIn"%string ∈ Page.classList e
             \/ Page.guarded (g e) = true) ->
  frame_kept st -> frame_kept (Page.update r g st).
Proof.
  intros Hg Hfade Hf. destruct r as [k| |]; [exact Hf| |];
    intros f'; cbn [Page.update Page.on_frame Page.set_frame Page.frame];
    destruct (Page.frame st) as [f|] eqn:E; try discriminate;
    intros [= <-]; cbn [Page.closeButton Page.image];
    destruct (Hf f E) as (Ib & Ii & Hgd);
    destruct (Hg (Page.closeButton f)) as (_ & Ib' & _);
    destruct (Hg (Page.image f)) as (_ & Ii' & Gi & _).
  - split; [congruence|]. split; [exact Ii | exact Hgd].
  - split; [exact Ib|]. split; [congruence|].
    intros Hin. destruct (Hfade eq_refl _ Hin) as [Hin'|Hgd']; auto.
Qed.

Lemma fade_other c e :
  c <> "imgFadeIn"%string ->
  "imgFadeIn"%string ∈ Page.classList (Page.add_class c e) ->
  "imgFadeIn"%string ∈ Page.classList e
  \/ Page.guarded (Page.add_class c e) = true.
Proof.
  intros Hc Hin. left. cbn in Hin. apply elem_of_union in Hin as [Hin|Hin];
    [exact Hin|]. apply elem_of_singleton in Hin. congruence.
Qed.

Lemma removePopup_frame_kept st :
  frame_kept st -> frame_kept (Page.removePopup st).
Proof.
  intros Hf. unfold Page.removePopup.
  destruct (Page.getElementById st _) as [r|]; [|exact Hf].
  apply update_frame_kept;
    [auto with page | intros _ e Hin; left; exact Hin | exact Hf].
Qed.

Lemma fillPopup_frame_kept st :
  frame_kept st -> frame_kept (Page.fillPopup st).
Proof.
  intros Hf. unfold Page.fillPopup.
  destruct (Page.getElementById st _) as [[k| |]|]; try exact Hf.
  intros f [= <-]. cbn. split; [reflexivity|]. split; [reflexivity|].
  intros Hin. apply elem_of_singleton in Hin. discriminate.
Qed.

Lemma reveal_frame endDate observer now st entry :
  Page.frame (Page.reveal endDate observer now st entry) = Page.frame st.
Proof.
  destruct entry as [target [|]]; cbn [Page.reveal negb]; [|reflexivity].
  unfold Page.unobserve. cbn [Page.set_observers Page.frame].
  destruct (bool_decide _); [reflexivity|].
  destruct (bool_decide _); [|reflexivity].
  rewrite (proj1 (proj2 (initPopup_rest _ _ _))). reflexivity.
Qed.

Lemma callback_frame endDate observer entries now st :
  Page.frame (Page.callback endDate observer entries now st) = Page.frame st.
Proof.
  unfold Page.callback. revert st.
  induction entries as [|entry entries IH]; intros st; cbn [foldl];
    [reflexivity|].
  rewrite IH. apply reveal_frame.
Qed.

Lemma onPopupImageLoad_frame_kept st st' :
  Page.onPopupImageLoad st = Some st' -> frame_kept st -> frame_kept st'.
Proof.
  unfold Page.onPopupImageLoad, Page.secureImage.
  generalize (Page.getElementById st (js "popUpCloseButton")).
  destruct (Page.getElementById st (js "popUpImage")) as [r|];
    [|discriminate].
  intros b [= <-] Hf.
  assert (frame_kept (Page.update r (Page.add_class "imgFadeIn")
                        (Page.update r Page.guard st))) as Hf2.
  { destruct r as [k| |].
    - exact Hf.
    - apply update_frame_kept; [auto with page | discriminate |].
      apply update_frame_kept;
        [auto with page | intros _ e Hin; right; reflexivity | exact Hf].
    - intros f'. cbn [Page.update Page.on_frame Page.set_frame Page.frame].
      destruct (Page.frame st) as [f|] eqn:E; [|discriminate].
      intros [= <-]. cbn. destruct (Hf f E) as (Ib & Ii & _).
      split; [exact Ib|]. split; [exact Ii | reflexivity]. }
  destruct b as [r'|];
    change (Page.frame (Page.setTimeout ?t ?d ?s)) with (Page.frame s);
    [|exact Hf2].
  intros f. cbn [Page.setTimeout Page.set_timers Page.frame].
  revert f. apply update_frame_kept;
    [auto with page | intros _ e; apply fade_other; discriminate | exact Hf2].
Qed.

Lemma step_frame_kept endDate ev st :
  frame_kept st -> frame_kept (default st (Page.step endDate ev st)).
Proof.
  intros Hf. destruct ev as [y|observer entries now|i| |]; cbn [Page.step].
  - destruct (Page.scrollListener st) as [els|]; cbn; [|exact Hf].
    unfold Page.handleScrollToTop. destruct (y =? 0)%Z; exact Hf.
  - cbn [from_option id]. intros f. rewrite callback_frame. apply Hf.
  - destruct (Page.timers st !! i) as [[d [target| |]]|];
      cbn [from_option id Page.runTask]; try exact Hf.
    + apply fillPopup_frame_kept. exact Hf.
    + apply removePopup_frame_kept. exact Hf.
  - destruct (Page.onPopupImageLoad st) as [st'|] eqn:E; cbn; [|exact Hf].
    exact (onPopupImageLoad_frame_kept _ _ E Hf).
  - cbn. apply removePopup_frame_kept. exact Hf.
Qed.

Lemma after_frame_kept endDate evs st :
  frame_kept st -> frame_kept (Page.after endDate evs st).
Proof.
  unfold Page.after. revert st.
  induction evs as [|ev evs IH]; intros st Hf; cbn [foldl]; [exact Hf|].
  apply IH. apply step_frame_kept. exact Hf.
Qed.

Lemma foldl_guard_guards ks st k e :
  k ∈ ks -> Page.elements st !! k = Some e ->
  exists e',
    Page.elements
      (foldl (fun s j => Page.update (Page.Static j) Page.guard s) st ks)
    !! k = Some e'
    /\ Page.guarded e' = true.
Proof.
  revert st e. induction ks as [|j ks IH]; intros st e Hin Hk;
    [inversion Hin|]. cbn [foldl].
  destruct (decide (k = j)) as [->|Hne].
  - pose proof (foldl_guard_became ks
                  (Page.update (Page.Static j) Page.guard st)
                  _ (became_all_refl _)) as Hall.
    assert (Page.elements (Page.update (Page.Static j) Page.guard st) !! j
            = Some (Page.guard e)) as Hj
      by (cbn; rewrite list_lookup_alter_eq, Hk; reflexivity).
    destruct (Forall2_lookup_l _ _ _ _ _ Hall Hj) as (e' & He' & (_ & _ & G & _)).
    exists e'. split; [exact He' | apply G; reflexivity].
  - apply elem_of_cons in Hin as [?|Hin]; [contradiction|].
    apply (IH _ e Hin). cbn. rewrite list_lookup_alter_ne by congruence.
    exact Hk.
Qed.

Lemma select_spec p st k :
  k ∈ Page.select p st <->
  exists e, Page.elements st !! k = Some e
            /\ Page.attached e = true /\ p e = true.
Proof.
  unfold Page.select. rewrite list_elem_of_In, filter_In, in_seq. split.
  - intros [_ Hk]. destruct (Page.elements st !! k) as [e|]; [|discriminate].
    apply andb_true_iff in Hk. exists e. split; [reflexivity | exact Hk].
  - intros (e & Hk & Ha & Hp). rewrite Hk, Ha, Hp.
    split; [|reflexivity]. apply lookup_lt_Some in Hk. lia.
Qed.

(** Every image that is in the document when [initApp] runs is guarded
    from then on, whatever happens to the page; and the image of the popup
    is guarded whenever it has been faded in. *)
Theorem images_stay_guarded (endDate year y : Z) (page st : Page.State)
    (evs : list Page.Event) :
  Page.untouched page ->
  Page.initApp year y page = Some st ->
  (forall k e,
      Page.elements page !! k = Some e ->
      Page.attached e = true -> Page.tag e = "img"%string ->
      exists e', Page.elements (Page.after endDate evs st) !! k = Some e'
                 /\ Page.guarded e' = true)
  /\ (forall f, Page.frame (Page.after endDate evs st) = Some f ->
                "imgFadeIn"%string ∈ Page.classList (Page.image f) ->
                Page.guarded (Page.image f) = true).
Proof.
  intros Hpage Hinit. split.
  - intros k e Hk Ha Ht. revert Hinit.
    unfold Page.initApp, Page.calculateExperience.
    destruct (Page.getElementById page _) as [r|]; [|discriminate].
    intros [= <-]. set (st1 := Page.update r _ page).
    assert (exists e1, Page.elements st1 !! k = Some e1
                       /\ Page.attached e1 = true
                       /\ Page.is_img e1 = true) as (e1 & Hk1 & Ha1 & Hi1).
    { subst st1. rewrite update_elements. destruct r as [j| |];
        try (exists e; split; [exact Hk|]; split; [exact Ha|];
             unfold Page.is_img; rewrite Ht; reflexivity).
      destruct (decide (j = k)) as [->|Hne].
      - eexists. rewrite list_lookup_alter_eq, Hk. split; [reflexivity|].
        split; [exact Ha|]. unfold Page.is_img. cbn. rewrite Ht. reflexivity.
      - exists e. rewrite list_lookup_alter_ne by exact Hne.
        split; [exact Hk|]. split; [exact Ha|].
        unfold Page.is_img. rewrite Ht. reflexivity. }
    assert (k ∈ Page.select Page.is_img st1) as Hsel
      by (apply select_spec; eauto).
    destruct (foldl_guard_guards _ st1 k e1 Hsel Hk1) as (e2 & Hk2 & G2).
    set (st2 := foldl _ st1 _) in *.
    assert (Page.elements (Page.initIntersectionObserver
                             (Page.select Page.is_hidden st2) y st2)
            = Page.elements st2) as Hel
      by (unfold Page.initIntersectionObserver; destruct (y =? 0)%Z;
          reflexivity).
    pose proof (after_became endDate evs
                  (Page.initIntersectionObserver
                     (Page.select Page.is_hidden st2) y st2)
                  _ (became_all_refl _)) as Hall.
    rewrite Hel in Hall at 1.
    destruct (Forall2_lookup_l _ _ _ _ _ Hall Hk2)
      as (e' & He' & (_ & _ & G & _)).
    exists e'. split; [exact He' | exact (G G2)].
  - intros f Hf Hin.
    destruct (initApp_rest _ _ _ _ Hpage Hinit) as (Hfr & _).
    assert (frame_kept st) as Hkept by (intros f'; rewrite Hfr; discriminate).
    exact (proj2 (proj2 (after_frame_kept endDate evs st Hkept f Hf)) Hin).
Qed.

Lemma images_stay_guarded_witness :
  let st := default Sample.page (Page.initApp 2026 0 Sample.page) in
  let evs := [Page.Intersect 0 [(3%nat, true)] Sample.march; Page.Timeout 1;
              Page.ImageLoaded; Page.CloseClicked] in
  (forall k e,
      Page.elements Sample.page !! k = Some e ->
      Page.attached e = true -> Page.tag e = "img"%string ->
      exists e', Page.elements (Page.after Sample.endDate evs st) !! k
                 = Some e'
                 /\ Page.guarded e' = true)
  /\ (forall f, Page.frame (Page.after Sample.endDate evs st) = Some f ->
                "imgFadeIn"%string ∈ Page.classList (Page.image f) ->
                Page.guarded (Page.image f) = true).
Proof.
  apply (images_stay_guarded Sample.endDate 2026 0 Sample.page).
  - repeat split.
  - vm_compute. reflexivity.
Defined.

(** ** Looking an element up *)

Lemma position_Some p l k :
  Page.position p l = Some k -> exists e, l !! k = Some e /\ p e = true.
Proof.
  revert k. induction l as [|e l IH]; intros k; cbn; [discriminate|].
  destruct (p e) eqn:E.
  - intros [= <-]. exists e. split; [reflexivity | exact E].
  - destruct (Page.position p l) as [j|]; cbn; [|discriminate].
    intros [= <-]. exact (IH j eq_refl).
Qed.

Lemma position_None p l :
  Page.position p l = None <-> forall k e, l !! k = Some e -> p e = false.
Proof.
  induction l as [|e l IH]; cbn.
  - split; [intros _ k e' H; destruct k; discriminate | reflexivity].
  - destruct (p e) eqn:E.
    + split; [discriminate|]. intros H. specialize (H 0%nat e eq_refl).
      congruence.
    + destruct (Page.position p l) as [j|]; cbn.
      * split; [discriminate|]. intros H.
        assert (Some j = None) as [=].
        apply (proj2 IH). intros k e' Hk. exact (H (S k) e' Hk).
      * split; [|reflexivity]. intros _ [|k] e' Hk.
        -- injection Hk as <-. exact E.
        -- exact (proj1 IH eq_refl k e' Hk).
Qed.

Lemma getElementById_Static st i k :
  Page.getElementById st i = Some (Page.Static k) ->
  Page.position (Page.has_id i) (Page.elements st) = Some k.
Proof.
  unfold Page.getElementById. destruct (Page.position _ _) as [j|];
    [congruence|].
  destruct (Page.frame st) as [f|]; [|discriminate].
  destruct (Page.frame_attached st f); [|discriminate].
  destruct (bool_decide _); [discriminate|].
  destruct (bool_decide _); discriminate.
Qed.

(** ** What the events leave to an element *)

Section Evolution.

Variable R : Page.Element -> Page.Element -> Prop.
Hypothesis R_trans : forall e1 e2 e3, R e1 e2 -> R e2 e3 -> R e1 e3.
Hypothesis R_guard : forall e, R e (Page.guard e).
Hypothesis R_detach : forall e, R e (Page.detach e).
Hypothesis R_add :
  forall c e, c <> "show"%string -> R e (Page.add_class c e).
Hypothesis R_show :
  forall e, Page.el_id e ∉ Page.BACKGROUND_IMAGE_IDS ->
            R e (Page.add_class "show" e).
Hypothesis R_unhide : forall e, R e (Page.remove_class "hidden" e).
Hypothesis R_fill :
  forall e, Page.el_id e = js "popUp" ->
            R e (Page.set_html Page.popupMarkup e).

Lemma update_static_rel k g st l :
  (forall e, Page.elements st !! k = Some e -> R e (g e)) ->
  Forall2 R l (Page.elements st) ->
  Forall2 R l (Page.elements (Page.update (Page.Static k) g st)).
Proof.
  intros Hg Hl. cbn. apply Forall2_alter_r; [exact Hl|].
  intros x y _ Hy Hxy. exact (R_trans _ _ _ Hxy (Hg y Hy)).
Qed.

Lemma update_rel r g st l :
  (forall e, R e (g e)) ->
  Forall2 R l (Page.elements st) ->
  Forall2 R l (Page.elements (Page.update r g st)).
Proof.
  intros Hg Hl. destruct r as [k| |]; try (rewrite update_elements; exact Hl).
  apply update_static_rel; auto.
Qed.

Lemma removePopup_rel st l :
  Forall2 R l (Page.elements st) ->
  Forall2 R l (Page.elements (Page.removePopup st)).
Proof.
  intros Hl. unfold Page.removePopup.
  destruct (Page.getElementById st _) as [r|]; [|exact Hl].
  apply update_rel; auto.
Qed.

Lemma fillPopup_rel st l :
  Forall2 R l (Page.elements st) ->
  Forall2 R l (Page.elements (Page.fillPopup st)).
Proof.
  intros Hl. unfold Page.fillPopup.
  destruct (Page.getElementById st _) as [[k| |]|] eqn:Eg; try exact Hl.
  cbn [Page.set_frame Page.elements].
  apply update_static_rel; [|exact Hl]. intros e He. apply R_fill.
  apply getElementById_Static in Eg.
  destruct (position_Some _ _ _ Eg) as (e0 & He0 & Hid).
  rewrite He in He0. injection He0 as <-.
  apply andb_true_iff in Hid as [_ Hid].
  apply bool_decide_eq_true in Hid. exact Hid.
Qed.

Lemma reveal_rel endDate observer now st entry l :
  Forall2 R l (Page.elements st) ->
  Forall2 R l (Page.elements (Page.reveal endDate observer now st entry)).
Proof.
  intros Hl. destruct entry as [target [|]]; cbn [Page.reveal negb];
    [|exact Hl].
  unfold Page.unobserve. cbn [Page.set_observers Page.elements].
  destruct (bool_decide (Page.id_of st target ∈ _)) eqn:Ebg.
  - apply update_rel; [|exact Hl]. intros e. apply R_add. discriminate.
  - apply bool_decide_eq_false in Ebg.
    assert (Forall2 R l
              (Page.elements
                 (Page.update (Page.Static target) (Page.add_class "show")
                    st))) as Hl'.
    { apply update_static_rel; [|exact Hl]. intros e He. apply R_show.
      unfold Page.id_of in Ebg. rewrite He in Ebg. exact Ebg. }
    destruct (bool_decide _); [|exact Hl'].
    rewrite (proj1 (initPopup_rest _ _ _)). exact Hl'.
Qed.

Lemma callback_rel endDate observer entries now st l :
  Forall2 R l (Page.elements st) ->
  Forall2 R l
    (Page.elements (Page.callback endDate observer entries now st)).
Proof.
  unfold Page.callback. revert st.
  induction entries as [|entry entries IH]; intros st Hl; cbn [foldl];
    [exact Hl|].
  apply IH. apply reveal_rel. exact Hl.
Qed.

Lemma onPopupImageLoad_rel st st' l :
  Page.onPopupImageLoad st = Some st' ->
  Forall2 R l (Page.elements st) ->
  Forall2 R l (Page.elements st').
Proof.
  unfold Page.onPopupImageLoad, Page.secureImage.
  generalize (Page.getElementById st (js "popUpCloseButton")).
  destruct (Page.getElementById st (js "popUpImage")) as [r|];
    [|discriminate].
  intros [r'|] [= <-] Hl;
    cbn [Page.setTimeout Page.set_timers Page.elements];
    repeat (apply update_rel;
            [first [exact R_guard | intros e; apply R_add; discriminate]|]);
    exact Hl.
Qed.

Lemma step_rel endDate ev st l :
  Forall2 R l (Page.elements st) ->
  Forall2 R l (Page.elements (default st (Page.step endDate ev st))).
Proof.
  intros Hl. destruct ev as [y|observer entries now|i| |]; cbn [Page.step].
  - destruct (Page.scrollListener st) as [els|]; cbn; [|exact Hl].
    unfold Page.handleScrollToTop. destruct (y =? 0)%Z; exact Hl.
  - cbn. apply callback_rel. exact Hl.
  - destruct (Page.timers st !! i) as [[d [target| |]]|];
      cbn [from_option id Page.runTask]; try exact Hl.
    + apply update_rel; [exact R_unhide | exact Hl].
    + apply fillPopup_rel. exact Hl.
    + apply removePopup_rel. exact Hl.
  - destruct (Page.onPopupImageLoad st) as [st'|] eqn:E; cbn; [|exact Hl].
    exact (onPopupImageLoad_rel _ _ _ E Hl).
  - cbn. apply removePopup_rel. exact Hl.
Qed.

Lemma after_rel endDate evs st l :
  Forall2 R l (Page.elements st) ->
  Forall2 R l (Page.elements (Page.after endDate evs st)).
Proof.
  unfold Page.after. revert st.
  induction evs as [|ev evs IH]; intros st Hl; cbn [foldl]; [exact Hl|].
  apply IH. apply step_rel. exact Hl.
Qed.

Lemma foldl_guard_rel ks st l :
  Forall2 R l (Page.elements st) ->
  Forall2 R l
    (Page.elements
       (foldl (fun s k => Page.update (Page.Static k) Page.guard s) st ks)).
Proof.
  revert st. induction ks as [|k ks IH]; intros st Hl; cbn [foldl];
    [exact Hl|].
  apply IH. apply update_rel; auto.
Qed.

End Evolution.

Lemma all_refl {A} (R : A -> A -> Prop) (l : list A) :
  (forall x, R x x) -> Forall2 R l l.
Proof. intros HR. induction l; constructor; auto. Qed.

Lemma same_html_trans e1 e2 e3 :
  same_html e1 e2 -> same_html e2 e3 -> same_html e1 e3.
Proof.
  intros (I1 & C1) (I2 & C2). split; [congruence|].
  destruct C2 as [C2|[P2 C2]].
  - destruct C1 as [C1|[P1 C1]]; [left; congruence|].
    right. split; [exact P1 | congruence].
  - right. split; [congruence | exact C2].
Qed.

Lemma after_same_html endDate evs st :
  Forall2 same_html (Page.elements st)
    (Page.elements (Page.after endDate evs st)).
Proof.
  apply after_rel; try exact same_html_trans; unfold same_html;
    try (intros; split; [reflexivity | left; reflexivity]).
  - intros e Hid. split; [reflexivity|]. right.
    split; [exact Hid | reflexivity].
  - apply all_refl. intros e. split; [reflexivity | left; reflexivity].
Qed.

Lemma after_not_shown endDate evs st :
  Forall2 not_shown (Page.elements st)
    (Page.elements (Page.after endDate evs st)).
Proof.
  apply after_rel.
  - intros e1 e2 e3 (I1 & S1) (I2 & S2). split; [congruence|].
    intros Hbg Hin. apply S1; [exact Hbg|]. apply S2; [|exact Hin].
    rewrite I1. exact Hbg.
  - intros e. split; auto.
  - intros e. split; auto.
  - intros c e Hc. split; [reflexivity|]. intros _ Hin. cbn in Hin.
    apply elem_of_union in Hin as [Hin|Hin]; [exact Hin|].
    apply elem_of_singleton in Hin. congruence.
  - intros e Hbg. split; [reflexivity|]. intros Hbg'. contradiction.
  - intros e. split; [reflexivity|]. intros _ Hin. cbn in Hin.
    apply elem_of_difference in Hin as [Hin _]. exact Hin.
  - intros e _. split; auto.
  - apply all_refl. intros e. split; auto.
Qed.

Lemma after_keeps_class c endDate evs st :
  c <> "hidden"%string ->
  Forall2 (keeps_class c) (Page.elements st)
    (Page.elements (Page.after endDate evs st)).
Proof.
  intros Hc. apply after_rel; unfold keeps_class.
  - auto.
  - auto.
  - auto.
  - intros c' e _ Hin. cbn. apply elem_of_union. left. exact Hin.
  - intros e _ Hin. cbn. apply elem_of_union. left. exact Hin.
  - intros e Hin. cbn. apply elem_of_difference. split; [exact Hin|].
    intros Hh. apply elem_of_singleton in Hh. contradiction.
  - intros e _ Hin. exact Hin.
  - apply all_refl. auto.
Qed.

(** ** How an element is revealed *)

(** A background image never gets the class [show], whatever happens to the
    page. *)
Theorem background_images_never_shown (endDate : Z) (evs : list Page.Event)
    (st : Page.State) (k : nat) (e : Page.Element) :
  Page.elements st !! k = Some e ->
  Page.el_id e ∈ Page.BACKGROUND_IMAGE_IDS ->
  "show"%string ∉ Page.classList e ->
  exists e', Page.elements (Page.after endDate evs st) !! k = Some e'
             /\ "show"%string ∉ Page.classList e'.
Proof.
  intros Hk Hbg Hno.
  destruct (Forall2_lookup_l _ _ _ _ _ (after_not_shown endDate evs st) Hk)
    as (e' & He' & _ & Hshow).
  exists e'. split; [exact He'|]. intros Hin. exact (Hno (Hshow Hbg Hin)).
Qed.

Lemma background_images_never_shown_witness :
  exists e',
    Page.elements
      (Page.after Sample.endDate
         [Page.Intersect 0 [(1%nat, true); (2%nat, true)] Sample.march;
          Page.Timeout 0]
         (default Sample.page (Page.initApp 2026 0 Sample.page)))
    !! 1%nat = Some e'
    /\ "show"%string ∉ Page.classList e'.
Proof.
  apply (background_images_never_shown Sample.endDate _ _ 1%nat
           (Page.guard
              (Sample.el "img" "sd-background-image" ["background-hidden"%string]))).
  - vm_compute. reflexivity.
  - vm_compute. apply list_elem_of_here.
  - cbn [Page.guard Sample.el Page.classList]. intros Hin.
    apply elem_of_list_to_set, list_elem_of_In in Hin.
    destruct Hin as [[=]|[]].
Defined.

Lemma after_app endDate evs1 evs2 st :
  Page.after endDate (evs1 ++ evs2) st
  = Page.after endDate evs2 (Page.after endDate evs1 st).
Proof. unfold Page.after. apply foldl_app. Qed.

Lemma after_intersect endDate observer pre entry post now evs st :
  Page.after endDate
    (Page.Intersect observer (pre ++ entry :: post) now :: evs) st
  = Page.after endDate (Page.Intersect observer post now :: evs)
      (Page.reveal endDate observer now
         (Page.after endDate [Page.Intersect observer pre now] st) entry).
Proof.
  unfold Page.after. cbn [foldl Page.step default from_option id].
  unfold Page.callback. rewrite foldl_app. reflexivity.
Qed.

Lemma reveal_adds endDate observer now st k e :
  Page.elements st !! k = Some e ->
  exists e',
    Page.elements (Page.reveal endDate observer now st (k, true)) !! k
    = Some e'
    /\ revealed_class e ∈ Page.classList e'.
Proof.
  intros Hk. cbn [Page.reveal negb]. unfold Page.unobserve, revealed_class.
  cbn [Page.set_observers Page.elements].
  assert (Page.id_of st k = Page.el_id e) as ->
    by (unfold Page.id_of; rewrite Hk; reflexivity).
  destruct (bool_decide (Page.el_id e ∈ _)).
  - exists (Page.add_class "background-show" e). split.
    + cbn. rewrite list_lookup_alter_eq, Hk. reflexivity.
    + cbn. apply elem_of_union. right. apply elem_of_singleton. reflexivity.
  - exists (Page.add_class "show" e). split.
    + destruct (bool_decide _);
        [rewrite (proj1 (initPopup_rest _ _ _))|];
        cbn; rewrite list_lookup_alter_eq, Hk; reflexivity.
    + cbn. apply elem_of_union. right. apply elem_of_singleton. reflexivity.
Qed.

(** An element that comes into view gets its class, [background-show] for
    a background image and [show] for any other element, and keeps it
    whatever happens next. *)
Theorem revealed_for_good (endDate : Z) (evs1 evs2 : list Page.Event)
    (observer : nat) (entries : list (nat * bool)) (now : Z)
    (st : Page.State) (k : nat) (e : Page.Element) :
  Page.elements st !! k = Some e ->
  (k, true) ∈ entries ->
  exists e',
    Page.elements
      (Page.after endDate
         (evs1 ++ Page.Intersect observer entries now :: evs2) st)
    !! k = Some e'
    /\ revealed_class e ∈ Page.classList e'.
Proof.
  intros Hk Hin. apply list_elem_of_split in Hin as (pre & post & ->).
  rewrite after_app, after_intersect, <- after_app.
  set (st2 := Page.after endDate
                (evs1 ++ [Page.Intersect observer pre now]) st).
  destruct (Forall2_lookup_l _ _ _ _ _
              (after_became endDate
                 (evs1 ++ [Page.Intersect observer pre now]) st
                 _ (became_all_refl _)) Hk)
    as (e2 & Hk2 & _ & Hid & _).
  fold st2 in Hk2.
  destruct (reveal_adds endDate observer now st2 k e2 Hk2)
    as (e3 & Hk3 & Hc3).
  assert (revealed_class e2 = revealed_class e) as Hrc
    by (unfold revealed_class; rewrite Hid; reflexivity).
  rewrite Hrc in Hc3.
  assert (revealed_class e <> "hidden"%string) as Hne
    by (unfold revealed_class; destruct (bool_decide _); discriminate).
  destruct (Forall2_lookup_l _ _ _ _ _
              (after_keeps_class _ endDate
                 (Page.Intersect observer post now :: evs2)
                 (Page.reveal endDate observer now st2 (k, true)) Hne) Hk3)
    as (e' & He' & Hkeep).
  exists e'. split; [exact He' | exact (Hkeep Hc3)].
Qed.

Lemma revealed_for_good_witness :
  exists e',
    Page.elements
      (Page.after Sample.endDate
         ([Page.Scroll 0]
          ++ Page.Intersect 0 [(1%nat, true); (2%nat, true)] Sample.march
          :: [Page.Timeout 0; Page.CloseClicked])
         (default Sample.page (Page.initApp 2026 0 Sample.page)))
    !! 2%nat = Some e'
    /\ revealed_class (Sample.el "section" "skills" ["hidden"%string])
       ∈ Page.classList e'.
Proof.
  apply (revealed_for_good Sample.endDate [Page.Scroll 0]
           [Page.Timeout 0; Page.CloseClicked] 0%nat
           [(1%nat, true); (2%nat, true)] Sample.march
           (default Sample.page (Page.initApp 2026 0 Sample.page)) 2%nat).
  - vm_compute. reflexivity.
  - apply list_elem_of_further, list_elem_of_here.
Defined.

(** ** The years of experience *)

Lemma initIntersectionObserver_elements els y st :
  Page.elements (Page.initIntersectionObserver els y st) = Page.elements st.
Proof.
  unfold Page.initIntersectionObserver. destruct (y =? 0)%Z; reflexivity.
Qed.

(** [initApp] throws in [calculateExperience], when nothing has been done
    but the assignment of [window.onpageshow], no image secured and no
    observer set up, exactly when the page has no element
    [sn_years_experience]; otherwise it writes the years since 2019 into
    that element, where they stay; and of the other elements nothing that
    happens later writes into any but the element popUp, into which the
    popup is written. *)
Theorem experience_written (endDate year y : Z) (page : Page.State)
    (evs : list Page.Event) :
  (Page.initApp year y page = None <->
   Page.getElementById page (js "sn_years_experience") = None)
  /\ forall k,
      Page.getElementById page (js "sn_years_experience")
      = Some (Page.Static k) ->
      exists st,
        Page.initApp year y page = Some st
        /\ forall j e,
            Page.elements page !! j = Some e ->
            exists e',
              Page.elements (Page.after endDate evs st) !! j = Some e'
              /\ if decide (j = k)
                 then Page.html e' = Some (Page.decimal (year - 2019))
                 else Page.html e' = Page.html e
                      \/ (Page.el_id e = js "popUp"
                          /\ Page.html e' = Some Page.popupMarkup).
Proof.
  unfold Page.initApp, Page.calculateExperience. split.
  - destruct (Page.getElementById page _) as [r|]; split;
      congruence || discriminate.
  - intros k Hk. pose proof (getElementById_Static _ _ _ Hk) as Hp.
    destruct (position_Some _ _ _ Hp) as (ek & Hek & Hid).
    apply andb_true_iff in Hid as [_ Hid]. apply bool_decide_eq_true in Hid.
    rewrite Hk. eexists. split; [reflexivity|]. intros j e Hj.
    set (st1 := Page.update (Page.Static k) _ page).
    assert (exists e1, Page.elements st1 !! j = Some e1
                       /\ Page.el_id e1 = Page.el_id e
                       /\ Page.html e1
                          = if decide (j = k)
                            then Some (Page.decimal (year - 2019))
                            else Page.html e) as (e1 & Hj1 & Hi1 & Hh1).
    { subst st1. cbn. destruct (decide (j = k)) as [->|Hne].
      - eexists. rewrite list_lookup_alter_eq, Hj.
        split; [reflexivity|]. split; reflexivity.
      - exists e. rewrite list_lookup_alter_ne by congruence.
        split; [exact Hj|]. split; reflexivity. }
    assert (Forall2 same_html (Page.elements st1)
              (Page.elements
                 (foldl (fun s k => Page.update (Page.Static k) Page.guard s)
                    st1 (Page.select Page.is_img st1)))) as H2.
    { apply foldl_guard_rel.
      - exact same_html_trans.
      - intros e0. split; [reflexivity | left; reflexivity].
      - apply all_refl. intros e0. split; [reflexivity | left; reflexivity]. }
    destruct (Forall2_lookup_l _ _ _ _ _ H2 Hj1) as (e2 & Hj2 & Hh2).
    set (st2 := foldl _ st1 _) in *.
    rewrite <- (initIntersectionObserver_elements
                  (Page.select Page.is_hidden st2) y st2) in Hj2.
    destruct (Forall2_lookup_l _ _ _ _ _
                (after_same_html endDate evs _) Hj2) as (e' & Hj' & Hh').
    exists e'. split; [exact Hj'|].
    destruct (same_html_trans _ _ _ Hh2 Hh') as (_ & Hsame).
    destruct (decide (j = k)) as [->|Hne].
    + rewrite Hek in Hj. injection Hj as <-.
      destruct Hsame as [Hsame|[Hpop _]]; [congruence|].
      rewrite Hi1, Hid in Hpop. discriminate.
    + rewrite Hh1, Hi1 in Hsame. exact Hsame.
Qed.

Lemma experience_written_witness :
  exists st,
    Page.initApp 2026 0 Sample.page = Some st
    /\ forall j e,
        Page.elements Sample.page !! j = Some e ->
        exists e',
          Page.elements
            (Page.after Sample.endDate
               [Page.Intersect 0 [(3%nat, true)] Sample.march;
                Page.Timeout 1] st)
          !! j = Some e'
          /\ if decide (j = 0%nat)
             then Page.html e' = Some (Page.decimal (2026 - 2019))
             else Page.html e' = Page.html e
                  \/ (Page.el_id e = js "popUp"
                      /\ Page.html e' = Some Page.popupMarkup).
Proof.
  apply (proj2 (experience_written Sample.endDate 2026 0 Sample.page
                  [Page.Intersect 0 [(3%nat, true)] Sample.march;
                   Page.Timeout 1])).
  vm_compute. reflexivity.
Defined.

(** ** The popup and its end date *)

Lemma update_quiet r g st : quiet st -> quiet (Page.update r g st).
Proof.
  intros [Hf Ht]. split.
  - rewrite update_frame, Hf. destruct r; reflexivity.
  - rewrite (proj2 (proj2 (update_rest r g st))). exact Ht.
Qed.

Lemma setTimeout_quiet task d st :
  task <> Page.FillPopup -> quiet st -> quiet (Page.setTimeout task d st).
Proof.
  intros Hne [Hf Ht]. split; [exact Hf|]. cbn. apply Forall_app. split;
    [exact Ht|]. apply Forall_cons_2; [exact Hne | apply Forall_nil_2].
Qed.

Lemma removePopup_quiet st : quiet st -> quiet (Page.removePopup st).
Proof.
  intros Hq. unfold Page.removePopup.
  destruct (Page.getElementById st _) as [r|]; [|exact Hq].
  apply update_quiet. exact Hq.
Qed.

Lemma reveal_quiet endDate observer now st entry :
  (endDate <= now)%Z -> quiet st ->
  quiet (Page.reveal endDate observer now st entry).
Proof.
  intros Hend Hq. destruct entry as [target [|]]; cbn [Page.reveal negb];
    [|exact Hq].
  assert (forall s, quiet s -> quiet (Page.unobserve observer target s))
    as Hun by (intros s Hs; exact Hs).
  apply Hun. destruct (bool_decide _); [apply update_quiet; exact Hq|].
  assert (quiet (Page.setTimeout (Page.RemoveHidden target) 3000
                   (Page.update (Page.Static target) (Page.add_class "show")
                      st))) as Hq'
    by (apply setTimeout_quiet; [discriminate | apply update_quiet; exact Hq]).
  destruct (bool_decide _); [|exact Hq'].
  unfold Page.initPopup. apply Z.leb_le in Hend. rewrite Hend. exact Hq'.
Qed.

Lemma callback_quiet endDate observer entries now st :
  (endDate <= now)%Z -> quiet st ->
  quiet (Page.callback endDate observer entries now st).
Proof.
  intros Hend. unfold Page.callback. revert st.
  induction entries as [|entry entries IH]; intros st Hq; cbn [foldl];
    [exact Hq|].
  apply IH. apply reveal_quiet; assumption.
Qed.

Lemma onPopupImageLoad_quiet st st' :
  Page.onPopupImageLoad st = Some st' -> quiet st -> quiet st'.
Proof.
  unfold Page.onPopupImageLoad, Page.secureImage.
  generalize (Page.getElementById st (js "popUpCloseButton")).
  destruct (Page.getElementById st (js "popUpImage")) as [r|];
    [|discriminate].
  intros [r'|] [= <-] Hq; apply setTimeout_quiet; try discriminate;
    repeat apply update_quiet; exact Hq.
Qed.

Lemma step_quiet endDate ev st :
  (forall observer entries now,
      ev = Page.Intersect observer entries now -> (endDate <= now)%Z) ->
  quiet st -> quiet (default st (Page.step endDate ev st)).
Proof.
  intros Hev Hq. destruct ev as [y|observer entries now|i| |];
    cbn [Page.step].
  - destruct (Page.scrollListener st) as [els|]; cbn; [|exact Hq].
    unfold Page.handleScrollToTop. destruct (y =? 0)%Z; exact Hq.
  - cbn. apply callback_quiet; [|exact Hq]. exact (Hev _ _ _ eq_refl).
  - destruct (Page.timers st !! i) as [[d task]|] eqn:Ei;
      cbn [from_option id]; [|exact Hq].
    assert (quiet (Page.set_timers (delete i (Page.timers st)) st)) as Hq'.
    { destruct Hq as [Hf Ht]. split; [exact Hf|]. cbn.
      apply Forall_delete. exact Ht. }
    destruct Hq as [_ Ht].
    pose proof (Forall_lookup_1 _ _ _ _ Ht Ei) as Hne. cbn in Hne.
    destruct task as [target| |]; cbn [Page.runTask].
    + apply update_quiet. exact Hq'.
    + contradiction.
    + apply removePopup_quiet. exact Hq'.
  - destruct (Page.onPopupImageLoad st) as [st'|] eqn:E; cbn; [|exact Hq].
    exact (onPopupImageLoad_quiet _ _ E Hq).
  - cbn. apply removePopup_quiet. exact Hq.
Qed.

Lemma after_quiet endDate evs st :
  ended endDate evs -> quiet st -> quiet (Page.after endDate evs st).
Proof.
  unfold Page.after. revert st.
  induction evs as [|ev evs IH]; intros st Hev Hq; cbn [foldl]; [exact Hq|].
  apply IH.
  - intros observer entries now Hin.
    exact (Hev _ _ _ (list_elem_of_further _ _ _ Hin)).
  - apply step_quiet; [|exact Hq]. intros observer entries now ->.
    exact (Hev _ _ _ (list_elem_of_here _ _)).
Qed.

(** From the end date on the popup is never written: if every entry an
    observer reports comes at the end date or later, the page has no popup
    frame, whatever else happens. *)
Theorem no_popup_from_end_date (endDate year y : Z) (page st : Page.State)
    (evs : list Page.Event) :
  Page.untouched page ->
  Page.initApp year y page = Some st ->
  ended endDate evs ->
  Page.frame (Page.after endDate evs st) = None.
Proof.
  intros Hpage Hinit Hev.
  destruct (initApp_rest _ _ _ _ Hpage Hinit) as (Hf & Ht & _).
  assert (quiet st) as Hq by (split; [exact Hf|]; rewrite Ht; constructor).
  exact (proj1 (after_quiet endDate evs st Hev Hq)).
Qed.

Lemma no_popup_from_end_date_witness :
  let st := default Sample.page (Page.initApp 2026 0 Sample.page) in
  let evs := [Page.Intersect 0 [(3%nat, true)] Sample.endDate;
              Page.Timeout 1; Page.Timeout 0; Page.ImageLoaded] in
  Page.frame (Page.after Sample.endDate evs st) = None.
Proof.
  apply (no_popup_from_end_date Sample.endDate 2026 0 Sample.page).
  - repeat split.
  - vm_compute. reflexivity.
  - intros observer entries now Hin. apply list_elem_of_In in Hin.
    destruct Hin as [[= _ _ <-]|[[=]|[[=]|[[=]|[]]]]]. vm_compute.
    discriminate.
Defined.

(** ** The popup once closed *)

Lemma became_has_id i e e' :
  became e e' -> Page.has_id i e' = true -> Page.has_id i e = true.
Proof.
  intros (_ & Hid & _ & Ha). unfold Page.has_id. rewrite Hid.
  intros H. apply andb_true_iff in H as [H1 H2]. rewrite (Ha H1), H2.
  reflexivity.
Qed.

Lemma became_unique_id i st st' :
  Forall2 became (Page.elements st) (Page.elements st') ->
  unique_id i st -> unique_id i st'.
Proof.
  intros Hall Hu j k ej ek Hj Hk Ij Ik.
  destruct (Forall2_lookup_r _ _ _ _ _ Hall Hj) as (ej0 & Hj0 & Bj).
  destruct (Forall2_lookup_r _ _ _ _ _ Hall Hk) as (ek0 & Hk0 & Bk).
  exact (Hu j k ej0 ek0 Hj0 Hk0 (became_has_id _ _ _ Bj Ij)
           (became_has_id _ _ _ Bk Ik)).
Qed.

Lemma became_gone i st st' :
  Forall2 became (Page.elements st) (Page.elements st') ->
  gone i st -> gone i st'.
Proof.
  intros Hall Hg k e' Hk.
  destruct (Forall2_lookup_r _ _ _ _ _ Hall Hk) as (e & Hk0 & B).
  specialize (Hg k e Hk0). destruct (Page.has_id i e') eqn:E; [|reflexivity].
  rewrite (became_has_id _ _ _ B E) in Hg. discriminate.
Qed.

Lemma removePopup_gone st :
  unique_id (js "popUp") st -> gone (js "popUp") (Page.removePopup st).
Proof.
  intros Hu. unfold Page.removePopup, Page.getElementById.
  destruct (Page.position _ _) as [k|] eqn:Ep.
  - destruct (position_Some _ _ _ Ep) as (ek & Hk & Ik).
    intros j e. rewrite update_elements.
    destruct (decide (j = k)) as [->|Hne].
    + rewrite list_lookup_alter_eq, Hk. intros [= <-]. reflexivity.
    + rewrite list_lookup_alter_ne by congruence. intros Hj.
      destruct (Page.has_id (js "popUp") e) eqn:E; [|reflexivity].
      destruct (Hne (Hu j k e ek Hj Hk E Ik)).
  - pose proof (proj1 (position_None _ _) Ep) as Hnone.
    destruct (Page.frame st) as [f|]; [|exact Hnone].
    destruct (Page.frame_attached st f); [|exact Hnone].
    destruct (bool_decide _); [exact Hnone|].
    destruct (bool_decide _); exact Hnone.
Qed.

(** Where the frame of the popup comes from. *)
Lemma update_holder r g st f' :
  Page.frame (Page.update r g st) = Some f' ->
  exists f, Page.frame st = Some f /\ Page.holder f = Page.holder f'.
Proof.
  rewrite update_frame. destruct r as [k| |];
    destruct (Page.frame st) as [f|]; cbn; try discriminate;
    intros [= <-]; exists f; split; reflexivity.
Qed.

Lemma removePopup_holder st f' :
  Page.frame (Page.removePopup st) = Some f' ->
  exists f, Page.frame st = Some f /\ Page.holder f = Page.holder f'.
Proof.
  unfold Page.removePopup. destruct (Page.getElementById st _) as [r|].
  - apply update_holder.
  - intros H. exists f'. split; [exact H | reflexivity].
Qed.

Lemma onPopupImageLoad_holder st st' f' :
  Page.onPopupImageLoad st = Some st' ->
  Page.frame st' = Some f' ->
  exists f, Page.frame st = Some f /\ Page.holder f = Page.holder f'.
Proof.
  unfold Page.onPopupImageLoad, Page.secureImage.
  generalize (Page.getElementById st (js "popUpCloseButton")).
  destruct (Page.getElementById st (js "popUpImage")) as [r|];
    [|discriminate].
  intros [r'|] [= <-]; cbn [Page.setTimeout Page.set_timers Page.frame];
    intros H.
  - apply update_holder in H as (f1 & H & E1).
    apply update_holder in H as (f2 & H & E2).
    apply update_holder in H as (f3 & H & E3).
    exists f3. split; [exact H | congruence].
  - apply update_holder in H as (f2 & H & E2).
    apply update_holder in H as (f3 & H & E3).
    exists f3. split; [exact H | congruence].
Qed.

Lemma step_holder endDate ev st f' :
  Page.frame (default st (Page.step endDate ev st)) = Some f' ->
  (exists f, Page.frame st = Some f /\ Page.holder f = Page.holder f')
  \/ Page.position (Page.has_id (js "popUp")) (Page.elements st)
     = Some (Page.holder f').
Proof.
  destruct ev as [y|observer entries now|i| |]; cbn [Page.step].
  - intros H. left. exists f'. split; [|reflexivity]. revert H.
    destruct (Page.scrollListener st) as [els|]; cbn; [|auto].
    unfold Page.handleScrollToTop. destruct (y =? 0)%Z; auto.
  - cbn [default from_option id]. rewrite callback_frame. intros H. left.
    exists f'. split; [exact H | reflexivity].
  - destruct (Page.timers st !! i) as [[d [target| |]]|];
      cbn [from_option id Page.runTask].
    + intros H. left. exists f'. split; [exact H | reflexivity].
    + unfold Page.fillPopup.
      destruct (Page.getElementById _ _) as [[k| |]|] eqn:Eg;
        try (intros H; left; exists f'; split; [exact H | reflexivity]).
      apply getElementById_Static in Eg. cbn. intros [= <-]. right. exact Eg.
    + intros H. left. apply removePopup_holder in H. exact H.
    + intros H. left. exists f'. split; [exact H | reflexivity].
  - destruct (Page.onPopupImageLoad st) as [st'|] eqn:E; cbn.
    + intros H. left. exact (onPopupImageLoad_holder _ _ _ E H).
    + intros H. left. exists f'. split; [exact H | reflexivity].
  - cbn. intros H. left. apply removePopup_holder in H. exact H.
Qed.

Lemma step_held endDate ev st :
  held st -> held (default st (Page.step endDate ev st)).
Proof.
  intros Hh f' Hf'.
  pose proof (step_became endDate ev st _ (became_all_refl _)) as Hall.
  destruct (step_holder _ _ _ _ Hf') as [(f & Hf & Eh)|Hp].
  - destruct (Hh f Hf) as (e & He & Hid). rewrite Eh in He.
    destruct (Forall2_lookup_l _ _ _ _ _ Hall He) as (e' & He' & _ & Hid' & _).
    exists e'. split; [exact He' | congruence].
  - destruct (position_Some _ _ _ Hp) as (e & He & Hi).
    destruct (Forall2_lookup_l _ _ _ _ _ Hall He) as (e' & He' & _ & Hid' & _).
    exists e'. split; [exact He'|]. rewrite Hid'.
    unfold Page.has_id in Hi. apply andb_true_iff in Hi as [_ Hi].
    apply bool_decide_eq_true in Hi. exact Hi.
Qed.

Lemma after_held endDate evs st :
  held st -> held (Page.after endDate evs st).
Proof.
  unfold Page.after. revert st.
  induction evs as [|ev evs IH]; intros st Hh; cbn [foldl]; [exact Hh|].
  apply IH. apply step_held. exact Hh.
Qed.

Lemma gone_lookup st i :
  gone (js "popUp") st -> held st -> frame_kept st ->
  i = js "popUp" \/ Page.position (Page.has_id i) (Page.elements st) = None ->
  Page.getElementById st i = None.
Proof.
  intros Hg Hh Hk Hi. unfold Page.getElementById.
  assert (Page.position (Page.has_id i) (Page.elements st) = None) as ->
    by (destruct Hi as [->|Hi]; [apply position_None; exact Hg | exact Hi]).
  destruct (Page.frame st) as [f|] eqn:Ef; [|reflexivity].
  destruct (Hh f Ef) as (e & He & Hid).
  unfold Page.frame_attached. rewrite He.
  pose proof (Hg _ _ He) as Hno. unfold Page.has_id in Hno.
  rewrite Hid, bool_decide_eq_true_2, andb_true_r in Hno by reflexivity.
  rewrite Hno. reflexivity.
Qed.

(** Once the popup is closed it is closed for good: if the page has one
    element [popUp], then after a click on the close button the page has
    none, and it has nothing of what was written into the popup either,
    whatever happens next. *)
Theorem popup_closed_for_good (endDate year y : Z) (page st : Page.State)
    (evs : list Page.Event) :
  Page.untouched page ->
  Page.initApp year y page = Some st ->
  unique_id (js "popUp") page ->
  Page.CloseClicked ∈ evs ->
  Page.getElementById (Page.after endDate evs st) (js "popUp") = None
  /\ forall i, Page.getElementById (Page.after endDate evs st) i
               = Page.Static
                 <$> Page.position (Page.has_id i)
                       (Page.elements (Page.after endDate evs st)).
Proof.
  intros Hpage Hinit Hu Hin.
  apply list_elem_of_split in Hin as (evs1 & evs2 & ->).
  rewrite after_app.
  set (st1 := Page.after endDate evs1 st).
  destruct (initApp_rest _ _ _ _ Hpage Hinit) as (Hfr & _).
  assert (frame_kept st) as Hk0 by (intros f'; rewrite Hfr; discriminate).
  assert (held st) as Hh0 by (intros f'; rewrite Hfr; discriminate).
  assert (unique_id (js "popUp") st1) as Hu1.
  { apply (became_unique_id _ page); [|exact Hu].
    pose proof (initApp_became _ _ _ _ Hinit) as H0.
    exact (after_became endDate evs1 st _ H0). }
  pose proof (after_frame_kept endDate (evs1 ++ Page.CloseClicked :: evs2)
                st Hk0) as Hk.
  pose proof (after_held endDate (evs1 ++ Page.CloseClicked :: evs2)
                st Hh0) as Hh.
  rewrite after_app in Hk, Hh. fold st1 in Hk, Hh.
  assert (gone (js "popUp")
            (Page.after endDate (Page.CloseClicked :: evs2) st1)) as Hg.
  { apply (became_gone _ (Page.removePopup st1)).
    - exact (after_became endDate evs2 (Page.removePopup st1) _
               (became_all_refl _)).
    - apply removePopup_gone. exact Hu1. }
  split.
  - apply gone_lookup; auto.
  - intros i. destruct (Page.position (Page.has_id i) _) as [k|] eqn:Ep.
    + unfold Page.getElementById. rewrite Ep. reflexivity.
    + apply gone_lookup; auto.
Qed.

Lemma popup_closed_for_good_witness :
  let st := default Sample.page (Page.initApp 2026 0 Sample.page) in
  let evs := [Page.Intersect 0 [(3%nat, true)] Sample.march; Page.Timeout 1;
              Page.ImageLoaded; Page.CloseClicked; Page.Timeout 1] in
  Page.getElementById (Page.after Sample.endDate evs st) (js "popUp") = None
  /\ forall i, Page.getElementById (Page.after Sample.endDate evs st) i
               = Page.Static
                 <$> Page.position (Page.has_id i)
                       (Page.elements (Page.after Sample.endDate evs st)).
Proof.
  apply (popup_closed_for_good Sample.endDate 2026 0 Sample.page).
  - repeat split.
  - vm_compute. reflexivity.
  - intros j k ej ek Hj Hk Ij Ik.
    destruct j as [|[|[|[|j]]]]; try discriminate;
      injection Hj as <-; try discriminate;
      destruct k as [|[|[|[|k]]]]; try discriminate;
      injection Hk as <-; try discriminate; reflexivity.
  - apply list_elem_of_further, list_elem_of_further, list_elem_of_further,
      list_elem_of_here.
Defined.

(** ** The popup before its end date *)

Lemma position_alter p g k (l : list Page.Element) :
  (forall e, p (g e) = p e) ->
  Page.position p (alter g k l) = Page.position p l.
Proof.
  intros Hg. revert k. induction l as [|e l IH]; intros k; [reflexivity|].
  destruct k as [|k]; cbn.
  - rewrite Hg. reflexivity.
  - rewrite IH. reflexivity.
Qed.

Lemma popUp_plain : js "popUp" ∉ Page.BACKGROUND_IMAGE_IDS.
Proof.
  intros Hin. apply list_elem_of_In in Hin. vm_compute in Hin.
  intuition discriminate.
Qed.

Lemma reveal_popUp endDate observer now st k :
  Page.getElementById st (js "popUp") = Some (Page.Static k) ->
  (now < endDate)%Z ->
  let st1 := Page.reveal endDate observer now st (k, true) in
  Page.elements st1 = alter (Page.add_class "show") k (Page.elements st)
  /\ Page.frame st1 = Page.frame st
  /\ Page.timers st1
     = Page.timers st ++ [(3000%Z, Page.RemoveHidden k)]
       ++ [(Page.showDelay, Page.FillPopup)].
Proof.
  intros Hg Hnow. apply getElementById_Static in Hg.
  destruct (position_Some _ _ _ Hg) as (e & He & Hi).
  apply andb_true_iff in Hi as [_ Hi]. apply bool_decide_eq_true in Hi.
  assert (Page.id_of st k = js "popUp") as Hid
    by (unfold Page.id_of; rewrite He; exact Hi).
  cbn [Page.reveal negb]. rewrite Hid.
  rewrite (bool_decide_eq_false_2 _ popUp_plain).
  rewrite (bool_decide_eq_true_2 _ eq_refl).
  unfold Page.initPopup. apply Z.leb_gt in Hnow. rewrite Hnow.
  cbn. rewrite <- app_assoc. repeat split.
Qed.

Lemma fill_popUp st k :
  Page.position (Page.has_id (js "popUp")) (Page.elements st) = Some k ->
  Page.fillPopup st
  = Page.set_frame (Some {| Page.holder := k;
                            Page.closeButton := Page.fresh_button;
                            Page.image := Page.fresh_image |})
      (Page.update (Page.Static k) (Page.set_html Page.popupMarkup) st).
Proof.
  intros Hp. unfold Page.fillPopup, Page.getElementById. rewrite Hp.
  reflexivity.
Qed.

Lemma loaded_popUp st k e :
  Page.frame st = Some {| Page.holder := k;
                          Page.closeButton := Page.fresh_button;
                          Page.image := Page.fresh_image |} ->
  Page.elements st !! k = Some e -> Page.attached e = true ->
  gone (js "popUpImage") st -> gone (js "popUpCloseButton") st ->
  exists st',
    Page.onPopupImageLoad st = Some st'
    /\ Page.frame st'
       = Some {| Page.holder := k;
                 Page.closeButton :=
                   Page.add_class "popUpCloseButtonFadeIn" Page.fresh_button;
                 Page.image :=
                   Page.add_class "imgFadeIn" (Page.guard Page.fresh_image) |}
    /\ Page.timers st'
       = Page.timers st ++ [(Page.autoCloseDelay, Page.RemovePopup)]
    /\ Page.elements st' = Page.elements st.
Proof.
  intros Hf He Ha Hi Hb.
  assert (Page.getElementById st (js "popUpImage") = Some Page.FrameImage)
    as Hgi.
  { unfold Page.getElementById.
    rewrite (proj2 (position_None _ _) Hi), Hf.
    unfold Page.frame_attached. cbn [Page.holder]. rewrite He, Ha.
    reflexivity. }
  assert (Page.getElementById st (js "popUpCloseButton")
          = Some Page.FrameButton) as Hgb.
  { unfold Page.getElementById.
    rewrite (proj2 (position_None _ _) Hb), Hf.
    unfold Page.frame_attached. cbn [Page.holder]. rewrite He, Ha.
    reflexivity. }
  unfold Page.onPopupImageLoad, Page.secureImage. rewrite Hgi, Hgb.
  eexists. split; [reflexivity|].
  cbn [Page.setTimeout Page.set_timers Page.update Page.on_frame
         Page.set_frame Page.frame Page.timers Page.elements].
  rewrite Hf. repeat split.
Qed.

Lemma alter_gone i g k st :
  (forall e, Page.has_id i (g e) = Page.has_id i e) ->
  gone i st -> forall j e, alter g k (Page.elements st) !! j = Some e ->
                           Page.has_id i e = false.
Proof.
  intros Hg Hgone j e. destruct (decide (j = k)) as [->|Hne].
  - rewrite list_lookup_alter_eq.
    destruct (Page.elements st !! k) as [e0|] eqn:E; [|discriminate].
    intros [= <-]. rewrite Hg. exact (Hgone _ _ E).
  - rewrite list_lookup_alter_ne by congruence. apply Hgone.
Qed.

(** Before the end date the popup is shown: when the element [popUp] comes
    into view, the timer it sets writes the popup into it after the show
    delay, and once the image has loaded the image is guarded and faded in,
    the close button is faded in, and the popup is set to close by itself
    after the auto-close delay. *)
Theorem popup_shown_before_end (endDate now : Z) (observer k : nat)
    (st : Page.State) :
  Page.getElementById st (js "popUp") = Some (Page.Static k) ->
  gone (js "popUpImage") st -> gone (js "popUpCloseButton") st ->
  (now < endDate)%Z ->
  let st' :=
    Page.after endDate
      [Page.Intersect observer [(k, true)] now;
       Page.Timeout (S (length (Page.timers st)));
       Page.ImageLoaded] st in
  Page.frame st'
  = Some {| Page.holder := k;
            Page.closeButton :=
              Page.add_class "popUpCloseButtonFadeIn" Page.fresh_button;
            Page.image :=
              Page.add_class "imgFadeIn" (Page.guard Page.fresh_image) |}
  /\ Page.timers st'
     = Page.timers st
       ++ [(3000%Z, Page.RemoveHidden k);
           (Page.autoCloseDelay, Page.RemovePopup)]
  /\ Page.getElementById st' (js "popUpImage") = Some Page.FrameImage.
Proof.
  intros Hg Hi Hb Hnow.
  destruct (reveal_popUp endDate observer now st k Hg Hnow)
    as (He1 & Hf1 & Ht1).
  pose proof (getElementById_Static _ _ _ Hg) as Hp.
  destruct (position_Some _ _ _ Hp) as (e & He & Hid).
  pose proof Hid as Hid'. apply andb_true_iff in Hid' as [Ha _].
  unfold Page.after.
  cbn [foldl Page.step default from_option id Page.callback].
  set (st1 := Page.reveal endDate observer now st (k, true)) in *.
  assert (Page.timers st1 !! S (length (Page.timers st))
          = Some (Page.showDelay, Page.FillPopup)) as Hl.
  { rewrite Ht1, lookup_app_r by lia.
    replace (S (length (Page.timers st)) - length (Page.timers st))%nat
      with 1%nat by lia. reflexivity. }
  rewrite Hl. cbn [Page.runTask].
  assert (delete (S (length (Page.timers st))) (Page.timers st1)
          = Page.timers st ++ [(3000%Z, Page.RemoveHidden k)]) as Hd.
  { rewrite Ht1. clear. induction (Page.timers st) as [|t ts IH];
      [reflexivity|]. cbn. f_equal. exact IH. }
  rewrite Hd.
  set (st2 := Page.set_timers _ st1).
  assert (Page.position (Page.has_id (js "popUp")) (Page.elements st2)
          = Some k) as Hp2.
  { subst st2. cbn [Page.set_timers Page.elements]. rewrite He1.
    rewrite position_alter; [exact Hp | reflexivity]. }
  rewrite (fill_popUp st2 k Hp2).
  set (st3 := Page.set_frame _ _).
  set (shown := Page.set_html Page.popupMarkup ∘ Page.add_class "show").
  assert (Page.elements st3 = alter shown k (Page.elements st)) as He3.
  { subst st3 st2 shown. cbn [Page.set_frame Page.update Page.set_elements
      Page.set_timers Page.elements]. rewrite He1.
    apply list_alter_alter_eq. }
  destruct (loaded_popUp st3 k (shown e)) as
    (st4 & Hst4 & Hf4 & Ht4 & He4).
  - reflexivity.
  - rewrite He3, list_lookup_alter_eq, He. reflexivity.
  - exact Ha.
  - intros j e'. rewrite He3. apply alter_gone; [reflexivity | exact Hi].
  - intros j e'. rewrite He3. apply alter_gone; [reflexivity | exact Hb].
  - change (default st1 (Some st3)) with st3. rewrite Hst4.
    change (default st3 (Some st4)) with st4. split; [exact Hf4|].
    split.
    + rewrite Ht4. subst st3 st2. cbn [Page.set_frame Page.set_timers
        Page.update Page.set_elements Page.timers]. rewrite <- app_assoc.
      reflexivity.
    + unfold Page.getElementById. rewrite He4, He3.
      rewrite (proj2 (position_None _ _)
                 (alter_gone (js "popUpImage") shown k st
                    (fun _ => eq_refl) Hi)).
      rewrite Hf4. unfold Page.frame_attached. cbn [Page.holder].
      rewrite He4, He3, list_lookup_alter_eq, He. subst shown.
      cbn [fmap option_fmap option_map].
      change (Page.attached ((Page.set_html Page.popupMarkup
                              ∘ Page.add_class "show") e))
        with (Page.attached e).
      rewrite Ha. reflexivity.
Qed.

Lemma popup_shown_before_end_witness :
  let st := default Sample.page (Page.initApp 2026 0 Sample.page) in
  let st' :=
    Page.after Sample.endDate
      [Page.Intersect 0 [(3%nat, true)] Sample.march;
       Page.Timeout (S (length (Page.timers st)));
       Page.ImageLoaded] st in
  Page.frame st'
  = Some {| Page.holder := 3%nat;
            Page.closeButton :=
              Page.add_class "popUpCloseButtonFadeIn" Page.fresh_button;
            Page.image :=
              Page.add_class "imgFadeIn" (Page.guard Page.fresh_image) |}
  /\ Page.timers st'
     = Page.timers st
       ++ [(3000%Z, Page.RemoveHidden 3%nat);
           (Page.autoCloseDelay, Page.RemovePopup)]
  /\ Page.getElementById st' (js "popUpImage") = Some Page.FrameImage.
Proof.
  apply (popup_shown_before_end Sample.endDate Sample.march 0%nat 3%nat
           (default Sample.page (Page.initApp 2026 0 Sample.page))).
  - vm_compute. reflexivity.
  - intros j e Hj.
    destruct j as [|[|[|[|j]]]]; try discriminate; injection Hj as <-;
      reflexivity.
  - intros j e Hj.
    destruct j as [|[|[|[|j]]]]; try discriminate; injection Hj as <-;
      reflexivity.
  - vm_compute. reflexivity.
Defined.
